(** * WatchYourBack dashboard: the WebSocket service

    A shallow embedding of [src/dashboard/services/websocket-service.js]
    ([createWebSocketService]) and the verification of its connection
    lifecycle, message routing and request/reply correlation.

    The service is a closure over mutable variables ([socket],
    [isConnected], [messageHandlers], ...).  It is modelled as a record
    [State] holding those variables together with the part of the JavaScript
    run time the code talks to: the WebSocket objects it created, the pending
    timers, the promises it returned and a chronological log of the effects
    it performed.  Every function of the service is a state transformer;
    every callback it installs ([onopen], [onclose], timer callbacks, one-shot
    message handlers) is a constructor of a small inductive type that stands
    for the closure, interpreted by the corresponding transformer.

    Conventions.
    - Console output is not modelled.
    - Reactions attached with [.catch] run in the microtask that follows the
      rejection; they only touch state private to their request, so they are
      executed at the point where the promise is rejected.
    - Delays are rationals: every value the code computes
      (1000 * 1.5^k capped at 30000) is exactly representable as a double, so
      rational arithmetic coincides with the arithmetic of the program. *)

From Stdlib Require Import ZArith QArith Qminmax Qpower Lqa.
From stdpp Require Import gmap strings list.

Open Scope string_scope.
Open Scope list_scope.

(** ** Values *)

#[local] Set Warnings "-register-all".

(** Decoded JSON text, the [data] of inbound frames and the payload of
    outbound ones.  Object fields are kept as an association list. *)
Inductive json : Type :=
  | JNull
  | JBool (b : bool)
  | JNum (n : Z)
  | JStr (s : string)
  | JArr (items : list json)
  | JObj (fields : list (string * json)).

(** [data.name]: [None] stands for [undefined]. Property access on a
    primitive or on an array index-less name yields [undefined]. *)
Fixpoint assoc (name : string) (fields : list (string * json)) : option json :=
  match fields with
  | [] => None
  | (k, v) :: rest => if String.eqb k name then Some v else assoc name rest
  end.

Definition get_field (name : string) (data : json) : option json :=
  match data with
  | JObj fields => assoc name fields
  | _ => None
  end.

(** JavaScript truthiness of a (possibly undefined) value. *)
Definition truthy (v : option json) : bool :=
  match v with
  | None => false
  | Some JNull => false
  | Some (JBool b) => b
  | Some (JNum n) => negb (n =? 0)%Z
  | Some (JStr s) => negb (String.eqb s "")
  | Some (JArr _) => true
  | Some (JObj _) => true
  end.

(** [v || dflt] *)
Definition or_default (v : option json) (dflt : json) : json :=
  match v with
  | Some x => if truthy v then x else dflt
  | None => dflt
  end.

(** [new Error(message)] and exceptions raised by the run time. *)
Inductive Error : Type := MkError (message : string).

Global Instance Error_eq_dec : EqDecision Error.
Proof. solve_decision. Defined.

(** [WebSocket.CONNECTING], [OPEN], [CLOSING], [CLOSED]. *)
Inductive ReadyState : Type := CONNECTING | OPEN | CLOSING | CLOSED.

Global Instance ReadyState_eq_dec : EqDecision ReadyState.
Proof. solve_decision. Defined.

(** The [options] argument of [connect]. *)
Record ConnectOptions : Type := {
  co_timeout : option Z;
  noReconnect : bool;
  unlimitedReconnect : bool;
}.

(** [connect(url)] called without options: [options = {}]. *)
Definition no_options : ConnectOptions :=
  {| co_timeout := None; noReconnect := false; unlimitedReconnect := false |}.

(** [options.timeout || dflt] *)
Definition timeout_or (t : option Z) (dflt : Z) : Z :=
  match t with
  | Some n => if (n =? 0)%Z then dflt else n
  | None => dflt
  end.

(** ** Callbacks *)

(** The five request operations of the service. *)
Inductive ReqOp : Type :=
  GetClients | GetPresets | UpdateDisplay | SavePreset | LoadPreset.

Global Instance ReqOp_eq_dec : EqDecision ReqOp.
Proof. solve_decision. Defined.

(** The [messageType] constant of each request operation. *)
Definition reply_type (op : ReqOp) : string :=
  match op with
  | GetClients => "client_list"
  | GetPresets => "preset_list"
  | UpdateDisplay => "display_updated"
  | SavePreset => "preset_saved"
  | LoadPreset => "preset_loaded"
  end.

(** What a message handler installed by a caller does when it is invoked:
    return, throw, or take itself out of the table with
    [offMessage(type, self)]. *)
Inductive UserBehaviour : Type :=
  | UReturn
  | UThrow (e : Error)
  | UOffSelf (messageType : string).

Global Instance UserBehaviour_eq_dec : EqDecision UserBehaviour.
Proof. solve_decision. Defined.

(** A message handler: the [handler] closure of a request operation (it
    captures the [resolve] of promise [pid] and the variable [timeoutId],
    which holds timer [tid] whenever the handler can run), or a function
    supplied by a caller, identified by [fid]. *)
Inductive Handler : Type :=
  | HOneShot (op : ReqOp) (pid tid : nat)
  | HUser (fid : nat) (b : UserBehaviour).

Global Instance Handler_eq_dec : EqDecision Handler.
Proof. solve_decision. Defined.

(** Event names of [eventListeners]. *)
Inductive EventName : Type :=
  EvConnect | EvDisconnect | EvError | EvReconnect | EvMessage.

Global Instance EventName_eq_dec : EqDecision EventName.
Proof. solve_decision. Defined.

(** The [data] objects passed to [triggerEvent]. *)
Inductive EventData : Type :=
  | DConnect (u : string)
  | DDisconnect (code : Z) (reason : string) (wasClean : bool)
  | DError (e : Error)
  | DParseError (e : Error) (rawData : string)
  | DMaxReconnect (message : string)
  | DSocketError (message : string) (u : string) (state : option ReadyState)
  | DDisconnectError (e : Error)
  | DReconnect (attempt : nat) (delay : Q) (u : string)
  | DSendError (e : Error) (message : json)
  | DSendErrorState (e : Error) (message : json) (state : option ReadyState)
  | DHandlerError (e : Error) (messageType : string) (data : json)
  | DMessage (data : json).

(** An event listener: a caller's callback, which may throw. *)
Record Listener : Type := { l_id : nat; l_throws : bool }.

Global Instance Listener_eq_dec : EqDecision Listener.
Proof. solve_decision. Defined.

(** Callbacks passed to [setTimeout]. *)
Inductive TimerCallback : Type :=
  | CbConnectionTimeout (pid : nat)
  | CbReconnect
  | CbRequestTimeout (op : ReqOp) (pid : nat).

Record Timer : Type := { t_delay : Q; t_callback : TimerCallback }.

(** ** Run-time objects *)

(** A WebSocket object together with the closure of the [connect] call that
    created it: its [options], its [connectionTimeout] and its promise. *)
Record WebSocket : Type := {
  ws_url : string;
  readyState : ReadyState;
  ws_options : ConnectOptions;
  ws_timer : nat;
  ws_promise : nat;
}.

Definition set_readyState (r : ReadyState) (ws : WebSocket) : WebSocket :=
  {| ws_url := ws_url ws; readyState := r; ws_options := ws_options ws;
     ws_timer := ws_timer ws; ws_promise := ws_promise ws |}.

Inductive Settlement : Type :=
  | Pending
  | Fulfilled (v : option json)
  | Rejected (e : Error).

(** A promise; [p_backoff] records the [.catch] reaction that
    [scheduleReconnect] attaches to the promise of the attempt it starts. *)
Record Promise : Type := { p_state : Settlement; p_backoff : bool }.

(** What the service did, in chronological order. *)
Inductive Effect : Type :=
  | Emitted (ev : EventName) (d : EventData)
  | Notified (l : Listener) (ev : EventName) (d : EventData)
  | HandlerRan (h : Handler) (data : json)
  | WsCreated (sid : nat) (u : string)
  | WsCloseCalled (sid : nat) (args : option (Z * string))
  | WsSent (sid : nat) (message : json).

(** ** The state of one service instance *)

Record State : Type := {
  socket : option nat;
  isConnected : bool;
  messageHandlers : gmap string (list Handler);
  reconnectTimeout : option nat;
  reconnectDelay : Q;
  url : string;
  connectionError : option EventData;
  connectionAttempts : nat;
  eventListeners : EventName -> list Listener;
  sockets : list WebSocket;
  timers : gmap nat Timer;
  next_timer : nat;
  promises : list Promise;
  effects : list Effect;
}.

Definition MAX_RECONNECT_ATTEMPTS : nat := 5.
Definition MAX_RECONNECT_DELAY : Q := 30000.

(** The variables of a fresh [createWebSocketService(system)].  Timer
    identifiers start at 1: they are positive, hence truthy. *)
Definition createWebSocketService : State :=
  {| socket := None; isConnected := false; messageHandlers := ∅;
     reconnectTimeout := None; reconnectDelay := 1000; url := "";
     connectionError := None; connectionAttempts := 0;
     eventListeners := fun _ => []; sockets := []; timers := ∅;
     next_timer := 1; promises := []; effects := [] |}.

(** Assignments to the variables. *)

Definition set_socket v (st : State) : State :=
  {| socket := v; isConnected := isConnected st;
     messageHandlers := messageHandlers st;
     reconnectTimeout := reconnectTimeout st;
     reconnectDelay := reconnectDelay st; url := url st;
     connectionError := connectionError st;
     connectionAttempts := connectionAttempts st;
     eventListeners := eventListeners st; sockets := sockets st;
     timers := timers st; next_timer := next_timer st;
     promises := promises st; effects := effects st |}.

Definition set_isConnected v (st : State) : State :=
  {| socket := socket st; isConnected := v;
     messageHandlers := messageHandlers st;
     reconnectTimeout := reconnectTimeout st;
     reconnectDelay := reconnectDelay st; url := url st;
     connectionError := connectionError st;
     connectionAttempts := connectionAttempts st;
     eventListeners := eventListeners st; sockets := sockets st;
     timers := timers st; next_timer := next_timer st;
     promises := promises st; effects := effects st |}.

Definition set_messageHandlers v (st : State) : State :=
  {| socket := socket st; isConnected := isConnected st;
     messageHandlers := v; reconnectTimeout := reconnectTimeout st;
     reconnectDelay := reconnectDelay st; url := url st;
     connectionError := connectionError st;
     connectionAttempts := connectionAttempts st;
     eventListeners := eventListeners st; sockets := sockets st;
     timers := timers st; next_timer := next_timer st;
     promises := promises st; effects := effects st |}.

Definition set_reconnectTimeout v (st : State) : State :=
  {| socket := socket st; isConnected := isConnected st;
     messageHandlers := messageHandlers st; reconnectTimeout := v;
     reconnectDelay := reconnectDelay st; url := url st;
     connectionError := connectionError st;
     connectionAttempts := connectionAttempts st;
     eventListeners := eventListeners st; sockets := sockets st;
     timers := timers st; next_timer := next_timer st;
     promises := promises st; effects := effects st |}.

Definition set_reconnectDelay v (st : State) : State :=
  {| socket := socket st; isConnected := isConnected st;
     messageHandlers := messageHandlers st;
     reconnectTimeout := reconnectTimeout st; reconnectDelay := v;
     url := url st; connectionError := connectionError st;
     connectionAttempts := connectionAttempts st;
     eventListeners := eventListeners st; sockets := sockets st;
     timers := timers st; next_timer := next_timer st;
     promises := promises st; effects := effects st |}.

Definition set_url v (st : State) : State :=
  {| socket := socket st; isConnected := isConnected st;
     messageHandlers := messageHandlers st;
     reconnectTimeout := reconnectTimeout st;
     reconnectDelay := reconnectDelay st; url := v;
     connectionError := connectionError st;
     connectionAttempts := connectionAttempts st;
     eventListeners := eventListeners st; sockets := sockets st;
     timers := timers st; next_timer := next_timer st;
     promises := promises st; effects := effects st |}.

Definition set_connectionError v (st : State) : State :=
  {| socket := socket st; isConnected := isConnected st;
     messageHandlers := messageHandlers st;
     reconnectTimeout := reconnectTimeout st;
     reconnectDelay := reconnectDelay st; url := url st;
     connectionError := v; connectionAttempts := connectionAttempts st;
     eventListeners := eventListeners st; sockets := sockets st;
     timers := timers st; next_timer := next_timer st;
     promises := promises st; effects := effects st |}.

Definition set_connectionAttempts v (st : State) : State :=
  {| socket := socket st; isConnected := isConnected st;
     messageHandlers := messageHandlers st;
     reconnectTimeout := reconnectTimeout st;
     reconnectDelay := reconnectDelay st; url := url st;
     connectionError := connectionError st; connectionAttempts := v;
     eventListeners := eventListeners st; sockets := sockets st;
     timers := timers st; next_timer := next_timer st;
     promises := promises st; effects := effects st |}.

Definition set_eventListeners v (st : State) : State :=
  {| socket := socket st; isConnected := isConnected st;
     messageHandlers := messageHandlers st;
     reconnectTimeout := reconnectTimeout st;
     reconnectDelay := reconnectDelay st; url := url st;
     connectionError := connectionError st;
     connectionAttempts := connectionAttempts st; eventListeners := v;
     sockets := sockets st; timers := timers st; next_timer := next_timer st;
     promises := promises st; effects := effects st |}.

Definition set_sockets v (st : State) : State :=
  {| socket := socket st; isConnected := isConnected st;
     messageHandlers := messageHandlers st;
     reconnectTimeout := reconnectTimeout st;
     reconnectDelay := reconnectDelay st; url := url st;
     connectionError := connectionError st;
     connectionAttempts := connectionAttempts st;
     eventListeners := eventListeners st; sockets := v; timers := timers st;
     next_timer := next_timer st; promises := promises st;
     effects := effects st |}.

Definition set_timers v (st : State) : State :=
  {| socket := socket st; isConnected := isConnected st;
     messageHandlers := messageHandlers st;
     reconnectTimeout := reconnectTimeout st;
     reconnectDelay := reconnectDelay st; url := url st;
     connectionError := connectionError st;
     connectionAttempts := connectionAttempts st;
     eventListeners := eventListeners st; sockets := sockets st; timers := v;
     next_timer := next_timer st; promises := promises st;
     effects := effects st |}.

Definition set_next_timer v (st : State) : State :=
  {| socket := socket st; isConnected := isConnected st;
     messageHandlers := messageHandlers st;
     reconnectTimeout := reconnectTimeout st;
     reconnectDelay := reconnectDelay st; url := url st;
     connectionError := connectionError st;
     connectionAttempts := connectionAttempts st;
     eventListeners := eventListeners st; sockets := sockets st;
     timers := timers st; next_timer := v; promises := promises st;
     effects := effects st |}.

Definition set_promises v (st : State) : State :=
  {| socket := socket st; isConnected := isConnected st;
     messageHandlers := messageHandlers st;
     reconnectTimeout := reconnectTimeout st;
     reconnectDelay := reconnectDelay st; url := url st;
     connectionError := connectionError st;
     connectionAttempts := connectionAttempts st;
     eventListeners := eventListeners st; sockets := sockets st;
     timers := timers st; next_timer := next_timer st; promises := v;
     effects := effects st |}.

Definition set_effects v (st : State) : State :=
  {| socket := socket st; isConnected := isConnected st;
     messageHandlers := messageHandlers st;
     reconnectTimeout := reconnectTimeout st;
     reconnectDelay := reconnectDelay st; url := url st;
     connectionError := connectionError st;
     connectionAttempts := connectionAttempts st;
     eventListeners := eventListeners st; sockets := sockets st;
     timers := timers st; next_timer := next_timer st;
     promises := promises st; effects := v |}.

(** ** Arrays *)

(** [l.indexOf(x)]: the first position holding [x], [None] for [-1]. *)
Fixpoint indexOf {A} `{EqDecision A} (x : A) (l : list A) : option nat :=
  match l with
  | [] => None
  | y :: rest => if decide (y = x) then Some 0 else S <$> indexOf x rest
  end.

(** [const index = l.indexOf(x); if (index !== -1) l.splice(index, 1)] *)
Definition remove_registered {A} `{EqDecision A} (x : A) (l : list A) : list A :=
  match indexOf x l with
  | Some index => delete index l
  | None => l
  end.

(** ** The service *)

(** What the service is given: the [system] name the instance was created
    with, and the run time: [JSON.parse] ([None] when it throws a
    SyntaxError), and the exception that [new WebSocket(url)], [close(..)] on
    the WebSocket [sid] and [JSON.stringify]/[send(..)] raise, if any. *)
Record Runtime : Type := {
  system : string;
  JSON_parse : string -> option json;
  ctor_throws : string -> option Error;
  close_throws : nat -> option Error;
  send_throws : nat -> json -> option Error;
}.

Section Service.

(** The run time one instance runs against. *)
Variable rt : Runtime.

Definition log (es : list Effect) (st : State) : State :=
  set_effects (effects st ++ es) st.

(** *** Promises *)

(** [new Promise(..)]: the new promise is the one at index
    [length (promises st)]. *)
Definition new_promise (st : State) : State :=
  set_promises (promises st ++ [{| p_state := Pending; p_backoff := false |}]) st.

Definition promise_state (pid : nat) (st : State) : option Settlement :=
  p_state <$> promises st !! pid.

(** The reaction of [scheduleReconnect]:
    [reconnectDelay = Math.min(reconnectDelay * 1.5, MAX_RECONNECT_DELAY)] *)
Definition backoff (st : State) : State :=
  set_reconnectDelay (Qmin (reconnectDelay st * 1.5) MAX_RECONNECT_DELAY) st.

(** [resolve(v)] and [reject(e)] of promise [pid]: they settle a pending
    promise and do nothing on a settled one. *)
Definition resolve (pid : nat) (v : option json) (st : State) : State :=
  match promises st !! pid with
  | Some {| p_state := Pending; p_backoff := b |} =>
      set_promises
        (<[pid := {| p_state := Fulfilled v; p_backoff := b |}]> (promises st)) st
  | _ => st
  end.

Definition reject (pid : nat) (e : Error) (st : State) : State :=
  match promises st !! pid with
  | Some {| p_state := Pending; p_backoff := b |} =>
      let st' :=
        set_promises
          (<[pid := {| p_state := Rejected e; p_backoff := b |}]> (promises st)) st in
      if b then backoff st' else st'
  | _ => st
  end.

(** [promise.catch(() => { reconnectDelay = ... })] *)
Definition catch_backoff (pid : nat) (st : State) : State :=
  match promises st !! pid with
  | Some {| p_state := Pending; p_backoff := _ |} =>
      set_promises
        (<[pid := {| p_state := Pending; p_backoff := true |}]> (promises st)) st
  | Some {| p_state := Rejected _; p_backoff := _ |} => backoff st
  | _ => st
  end.

(** *** Timers *)

(** [setTimeout(cb, delay)] returns the identifier [next_timer st]. *)
Definition setTimeout (cb : TimerCallback) (delay : Q) (st : State) : State :=
  set_next_timer (S (next_timer st))
    (set_timers (<[next_timer st := {| t_delay := delay; t_callback := cb |}]> (timers st)) st).

Definition clearTimeout (tid : nat) (st : State) : State :=
  set_timers (delete tid (timers st)) st.

(** *** Event dispatcher *)

Definition addEventListener (event : EventName) (callback : Listener)
    (st : State) : State :=
  set_eventListeners
    (fun e => if decide (e = event) then eventListeners st e ++ [callback]
              else eventListeners st e) st.

Definition removeEventListener (event : EventName) (callback : Listener)
    (st : State) : State :=
  set_eventListeners
    (fun e => if decide (e = event)
              then remove_registered callback (eventListeners st e)
              else eventListeners st e) st.

(** Every listener of [event] is called in registration order inside its
    own [try]/[catch]. *)
Definition triggerEvent (event : EventName) (data : EventData)
    (st : State) : State :=
  log (Emitted event data
         :: map (fun callback => Notified callback event data)
              (eventListeners st event)) st.

(** *** Message handler table *)

(** [if (!has(t)) set(t, []); get(t).push(handler)] *)
Definition onMessage (messageType : string) (handler : Handler)
    (st : State) : State :=
  set_messageHandlers
    (<[messageType := default [] (messageHandlers st !! messageType) ++ [handler]]>
       (messageHandlers st)) st.

Definition offMessage (messageType : string) (handler : Handler)
    (st : State) : State :=
  match messageHandlers st !! messageType with
  | Some handlers =>
      set_messageHandlers
        (<[messageType := remove_registered handler handlers]> (messageHandlers st)) st
  | None => st
  end.

(** *** Transport *)

(** [socket.close(..)] on WebSocket [sid]: raises, or starts the closing
    handshake of a socket that is connecting or open. *)
Definition closing (ws : WebSocket) : WebSocket :=
  match readyState ws with
  | CONNECTING | OPEN => set_readyState CLOSING ws
  | _ => ws
  end.

Definition ws_close (sid : nat) (args : option (Z * string)) (st : State)
    : option Error * State :=
  match close_throws rt sid with
  | Some exn => (Some exn, st)
  | None =>
      (None, log [WsCloseCalled sid args]
               (set_sockets (alter closing sid (sockets st)) st))
  end.

(** [socket.readyState] of WebSocket [sid]. *)
Definition state_of (sid : nat) (st : State) : option ReadyState :=
  readyState <$> sockets st !! sid.

(** [disconnect()] *)
Definition disconnect (st : State) : State :=
  let st :=
    match socket st with
    | Some sid =>
        let st :=
          if decide (state_of sid st = Some OPEN \/ state_of sid st = Some CONNECTING)
          then
            match ws_close sid (Some (1000%Z, "Disconnected by client")) st with
            | (Some error, st') => triggerEvent EvError (DDisconnectError error) st'
            | (None, st') => st'
            end
          else st in
        (* finally *)
        set_isConnected false (set_socket None st)
    | None => st
    end in
  match reconnectTimeout st with
  | Some t => set_reconnectTimeout None (clearTimeout t st)
  | None => st
  end.

(** [scheduleReconnect()]; the callback is [CbReconnect]. *)
Definition scheduleReconnect (st : State) : State :=
  let st :=
    match reconnectTimeout st with
    | Some t => clearTimeout t st
    | None => st
    end in
  set_reconnectTimeout (Some (next_timer st))
    (setTimeout CbReconnect (reconnectDelay st) st).

(** [send(message)]; its promise is the one at [length (promises st)]. *)
Definition send (message : json) (st : State) : State :=
  let pid := length (promises st) in
  let st := new_promise st in
  if negb (isConnected st) then
    let error := MkError (system rt +:+ " WebSocket not connected") in
    reject pid error (triggerEvent EvError (DSendError error message) st)
  else
    match socket st with
    | Some sid =>
        if decide (state_of sid st = Some OPEN) then
          match send_throws rt sid message with
          | Some error =>
              reject pid error (triggerEvent EvError (DSendError error message) st)
          | None => resolve pid None (log [WsSent sid message] st)
          end
        else
          let error := MkError (system rt +:+ " WebSocket not in OPEN state") in
          reject pid error
            (triggerEvent EvError
               (DSendErrorState error message (state_of sid st)) st)
    | None =>
        let error := MkError (system rt +:+ " WebSocket not in OPEN state") in
        reject pid error
          (triggerEvent EvError (DSendErrorState error message None) st)
    end.

(** *** Message router *)

(** What a request resolves with: [data.clients || {}],
    [data.presets || []], or [data]. *)
Definition reply_value (op : ReqOp) (data : json) : json :=
  match op with
  | GetClients => or_default (get_field "clients" data) (JObj [])
  | GetPresets => or_default (get_field "presets" data) (JArr [])
  | _ => data
  end.

(** [handler(data)]: the result is the exception the call raised, if any.
    The one-shot handler of a request removes itself from the array stored
    under its [messageType], clears its timeout and resolves. The handlers
    of [getClients] and [getPresets] read [handlers.indexOf] without testing
    [handlers]. *)
Definition run_handler (handler : Handler) (data : json) (st : State)
    : option Error * State :=
  match handler with
  | HUser _ UReturn => (None, st)
  | HUser _ (UThrow e) => (Some e, st)
  | HUser _ (UOffSelf messageType) => (None, offMessage messageType handler st)
  | HOneShot op pid tid =>
      let messageType := reply_type op in
      match messageHandlers st !! messageType with
      | Some handlers =>
          let st :=
            set_messageHandlers
              (<[messageType := remove_registered handler handlers]>
                 (messageHandlers st)) st in
          (None, resolve pid (Some (reply_value op data)) (clearTimeout tid st))
      | None =>
          match op with
          | GetClients | GetPresets =>
              (Some (MkError "TypeError: handlers is undefined"), st)
          | _ => (None, resolve pid (Some data) (clearTimeout tid st))
          end
      end
  end.

(** [messageHandlers.get(messageType).forEach(handler => { try { .. } catch
    { .. } })].  [Array.prototype.forEach] reads the length once, then
    visits the indices [k = 0 .. length-1] of the array as it is when index
    [k] is reached, skipping the indices that are no longer present.  [n] is
    the number of indices left to visit. *)
Fixpoint forEach_handler (n k : nat) (messageType : string) (data : json)
    (st : State) : State :=
  match n with
  | 0 => st
  | S n' =>
      let st' :=
        match messageHandlers st !! messageType ≫= (fun handlers => handlers !! k) with
        | Some handler =>
            match run_handler handler data (log [HandlerRan handler data] st) with
            | (Some error, st') =>
                triggerEvent EvError (DHandlerError error messageType data) st'
            | (None, st') => st'
            end
        | None => st
        end in
      forEach_handler n' (S k) messageType data st'
  end.

(** [handleMessage(data)]. Reading [data.type] raises a TypeError when
    [data] is [null]; the keys of the table are strings, so a [type] that
    is not a string has no handlers. *)
Definition handleMessage (data : json) (st : State) : option Error * State :=
  match data with
  | JNull => (Some (MkError "TypeError: cannot read properties of null"), st)
  | _ =>
      match get_field "type" data with
      | Some (JStr messageType) =>
          match messageHandlers st !! messageType with
          | Some handlers =>
              (None, forEach_handler (length handlers) 0 messageType data st)
          | None => (None, st)
          end
      | _ => (None, st)
      end
  end.

(** *** Connection lifecycle *)

(** [s.startsWith("ws://") || s.startsWith("wss://")] *)
Definition valid_url (serverUrl : string) : bool :=
  String.prefix "ws://" serverUrl || String.prefix "wss://" serverUrl.

(** [connect(serverUrl, options)]; its promise is the one at
    [length (promises st)].  When [new WebSocket(url)] raises, the [catch]
    block stores the error and then reads [connectionTimeout], a variable
    declared inside the [try] block: the ReferenceError leaves the promise
    executor and rejects the promise. *)
Definition connect (serverUrl : string) (options : ConnectOptions)
    (st : State) : State :=
  let pid := length (promises st) in
  let st := new_promise st in
  let st := match socket st with Some _ => disconnect st | None => st end in
  let st := set_connectionError None st in
  if negb (valid_url serverUrl) then
    let error :=
      MkError ("Invalid WebSocket URL: " +:+ serverUrl
               +:+ ". URL must start with ws:// or wss://") in
    let st := set_connectionError (Some (DError error)) st in
    reject pid error (triggerEvent EvError (DError error) st)
  else
    let st := set_connectionAttempts (S (connectionAttempts st)) (set_url serverUrl st) in
    match ctor_throws rt serverUrl with
    | Some error =>
        let st := set_connectionError (Some (DError error)) st in
        reject pid (MkError "ReferenceError: connectionTimeout is not defined") st
    | None =>
        let sid := length (sockets st) in
        let ws :=
          {| ws_url := serverUrl; readyState := CONNECTING; ws_options := options;
             ws_timer := next_timer st; ws_promise := pid |} in
        let st := log [WsCreated sid serverUrl] (set_sockets (sockets st ++ [ws]) st) in
        let st := set_socket (Some sid) st in
        setTimeout (CbConnectionTimeout pid)
          (inject_Z (timeout_or (co_timeout options) 10000)) st
    end.

(** The callback of the connection timeout of the attempt with promise
    [pid].  An exception raised by [socket.close()] leaves the callback. *)
Definition connectionTimeout_fired (pid : nat) (st : State) : State :=
  if isConnected st then st
  else
    let error := MkError ("Connection timeout for " +:+ url st) in
    let st := set_connectionError (Some (DError error)) st in
    let st := triggerEvent EvError (DError error) st in
    match socket st with
    | Some sid =>
        if decide (state_of sid st = Some CONNECTING) then
          match ws_close sid None st with
          | (Some _, st') => st'
          | (None, st') => reject pid error (set_socket None st')
          end
        else reject pid error st
    | None => reject pid error st
    end.

(** [socket.onopen] of the WebSocket [ws]. *)
Definition onopen (ws : WebSocket) (st : State) : State :=
  let st := set_isConnected true st in
  let st := set_connectionAttempts 0 st in
  let st := set_reconnectDelay 1000 st in
  let st := clearTimeout (ws_timer ws) st in
  let st := triggerEvent EvConnect (DConnect (url st)) st in
  resolve (ws_promise ws) None st.

(** [socket.onmessage] *)
Definition onmessage (rawData : string) (st : State) : State :=
  match JSON_parse rt rawData with
  | Some data =>
      match handleMessage data st with
      | (None, st') => triggerEvent EvMessage (DMessage data) st'
      | (Some error, st') => triggerEvent EvError (DParseError error rawData) st'
      end
  | None =>
      triggerEvent EvError
        (DParseError (MkError "SyntaxError: invalid JSON") rawData) st
  end.

(** [socket.onclose] of the WebSocket [ws]. *)
Definition onclose (ws : WebSocket) (code : Z) (reason : string)
    (wasClean : bool) (st : State) : State :=
  let st := set_isConnected false st in
  let st := clearTimeout (ws_timer ws) st in
  let st := triggerEvent EvDisconnect (DDisconnect code reason wasClean) st in
  if negb (code =? 1000)%Z && negb (noReconnect (ws_options ws)) then
    if (connectionAttempts st <? MAX_RECONNECT_ATTEMPTS)%nat
       || unlimitedReconnect (ws_options ws)
    then scheduleReconnect st
    else
      triggerEvent EvError
        (DMaxReconnect "Max reconnection attempts (5) reached") st
  else st.

(** [socket.onerror] *)
Definition onerror (st : State) : State :=
  let detailedError :=
    DSocketError ("WebSocket connection error to " +:+ url st) (url st)
      (socket st ≫= fun sid => state_of sid st) in
  triggerEvent EvError detailedError (set_connectionError (Some detailedError) st).

(** The callback of [scheduleReconnect]. *)
Definition reconnect_fired (st : State) : State :=
  let st :=
    triggerEvent EvReconnect
      (DReconnect (connectionAttempts st) (reconnectDelay st) (url st)) st in
  let pid := length (promises st) in
  catch_backoff pid (connect (url st) no_options st).

(** *** Request/response correlator *)

(** The callback of the response timeout of request [op] with promise
    [pid]; [tid] is the timer itself. *)
Definition requestTimeout_fired (op : ReqOp) (pid tid : nat) (st : State) : State :=
  let messageType := reply_type op in
  let st :=
    match messageHandlers st !! messageType with
    | Some handlers =>
        set_messageHandlers
          (<[messageType := remove_registered (HOneShot op pid tid) handlers]>
             (messageHandlers st)) st
    | None => st
    end in
  reject pid (MkError ("Timeout waiting for " +:+ messageType +:+ " response")) st.

(** The part the five request operations share, from the creation of the
    one-shot handler to the [.catch] on [send]: register the handler, arm
    the timeout, send. *)
Definition request (op : ReqOp) (message : json) (timeout : option Z)
    (pid : nat) (st : State) : State :=
  let messageType := reply_type op in
  let timeoutId := next_timer st in
  let handler := HOneShot op pid timeoutId in
  let st := onMessage messageType handler st in
  let st :=
    setTimeout (CbRequestTimeout op pid) (inject_Z (timeout_or timeout 5000)) st in
  let sent := length (promises st) in
  let st := send message st in
  match promise_state sent st with
  | Some (Rejected error) => reject pid error (clearTimeout timeoutId st)
  | _ => st
  end.

Definition getClients (timeout : option Z) (st : State) : State :=
  let pid := length (promises st) in
  let st := new_promise st in
  if negb (isConnected st) then
    reject pid (MkError (system rt +:+ " WebSocket not connected")) st
  else request GetClients (JObj [("type", JStr "get_clients")]) timeout pid st.

Definition getPresets (timeout : option Z) (st : State) : State :=
  let pid := length (promises st) in
  let st := new_promise st in
  if negb (isConnected st) then
    reject pid (MkError (system rt +:+ " WebSocket not connected")) st
  else request GetPresets (JObj [("type", JStr "get_presets")]) timeout pid st.

(** [Promise.reject(new Error(message))] *)
Definition Promise_reject (message : string) (st : State) : State :=
  reject (length (promises st)) (MkError message) (new_promise st).

(** [Array.isArray(v) && v.length !== 0] *)
Definition nonempty_array (v : json) : bool :=
  match v with
  | JArr (_ :: _) => true
  | _ => false
  end.

(** [v && typeof v === "object"] *)
Definition is_object (v : json) : bool :=
  match v with
  | JArr _ | JObj _ => true
  | _ => false
  end.

(** [v && typeof v === "string"] *)
Definition nonempty_string (v : json) : bool :=
  match v with
  | JStr s => negb (String.eqb s "")
  | _ => false
  end.

Definition updateDisplay (clientIds displayData : json) (timeout : option Z)
    (st : State) : State :=
  if negb (nonempty_array clientIds) then
    Promise_reject "Client IDs must be a non-empty array" st
  else if negb (is_object displayData) then
    Promise_reject "Display data must be an object" st
  else
    let pid := length (promises st) in
    request UpdateDisplay
      (JObj [("type", JStr "update_display"); ("clients", clientIds);
             ("display", displayData)])
      timeout pid (new_promise st).

Definition savePreset (name : json) (timeout : option Z) (st : State) : State :=
  if negb (nonempty_string name) then
    Promise_reject "Preset name must be a non-empty string" st
  else
    let pid := length (promises st) in
    request SavePreset (JObj [("type", JStr "save_preset"); ("name", name)])
      timeout pid (new_promise st).

Definition loadPreset (name : json) (timeout : option Z) (st : State) : State :=
  if negb (nonempty_string name) then
    Promise_reject "Preset name must be a non-empty string" st
  else
    let pid := length (promises st) in
    request LoadPreset (JObj [("type", JStr "load_preset"); ("name", name)])
      timeout pid (new_promise st).

(** ** The event loop *)

(** One task: a call of the public API, an event of a WebSocket, or a timer
    that fires. *)
Inductive Event : Type :=
  | CallConnect (serverUrl : string) (options : ConnectOptions)
  | CallDisconnect
  | CallSend (message : json)
  | CallOnMessage (messageType : string) (fid : nat) (b : UserBehaviour)
  | CallOffMessage (messageType : string) (fid : nat) (b : UserBehaviour)
  | CallAddEventListener (event : EventName) (callback : Listener)
  | CallRemoveEventListener (event : EventName) (callback : Listener)
  | CallGetClients (timeout : option Z)
  | CallGetPresets (timeout : option Z)
  | CallUpdateDisplay (clientIds displayData : json) (timeout : option Z)
  | CallSavePreset (name : json) (timeout : option Z)
  | CallLoadPreset (name : json) (timeout : option Z)
  | WsOpen (sid : nat)
  | WsMessage (sid : nat) (rawData : string)
  | WsError (sid : nat)
  | WsClose (sid : nat) (code : Z) (reason : string) (wasClean : bool)
  | TimerFires (tid : nat).

(** The transport fires [open] only on a connecting socket, [message] only
    on an open one and [close] once; a timer fires only while pending, and
    is no longer pending when its callback runs. *)
Definition ws_open (sid : nat) (st : State) : State :=
  match sockets st !! sid with
  | Some ws =>
      if decide (readyState ws = CONNECTING)
      then onopen ws (set_sockets (<[sid := set_readyState OPEN ws]> (sockets st)) st)
      else st
  | None => st
  end.

Definition ws_message (sid : nat) (rawData : string) (st : State) : State :=
  if decide (state_of sid st = Some OPEN) then onmessage rawData st else st.

Definition ws_error (sid : nat) (st : State) : State :=
  match sockets st !! sid with
  | Some ws => if decide (readyState ws = CLOSED) then st else onerror st
  | None => st
  end.

Definition ws_closed (sid : nat) (code : Z) (reason : string) (wasClean : bool)
    (st : State) : State :=
  match sockets st !! sid with
  | Some ws =>
      if decide (readyState ws = CLOSED) then st
      else
        onclose ws code reason wasClean
          (set_sockets (<[sid := set_readyState CLOSED ws]> (sockets st)) st)
  | None => st
  end.

Definition timer_fires (tid : nat) (st : State) : State :=
  match timers st !! tid with
  | Some t =>
      let st := clearTimeout tid st in
      match t_callback t with
      | CbConnectionTimeout pid => connectionTimeout_fired pid st
      | CbReconnect => reconnect_fired st
      | CbRequestTimeout op pid => requestTimeout_fired op pid tid st
      end
  | None => st
  end.

Definition step (ev : Event) (st : State) : State :=
  match ev with
  | CallConnect serverUrl options => connect serverUrl options st
  | CallDisconnect => disconnect st
  | CallSend message => send message st
  | CallOnMessage messageType fid b => onMessage messageType (HUser fid b) st
  | CallOffMessage messageType fid b => offMessage messageType (HUser fid b) st
  | CallAddEventListener event callback => addEventListener event callback st
  | CallRemoveEventListener event callback => removeEventListener event callback st
  | CallGetClients timeout => getClients timeout st
  | CallGetPresets timeout => getPresets timeout st
  | CallUpdateDisplay clientIds displayData timeout =>
      updateDisplay clientIds displayData timeout st
  | CallSavePreset name timeout => savePreset name timeout st
  | CallLoadPreset name timeout => loadPreset name timeout st
  | WsOpen sid => ws_open sid st
  | WsMessage sid rawData => ws_message sid rawData st
  | WsError sid => ws_error sid st
  | WsClose sid code reason wasClean => ws_closed sid code reason wasClean st
  | TimerFires tid => timer_fires tid st
  end.

(** The state after the tasks [evs], in order. *)
Definition run (evs : list Event) (st : State) : State :=
  foldl (fun s ev => step ev s) st evs.

End Service.

(** * Vocabulary of the specification *)

Global Instance TimerCallback_eq_dec : EqDecision TimerCallback.
Proof. solve_decision. Defined.

(** A handler that leaves the handler table alone when it runs: a caller's
    handler that returns or throws. *)
Definition stable (handler : Handler) : Prop :=
  match handler with
  | HUser _ UReturn | HUser _ (UThrow _) => True
  | _ => False
  end.

(** The handlers invoked, in the order of their invocation. *)
Fixpoint handlers_run (es : list Effect) : list Handler :=
  match es with
  | [] => []
  | HandlerRan handler _ :: rest => handler :: handlers_run rest
  | _ :: rest => handlers_run rest
  end.

(** The pending timers whose callback starts a reconnection. *)
Definition reconnections (pending : gmap nat Timer) : gmap nat Timer :=
  filter (fun kv => t_callback kv.2 = CbReconnect) pending.

Definition scheduled_reconnections (st : State) : gmap nat Timer :=
  reconnections (timers st).

(** The firings of the max-attempts [error] event. *)
Definition is_max_error (e : Effect) : bool :=
  match e with
  | Emitted EvError (DMaxReconnect _) => true
  | _ => false
  end.

Definition count_max_errors (st : State) : nat :=
  length (List.filter is_max_error (effects st)).

(** How a connection attempt fails: the transport reports the close, either
    before the connection timeout or after it has fired. *)
Record Failure : Type := {
  timed_out : bool;
  close_code : Z;
  close_reason : string;
  close_wasClean : bool;
}.


(** An attempt is in flight on WebSocket [sid]: it is connecting, its
    timeout is armed, its promise is pending, and no reconnection is
    scheduled. [b] tells whether the promise carries the reaction of
    [scheduleReconnect]. *)
Definition in_flight (sid : nat) (ws : WebSocket) (b : bool) (st : State) : Prop :=
  socket st = Some sid /\
  sockets st !! sid = Some ws /\
  readyState ws = CONNECTING /\
  t_callback <$> timers st !! ws_timer ws
    = Some (CbConnectionTimeout (ws_promise ws)) /\
  promises st !! ws_promise ws = Some {| p_state := Pending; p_backoff := b |} /\
  scheduled_reconnections st = ∅.

(** One reconnection is scheduled, as timer [t], after [reconnectDelay]. *)
Definition scheduled (t : nat) (st : State) : Prop :=
  reconnectTimeout st = Some t /\
  isConnected st = false /\
  scheduled_reconnections st =
    {[ t := {| t_delay := reconnectDelay st; t_callback := CbReconnect |} ]}.

(** Every promise that is settled in [st] is settled the same way in [st']. *)
Definition settled_preserved (st st' : State) : Prop :=
  forall p s, promises st !! p = Some s -> p_state s <> Pending ->
              promises st' !! p = Some s.

(** *** One connection attempt among the others

    A [connect] call that creates WebSocket [sid] owns the promise [pid] and
    the connection timeout [tid].  The following predicates say that nothing
    else in the state refers to them. *)
Section Attempt.

Variables pid tid sid : nat.

Definition good_handler (handler : Handler) : Prop :=
  match handler with
  | HOneShot _ p t => p <> pid /\ t <> tid
  | HUser _ _ => True
  end.

Definition good_callback (cb : TimerCallback) : Prop :=
  match cb with
  | CbConnectionTimeout p | CbRequestTimeout _ p => p <> pid
  | CbReconnect => True
  end.

Definition good_timer (t : nat) (T : Timer) : Prop :=
  if decide (t = tid) then t_callback T = CbConnectionTimeout pid
  else good_callback (t_callback T).

Definition good_socket (sid' : nat) (ws : WebSocket) : Prop :=
  if decide (sid' = sid) then ws_promise ws = pid /\ ws_timer ws = tid
  else ws_promise ws <> pid /\ ws_timer ws <> tid.

(** The identifiers of the attempt are allocated, and only the attempt
    itself refers to them. *)
Definition refs_inv (st : State) : Prop :=
  (pid < length (promises st) /\ tid < next_timer st /\ sid < length (sockets st)) /\
  (forall messageType handlers handler,
     messageHandlers st !! messageType = Some handlers ->
     handler ∈ handlers -> good_handler handler) /\
  (forall t T, timers st !! t = Some T -> good_timer t T) /\
  (forall sid' ws, sockets st !! sid' = Some ws -> good_socket sid' ws) /\
  reconnectTimeout st <> Some tid.

(** The identifiers [pid] and [tid], the next to be allocated, are not in
    use. *)
Definition unused (st : State) : Prop :=
  (forall messageType handlers handler,
     messageHandlers st !! messageType = Some handlers ->
     handler ∈ handlers -> good_handler handler) /\
  (forall t T, timers st !! t = Some T -> t <> tid /\ good_callback (t_callback T)) /\
  (forall sid' ws, sockets st !! sid' = Some ws ->
     ws_promise ws <> pid /\ ws_timer ws <> tid) /\
  reconnectTimeout st <> Some tid.

(** While WebSocket [sid] is connecting, the timeout of the attempt is
    pending and so is its promise. *)
Definition phase_inv (st : State) : Prop :=
  state_of sid st = Some CONNECTING ->
  is_Some (timers st !! tid) /\
  exists b, promises st !! pid = Some {| p_state := Pending; p_backoff := b |}.

(** The promise of the attempt is not fulfilled. *)
Definition unfulfilled (st : State) : Prop :=
  refs_inv st /\
  forall s v, promises st !! pid = Some s -> p_state s <> Fulfilled v.

(** The attempt is undecided: its timeout and its promise are pending. *)
Definition alive (st : State) : Prop :=
  refs_inv st /\
  is_Some (timers st !! tid) /\
  exists b, promises st !! pid = Some {| p_state := Pending; p_backoff := b |}.

End Attempt.

(** The WebSockets, the socket handle and [isConnected] are those of [st]. *)
Definition same_conn (st st' : State) : Prop :=
  socket st' = socket st /\ isConnected st' = isConnected st /\
  sockets st' = sockets st.

(** No WebSocket is connecting. *)
Definition none_connecting (st : State) : Prop :=
  forall i ws, sockets st !! i = Some ws -> readyState ws <> CONNECTING.

(** No WebSocket goes back to connecting: the WebSockets of [st] are still
    there in [st'], and those that are connecting in [st'] were connecting
    in [st]. *)
Definition progressed (st st' : State) : Prop :=
  length (sockets st) <= length (sockets st') /\
  forall i, i < length (sockets st) ->
            state_of i st' = Some CONNECTING -> state_of i st = Some CONNECTING.

(** The service is connected only while it holds a socket handle, and a
    WebSocket that is connecting is the one the service holds, the service
    being not connected. *)
Definition conn_inv (st : State) : Prop :=
  (isConnected st = true -> socket st <> None) /\
  (forall sid ws, sockets st !! sid = Some ws -> readyState ws = CONNECTING ->
     socket st = Some sid /\ isConnected st = false).

(** What holds of the attempt of promise [pid], connection timeout [tid] and
    WebSocket [sid] from the [connect] call on. *)
Definition attempt_inv (pid tid sid : nat) (st : State) : Prop :=
  refs_inv pid tid sid st /\ conn_inv st /\ phase_inv pid tid sid st.

(** The events of the attempt with connection timeout [tid] on WebSocket
    [sid]. *)
Definition own_event (tid sid : nat) (ev : Event) : Prop :=
  match ev with
  | WsOpen i | WsClose i _ _ _ => i = sid
  | TimerFires t => t = tid
  | _ => False
  end.

(** The delay of the reconnection that is scheduled, if one is. *)
Definition scheduled_delay (st : State) : option Q :=
  t_delay <$> (reconnectTimeout st ≫= fun t => scheduled_reconnections st !! t).

Section Vocabulary.

Variable rt : Runtime.

(** [handler] is in the array stored under [messageType]. *)
Definition registered (handler : Handler) (messageType : string) (st : State) : Prop :=
  handler ∈ default [] (messageHandlers st !! messageType).

(** [e] is the firing of event [ev], or the call of one of its listeners. *)
Definition is_event (ev : EventName) (e : Effect) : bool :=
  match e with
  | Emitted ev' _ | Notified _ ev' _ => bool_decide (ev' = ev)
  | _ => false
  end.

(** [e] opens a transport. *)
Definition is_open_transport (e : Effect) : bool :=
  match e with
  | WsCreated _ _ => true
  | _ => false
  end.

(** The error [send(message)] rejects with in state [st], if it rejects. *)
Definition send_error (message : json) (st : State) : option Error :=
  if negb (isConnected st) then
    Some (MkError (system rt +:+ " WebSocket not connected"))
  else
    match socket st with
    | Some sid =>
        if decide (state_of sid st = Some OPEN) then send_throws rt sid message
        else Some (MkError (system rt +:+ " WebSocket not in OPEN state"))
    | None => Some (MkError (system rt +:+ " WebSocket not in OPEN state"))
    end.

(** The payload of the [error] event of a [send] that rejects with [e]. *)
Definition send_error_event (message : json) (e : Error) (st : State) : EventData :=
  if negb (isConnected st) then DSendError e message
  else
    match socket st with
    | Some sid =>
        if decide (state_of sid st = Some OPEN) then DSendError e message
        else DSendErrorState e message (state_of sid st)
    | None => DSendErrorState e message None
    end.

(** A call of one of the five request operations, with its arguments. *)
Inductive Request : Type :=
  | ReqGetClients
  | ReqGetPresets
  | ReqUpdateDisplay (clientIds displayData : json)
  | ReqSavePreset (name : json)
  | ReqLoadPreset (name : json).

Definition perform (r : Request) (timeout : option Z) (st : State) : State :=
  match r with
  | ReqGetClients => getClients rt timeout st
  | ReqGetPresets => getPresets rt timeout st
  | ReqUpdateDisplay clientIds displayData =>
      updateDisplay rt clientIds displayData timeout st
  | ReqSavePreset name => savePreset rt name timeout st
  | ReqLoadPreset name => loadPreset rt name timeout st
  end.

Definition op_of (r : Request) : ReqOp :=
  match r with
  | ReqGetClients => GetClients
  | ReqGetPresets => GetPresets
  | ReqUpdateDisplay _ _ => UpdateDisplay
  | ReqSavePreset _ => SavePreset
  | ReqLoadPreset _ => LoadPreset
  end.

(** The command frame of the call. *)
Definition message_of (r : Request) : json :=
  match r with
  | ReqGetClients => JObj [("type", JStr "get_clients")]
  | ReqGetPresets => JObj [("type", JStr "get_presets")]
  | ReqUpdateDisplay clientIds displayData =>
      JObj [("type", JStr "update_display"); ("clients", clientIds);
            ("display", displayData)]
  | ReqSavePreset name => JObj [("type", JStr "save_preset"); ("name", name)]
  | ReqLoadPreset name => JObj [("type", JStr "load_preset"); ("name", name)]
  end.

(** The arguments pass the synchronous validation of the operation. *)
Definition valid_args (r : Request) : bool :=
  match r with
  | ReqGetClients | ReqGetPresets => true
  | ReqUpdateDisplay clientIds displayData =>
      nonempty_array clientIds && is_object displayData
  | ReqSavePreset name | ReqLoadPreset name => nonempty_string name
  end.

(** The operations that test [isConnected] before anything else. *)
Definition has_precheck (r : Request) : bool :=
  match r with
  | ReqGetClients | ReqGetPresets => true
  | _ => false
  end.

(** The teardown [connect] starts with: [if (socket) disconnect()]. *)
Definition torn_down (st : State) : State :=
  match socket st with
  | Some _ => disconnect rt st
  | None => st
  end.

(** The state [onclose] reaches before it looks at the close code: the
    WebSocket [sid] is closed, the service is not connected, the connection
    timeout of the attempt is cleared and [disconnect] has been fired. *)
Definition closed (sid : nat) (ws : WebSocket) (code : Z) (reason : string)
    (wasClean : bool) (st : State) : State :=
  triggerEvent EvDisconnect (DDisconnect code reason wasClean)
    (clearTimeout (ws_timer ws)
       (set_isConnected false
          (set_sockets (<[sid := set_readyState CLOSED ws]> (sockets st)) st))).

(** The attempt on the current WebSocket fails in the way [f]. *)
Definition attempt_fails (f : Failure) (st : State) : State :=
  match socket st with
  | Some sid =>
      match sockets st !! sid with
      | Some ws =>
          let st := if timed_out f then timer_fires rt (ws_timer ws) st else st in
          ws_closed sid (close_code f) (close_reason f) (close_wasClean f) st
      | None => st
      end
  | None => st
  end.

(** The scheduled reconnection fires. *)
Definition reconnection_fires (st : State) : State :=
  match reconnectTimeout st with
  | Some t => timer_fires rt t st
  | None => st
  end.

(** Each failure of [fs] in turn: the scheduled reconnection fires and the
    attempt it starts fails. *)
Definition retries (fs : list Failure) (st : State) : State :=
  foldl (fun s f => attempt_fails f (reconnection_fires s)) st fs.

(** The [error] event of the ceiling. *)
Definition max_reconnect_attempts : EventData :=
  DMaxReconnect "Max reconnection attempts (5) reached".

(** The tasks [evs] after the [connect] call open WebSocket [sid] before the
    connection timeout [tid] fires: the open event finds the WebSocket
    connecting, and the timeout has not fired by then. *)
Definition opens_in_time (sid tid : nat) (evs : list Event) (st : State) : Prop :=
  exists evs1 evs2,
    evs = evs1 ++ WsOpen sid :: evs2 /\
    (TimerFires tid ∉ evs1) /\
    state_of sid (run rt evs1 st) = Some CONNECTING.

End Vocabulary.

(** A [client_list] frame with a map of clients. *)
Definition client_list_frame (clients : json) : json :=
  JObj [("type", JStr "client_list"); ("clients", clients)].

(** ** Concrete run times and states *)

(** A run time in which nothing raises; every inbound frame decodes to
    [decoded]. *)
Definition browser (decoded : option json) : Runtime :=
  {| system := "kandidaten";
     JSON_parse := fun _ => decoded;
     ctor_throws := fun _ => None;
     close_throws := fun _ => None;
     send_throws := fun _ _ => None |}.


(** A service connected to ["ws://host"]: WebSocket 0 is open. *)
Definition connected_service (rt : Runtime) : State :=
  run rt [CallConnect "ws://host" no_options; WsOpen 0] createWebSocketService.

(** Failures used in the examples. *)
Definition times_out : Failure :=
  {| timed_out := true; close_code := 1006; close_reason := ""; close_wasClean := false |}.

Definition closes_early : Failure :=
  {| timed_out := false; close_code := 1006; close_reason := ""; close_wasClean := false |}.

(** * Further vocabulary *)

Section AttemptRejection.

Variables pid tid sid : nat.

(** The connection timeout of the attempt is not pending and its promise is
    not rejected. *)
Definition unrejected (st : State) : Prop :=
  refs_inv pid tid sid st /\
  timers st !! tid = None /\
  forall s e, promises st !! pid = Some s -> p_state s <> Rejected e.

End AttemptRejection.

(** ** Connection status *)

(** The object [getConnectionStatus()] returns. *)
Record ConnectionStatus : Type := {
  connected : bool;
  status_url : string;
  status_error : option EventData;
  socketState : option ReadyState;
  reconnectAttempts : nat;
  status_system : string;
}.

Definition getConnectionStatus (rt : Runtime) (st : State) : ConnectionStatus :=
  {| connected := isConnected st;
     status_url := url st;
     status_error := connectionError st;
     socketState := socket st ≫= fun sid => state_of sid st;
     reconnectAttempts := connectionAttempts st;
     status_system := system rt |}.

(** The socket handle, when there is one, is a WebSocket the service
    created. *)
Definition handle_ok (st : State) : Prop :=
  forall sid, socket st = Some sid -> sid < length (sockets st).

(** ** Reconnection timers *)

(** The only timer that may be pending to start a reconnection is the one
    recorded in [reconnectTimeout]. *)
Definition one_reconnection (st : State) : Prop :=
  forall t T, timers st !! t = Some T -> t_callback T = CbReconnect ->
              reconnectTimeout st = Some t.

(** ** More run times *)

(** A run time whose [new WebSocket] raises. *)
Definition refusing : Runtime :=
  {| system := "kandidaten";
     JSON_parse := fun _ => None;
     ctor_throws := fun _ => Some (MkError "SecurityError: insecure connection");
     close_throws := fun _ => None;
     send_throws := fun _ _ => None |}.

(** ** Requests and frames *)

(** The message of the error that the synchronous validation of a request
    rejects with. *)
Definition validation_error (r : Request) : string :=
  match r with
  | ReqUpdateDisplay clientIds _ =>
      if nonempty_array clientIds then "Display data must be an object"
      else "Client IDs must be a non-empty array"
  | _ => "Preset name must be a non-empty string"
  end.

(** The exceptions the handlers [hs] raise when they are invoked, in
    order. *)
Fixpoint thrown (hs : list Handler) : list Error :=
  match hs with
  | [] => []
  | HUser _ (UThrow e) :: rest => e :: thrown rest
  | _ :: rest => thrown rest
  end.

(** The payloads of the [error] events fired, in order. *)
Fixpoint reported (es : list Effect) : list EventData :=
  match es with
  | [] => []
  | Emitted EvError d :: rest => d :: reported rest
  | _ :: rest => reported rest
  end.

(** The frames handed to the transport, in order. *)
Fixpoint transmitted (es : list Effect) : list (nat * json) :=
  match es with
  | [] => []
  | WsSent sid message :: rest => (sid, message) :: transmitted rest
  | _ :: rest => transmitted rest
  end.

(** The firing of [event] with payload [data]: the event, then the call of
    each listener in registration order. *)
Definition fired (event : EventName) (data : EventData) (st : State) : list Effect :=
  Emitted event data
    :: map (fun callback => Notified callback event data) (eventListeners st event).

(** ** Options and scenarios *)

(** [{ unlimitedReconnect: true }] *)
Definition unlimited : ConnectOptions :=
  {| co_timeout := None; noReconnect := false; unlimitedReconnect := true |}.

(** A service that was connected to ["ws://a"] and then to ["ws://b"]: the
    second [connect] has closed WebSocket 0, whose close event has not yet
    come, and WebSocket 1 is open. *)
Definition reconnected_service (rt : Runtime) : State :=
  run rt [CallConnect "ws://a" no_options; WsOpen 0;
          CallConnect "ws://b" no_options; WsOpen 1] createWebSocketService.

(** ** The backoff delay *)

(** The backoff delay, and the delay of every reconnection that is pending,
    are between 1 s and 30 s. *)
Definition delay_ok (st : State) : Prop :=
  (1000 <= reconnectDelay st <= 30000)%Q /\
  forall t T, timers st !! t = Some T -> t_callback T = CbReconnect ->
              (1000 <= t_delay T <= 30000)%Q.

(** * The dashboard *)

(** ** Selection of clients

    [handleClientSelect(clientId, isSelected)] of the [Dashboard] component
    updates the array [selectedClients], which starts empty:
    [[
    setSelectedClients((prev) => {
      if (isSelected && !prev.includes(clientId)) return [...prev, clientId]
      else if (!isSelected && prev.includes(clientId))
        return prev.filter((id) => id !== clientId)
      return prev
    })
    ]] *)
Definition handleClientSelect (clientId : string) (isSelected : bool)
    (prev : list string) : list string :=
  if isSelected && negb (bool_decide (clientId ∈ prev)) then prev ++ [clientId]
  else if negb isSelected && bool_decide (clientId ∈ prev)
  then filter (fun id => id <> clientId) prev
  else prev.

(** [selectedClients] after the calls [calls], in order. *)
Definition selectedClients (calls : list (string * bool)) : list string :=
  foldl (fun prev call => handleClientSelect call.1 call.2 prev) [] calls.

(** Whether the last call for [clientId] selected it. *)
Definition last_choice (clientId : string) (calls : list (string * bool)) : bool :=
  foldl (fun choice call => if decide (call.1 = clientId) then call.2 else choice)
    false calls.

(** ** Probe of a server

    [isValidWebSocketUrl(url)]:
    [url && (url.startsWith("ws://") || url.startsWith("wss://"))], on a
    string. *)
Definition isValidWebSocketUrl (url : string) : json :=
  if String.eqb url "" then JStr url
  else JBool (String.prefix "ws://" url || String.prefix "wss://" url).

(** How the promise of the probe is settled. *)
Inductive ProbeResult : Type :=
  | ProbePending
  | ProbeResolved (reachable : bool)
  | ProbeRejected (e : Error).

(** The state of one [checkWebSocketServer] call: its promise, the
    WebSocket it created, if any, and the delay of its timeout while it is
    pending. *)
Record Probe : Type := {
  probe_result : ProbeResult;
  probe_ws : option ReadyState;
  probe_timer : option Z;
}.

(** [resolve(b)] of the probe. *)
Definition probe_resolve (b : bool) (p : Probe) : Probe :=
  match probe_result p with
  | ProbePending =>
      {| probe_result := ProbeResolved b; probe_ws := probe_ws p;
         probe_timer := probe_timer p |}
  | _ => p
  end.

(** [clearTimeout(timeoutId)] *)
Definition probe_clearTimeout (p : Probe) : Probe :=
  {| probe_result := probe_result p; probe_ws := probe_ws p; probe_timer := None |}.

(** [ws.close()] *)
Definition probe_close (p : Probe) : Probe :=
  {| probe_result := probe_result p;
     probe_ws :=
       match probe_ws p with
       | Some CONNECTING | Some OPEN => Some CLOSING
       | s => s
       end;
     probe_timer := probe_timer p |}.

(** [checkWebSocketServer(url, timeout = 3000)]: the default applies when
    the argument is absent.  An exception of [new WebSocket(url)] leaves the
    executor and rejects the promise. *)
Definition checkWebSocketServer (rt : Runtime) (url : string) (timeout : option Z)
    : Probe :=
  if negb (truthy (Some (isValidWebSocketUrl url))) then
    {| probe_result := ProbeResolved false; probe_ws := None; probe_timer := None |}
  else
    match ctor_throws rt url with
    | Some e => {| probe_result := ProbeRejected e; probe_ws := None; probe_timer := None |}
    | None =>
        {| probe_result := ProbePending; probe_ws := Some CONNECTING;
           probe_timer := Some (default 3000%Z timeout) |}
    end.

(** The events of a probe: the open and error events of its WebSocket and
    its timeout. *)
Inductive ProbeEvent : Type := ProbeOpen | ProbeError | ProbeTimeout.

(** [ws.onopen], [ws.onerror] and the callback of the timeout.  The
    transport fires [open] only on a connecting socket and [error] only on a
    socket that is not closed; the timeout fires only while pending. *)
Definition probe_step (ev : ProbeEvent) (p : Probe) : Probe :=
  match ev with
  | ProbeOpen =>
      match probe_ws p with
      | Some CONNECTING =>
          let p :=
            {| probe_result := probe_result p; probe_ws := Some OPEN;
               probe_timer := probe_timer p |} in
          probe_resolve true (probe_close (probe_clearTimeout p))
      | _ => p
      end
  | ProbeError =>
      match probe_ws p with
      | Some CONNECTING | Some OPEN | Some CLOSING =>
          probe_resolve false (probe_clearTimeout p)
      | _ => p
      end
  | ProbeTimeout =>
      match probe_timer p with
      | Some _ => probe_resolve false (probe_close (probe_clearTimeout p))
      | None => p
      end
  end.

Definition probe_run (evs : list ProbeEvent) (p : Probe) : Probe :=
  foldl (fun p ev => probe_step ev p) p evs.

(** * Promises and the send path of a request *)

(** Projections of the variables out of assignments. *)
Ltac state_simpl :=
  cbn [socket isConnected messageHandlers reconnectTimeout reconnectDelay url
       connectionError connectionAttempts eventListeners sockets timers
       next_timer promises effects
       set_socket set_isConnected set_messageHandlers set_reconnectTimeout
       set_reconnectDelay set_url set_connectionError set_connectionAttempts
       set_eventListeners set_sockets set_timers set_next_timer set_promises
       set_effects log new_promise setTimeout clearTimeout triggerEvent backoff].

Tactic Notation "state_simpl" "in" hyp(H) :=
  cbn [socket isConnected messageHandlers reconnectTimeout reconnectDelay url
       connectionError connectionAttempts eventListeners sockets timers
       next_timer promises effects
       set_socket set_isConnected set_messageHandlers set_reconnectTimeout
       set_reconnectDelay set_url set_connectionError set_connectionAttempts
       set_eventListeners set_sockets set_timers set_next_timer set_promises
       set_effects log new_promise setTimeout clearTimeout triggerEvent backoff] in H.

Section Requests.

Variable rt : Runtime.

Lemma lookup_snoc {A} (l : list A) (x : A) : (l ++ [x]) !! length l = Some x.
Proof. by rewrite list_lookup_middle. Qed.

Lemma insert_snoc {A} (l : list A) (x y : A) :
  <[length l := y]> (l ++ [x]) = l ++ [y].
Proof. rewrite insert_app_r_alt by lia. by rewrite Nat.sub_diag. Qed.

Lemma reject_pending pid e b st :
  promises st !! pid = Some {| p_state := Pending; p_backoff := b |} ->
  reject pid e st =
    (if b then backoff else id)
      (set_promises
         (<[pid := {| p_state := Rejected e; p_backoff := b |}]> (promises st)) st).
Proof. intros H. unfold reject. rewrite H. by destruct b. Qed.

Lemma reject_new_promise e st :
  reject (length (promises st)) e (new_promise st) =
  set_promises (promises st ++ [{| p_state := Rejected e; p_backoff := false |}]) st.
Proof.
  unfold reject, new_promise. cbn. rewrite lookup_snoc, insert_snoc. reflexivity.
Qed.

Lemma send_rejected message e st :
  send_error rt message st = Some e ->
  send rt message st =
  set_promises (promises st ++ [{| p_state := Rejected e; p_backoff := false |}])
    (triggerEvent EvError (send_error_event message e st) st).
Proof.
  unfold send_error, send_error_event, send. cbn.
  destruct (isConnected st); cbn.
  - destruct (socket st) as [sid|]; [destruct (decide _) | ].
    + intros ->. unfold reject. cbn. rewrite lookup_snoc, insert_snoc. reflexivity.
    + intros [= <-]. unfold reject. cbn. rewrite lookup_snoc, insert_snoc. reflexivity.
    + intros [= <-]. unfold reject. cbn. rewrite lookup_snoc, insert_snoc. reflexivity.
  - intros [= <-]. unfold reject. cbn. rewrite lookup_snoc, insert_snoc. reflexivity.
Qed.

Lemma onMessage_registered messageType handler st :
  registered handler messageType (onMessage messageType handler st).
Proof.
  unfold registered, onMessage. cbn. rewrite lookup_insert_eq. cbn.
  apply elem_of_app. right. by apply list_elem_of_singleton.
Qed.

(** A request whose [send] rejects: the [.catch] clears the timeout and
    rejects; the array of handlers is the one [onMessage] left. *)
Lemma request_send_rejected op message timeout pid b e st :
  promises st !! pid = Some {| p_state := Pending; p_backoff := b |} ->
  send_error rt message st = Some e ->
  let st' := request rt op message timeout pid st in
  timers st' = delete (next_timer st) (timers st) /\
  messageHandlers st' =
    messageHandlers (onMessage (reply_type op) (HOneShot op pid (next_timer st)) st) /\
  effects st' = effects (triggerEvent EvError (send_error_event message e st) st) /\
  promise_state pid st' = Some (Rejected e).
Proof.
  intros Hp He. unfold request.
  set (st1 := setTimeout _ _ (onMessage _ _ st)).
  assert (He1 : send_error rt message st1 = Some e) by exact He.
  rewrite (send_rejected _ _ _ He1).
  unfold promise_state. cbn [promises set_promises].
  change (promises (triggerEvent EvError _ st1)) with (promises st).
  rewrite lookup_snoc. cbn.
  assert (Hp' : (promises st ++ [{| p_state := Rejected e; p_backoff := false |}]) !! pid
                = Some {| p_state := Pending; p_backoff := b |}).
  { rewrite lookup_app_l; [done | by eapply lookup_lt_Some]. }
  erewrite reject_pending by (cbn; exact Hp').
  destruct b; cbn;
    (split; [by rewrite delete_insert_eq | split; [done | split; [done |]]]);
    rewrite list_lookup_insert_eq; cbn; try done;
    rewrite length_app; apply lookup_lt_Some in Hp; lia.
Qed.

Lemma perform_request r timeout st :
  valid_args r = true ->
  (has_precheck r = true -> isConnected st = true) ->
  perform rt r timeout st =
  request rt (op_of r) (message_of r) timeout (length (promises st)) (new_promise st).
Proof.
  intros Hv Hc. destruct r; cbn in *.
  - unfold getClients. cbn. by rewrite Hc.
  - unfold getPresets. cbn. by rewrite Hc.
  - unfold updateDisplay. apply andb_prop in Hv as [-> ->]. done.
  - unfold savePreset. by rewrite Hv.
  - unfold loadPreset. by rewrite Hv.
Qed.

(** C1. When the [send] of a request operation rejects, the response timeout
    is cancelled and the promise of the operation rejects with the error of
    [send], but the one-shot handler the call pushed under its reply type is
    still in the table: the [.catch] never calls [splice]. *)
Theorem send_failure_leaves_handler (r : Request) (timeout : option Z) (e : Error)
    (st : State) :
  valid_args r = true ->
  (has_precheck r = true -> isConnected st = true) ->
  send_error rt (message_of r) st = Some e ->
  let pid := length (promises st) in
  let timeoutId := next_timer st in
  let st' := perform rt r timeout st in
  timers st' !! timeoutId = None /\
  promise_state pid st' = Some (Rejected e) /\
  registered (HOneShot (op_of r) pid timeoutId) (reply_type (op_of r)) st'.
Proof.
  intros Hv Hc He pid timeoutId st'. subst pid timeoutId st'.
  rewrite perform_request by done.
  destruct (request_send_rejected (op_of r) (message_of r) timeout
              (length (promises st)) false e (new_promise st)) as (Ht & Hm & _ & Hp).
  - cbn. apply lookup_snoc.
  - exact He.
  - split; [| split].
    + rewrite Ht. apply lookup_delete_eq.
    + exact Hp.
    + unfold registered. rewrite Hm. apply onMessage_registered.
Qed.

(** C10. Not connected: [getClients] and [getPresets] only return a promise
    rejected with the not-connected error, every variable, timer and effect
    being as before; the three other operations have no such test: their
    handler is registered, [send] is called and fires its [error] event, and
    the promise rejects with the error of [send]. *)
Theorem precheck_only_for_lists (timeout : option Z) (st : State) :
  isConnected st = false ->
  let pid := length (promises st) in
  let not_connected := MkError (system rt +:+ " WebSocket not connected") in
  let rejected :=
    set_promises
      (promises st ++ [{| p_state := Rejected not_connected; p_backoff := false |}]) st in
  getClients rt timeout st = rejected /\
  getPresets rt timeout st = rejected /\
  forall r : Request,
    has_precheck r = false -> valid_args r = true ->
    let st' := perform rt r timeout st in
    registered (HOneShot (op_of r) pid (next_timer st)) (reply_type (op_of r)) st' /\
    effects st' =
      effects (triggerEvent EvError (DSendError not_connected (message_of r)) st) /\
    promise_state pid st' = Some (Rejected not_connected).
Proof.
  intros Hc pid not_connected rejected. split; [| split].
  - unfold getClients. cbn. rewrite Hc. cbn. apply reject_new_promise.
  - unfold getPresets. cbn. rewrite Hc. cbn. apply reject_new_promise.
  - intros r Hpre Hv st'. subst st' pid.
    assert (He : send_error rt (message_of r) st = Some not_connected).
    { unfold send_error. by rewrite Hc. }
    rewrite perform_request by (done || by rewrite Hpre).
    destruct (request_send_rejected (op_of r) (message_of r) timeout
                (length (promises st)) false not_connected (new_promise st))
      as (_ & Hm & Hf & Hp); [apply lookup_snoc | exact He |].
    split; [| split; [| exact Hp]].
    + unfold registered. rewrite Hm. apply onMessage_registered.
    + rewrite Hf. unfold send_error_event. cbn. by rewrite Hc.
Qed.

End Requests.

(** The failing input of C1: [updateDisplay(["a"], {})] on a fresh service. *)
Lemma send_failure_leaves_handler_witness :
  let st' :=
    perform (browser None) (ReqUpdateDisplay (JArr [JStr "a"]) (JObj [])) None
      createWebSocketService in
  timers st' !! 1 = None /\
  promise_state 0 st' =
    Some (Rejected (MkError "kandidaten WebSocket not connected")) /\
  registered (HOneShot UpdateDisplay 0 1) "display_updated" st'.
Proof.
  apply (send_failure_leaves_handler (browser None)
           (ReqUpdateDisplay (JArr [JStr "a"]) (JObj [])) None
           (MkError "kandidaten WebSocket not connected") createWebSocketService).
  - reflexivity.
  - intros H. discriminate H.
  - reflexivity.
Defined.


Lemma precheck_only_for_lists_witness :
  let st := createWebSocketService in
  let rt := browser None in
  let not_connected := MkError "kandidaten WebSocket not connected" in
  let rejected :=
    set_promises [{| p_state := Rejected not_connected; p_backoff := false |}] st in
  getClients rt None st = rejected /\
  getPresets rt None st = rejected /\
  forall r : Request,
    has_precheck r = false -> valid_args r = true ->
    let st' := perform rt r None st in
    registered (HOneShot (op_of r) 0 1) (reply_type (op_of r)) st' /\
    effects st' =
      effects (triggerEvent EvError (DSendError not_connected (message_of r)) st) /\
    promise_state 0 st' = Some (Rejected not_connected).
Proof.
  apply (precheck_only_for_lists (browser None) None createWebSocketService).
  reflexivity.
Defined.

(** * Teardown *)

Section Teardown.

Variable rt : Runtime.

(** What [disconnect] leaves of each variable. *)
Lemma disconnect_socket st : socket (disconnect rt st) = None.
Proof.
  unfold disconnect, ws_close.
  destruct (socket st) as [sid|] eqn:Hs;
    repeat (case_match; simplify_eq/=); congruence.
Qed.

Lemma disconnect_reconnectTimeout st : reconnectTimeout (disconnect rt st) = None.
Proof.
  unfold disconnect, ws_close.
  destruct (socket st) as [sid|] eqn:Hs;
    repeat (case_match; simplify_eq/=); congruence.
Qed.

Lemma disconnect_isConnected st :
  isConnected (disconnect rt st) =
  match socket st with Some _ => false | None => isConnected st end.
Proof.
  unfold disconnect, ws_close.
  destruct (socket st) as [sid|] eqn:Hs;
    repeat (case_match; simplify_eq/=); congruence.
Qed.

Lemma disconnect_timers st :
  timers (disconnect rt st) =
  match reconnectTimeout st with
  | Some t => delete t (timers st)
  | None => timers st
  end.
Proof.
  unfold disconnect, ws_close.
  destruct (socket st) as [sid|] eqn:Hs;
    repeat (case_match; simplify_eq/=); congruence.
Qed.

Lemma disconnect_unchanged st :
  let st' := disconnect rt st in
  messageHandlers st' = messageHandlers st /\ promises st' = promises st /\
  url st' = url st /\ connectionAttempts st' = connectionAttempts st /\
  reconnectDelay st' = reconnectDelay st /\ next_timer st' = next_timer st /\
  eventListeners st' = eventListeners st /\
  connectionError st' = connectionError st /\
  length (sockets st') = length (sockets st).
Proof.
  unfold disconnect, ws_close.
  destruct (socket st) as [sid|] eqn:Hs;
    repeat (case_match; simplify_eq/=); rewrite ?length_alter; done.
Qed.

(** [disconnect] never fires [disconnect], and fires [error] only when
    [close] raises. *)
Lemma disconnect_effects st :
  exists es,
    effects (disconnect rt st) = effects st ++ es /\
    Forall (fun e => is_event EvDisconnect e = false) es /\
    Forall (fun e => is_open_transport e = false) es /\
    ((forall sid, socket st = Some sid -> close_throws rt sid = None) ->
     Forall (fun e => is_event EvError e = false) es).
Proof.
  unfold disconnect, ws_close.
  destruct (socket st) as [sid|] eqn:Hs;
    repeat (case_match; simplify_eq/=).
  all: try (exists []; rewrite app_nil_r; repeat split; by constructor).
  all: try (eexists; split; [reflexivity |];
            repeat split; repeat constructor; done).
  all: eexists; (split; [reflexivity |]); split; [| split].
  all: try (constructor; [done |]; apply Forall_map, Forall_true; done).
  all: intros Hc; specialize (Hc _ eq_refl); congruence.
Qed.


End Teardown.

(** * [connect] with a URL of another scheme *)

Section InvalidUrl.

Variable rt : Runtime.

Lemma disconnect_set_promises ps st :
  disconnect rt (set_promises ps st) = set_promises ps (disconnect rt st).
Proof.
  unfold disconnect, ws_close. cbn.
  destruct (socket st) as [sid|] eqn:Hs; cbn.
  - unfold state_of. cbn. repeat (case_match; simplify_eq/=); done.
  - repeat (case_match; simplify_eq/=); done.
Qed.

Lemma connect_invalid serverUrl options st :
  valid_url serverUrl = false ->
  let error :=
    MkError ("Invalid WebSocket URL: " +:+ serverUrl
             +:+ ". URL must start with ws:// or wss://") in
  connect rt serverUrl options st =
  set_promises (promises st ++ [{| p_state := Rejected error; p_backoff := false |}])
    (triggerEvent EvError (DError error)
       (set_connectionError (Some (DError error)) (torn_down rt st))).
Proof.
  intros Hv error. unfold connect. rewrite Hv. cbn [negb].
  fold error. unfold torn_down, new_promise. cbn [socket set_promises].
  destruct (socket st) as [sid|] eqn:Hs.
  - rewrite disconnect_set_promises.
    unfold reject. cbn. rewrite lookup_snoc, insert_snoc. reflexivity.
  - unfold reject. cbn. rewrite lookup_snoc, insert_snoc. reflexivity.
Qed.

(** C4, as the code has it. A URL that starts with neither [ws://] nor
    [wss://] rejects the promise of [connect] at once with the invalid-URL
    error and opens no transport.  The teardown comes before the validation:
    when the service holds a socket handle, [disconnect()] has run (the
    handle is dropped, the service is not connected, the reconnection timer
    is cancelled); without a handle nothing is torn down.  Apart from that the
    call stores the error, fires one [error] event and leaves [url], the
    attempt counter and the backoff delay alone. *)
Theorem invalid_url_rejected (serverUrl : string) (options : ConnectOptions)
    (st : State) :
  valid_url serverUrl = false ->
  let pid := length (promises st) in
  let error :=
    MkError ("Invalid WebSocket URL: " +:+ serverUrl
             +:+ ". URL must start with ws:// or wss://") in
  let st' := connect rt serverUrl options st in
  promise_state pid st' = Some (Rejected error) /\
  (length (sockets st') = length (sockets st) /\
   exists es, effects st' = effects st ++ es /\
              Forall (fun e => is_open_transport e = false) es) /\
  st' =
    set_promises (promises st ++ [{| p_state := Rejected error; p_backoff := false |}])
      (triggerEvent EvError (DError error)
         (set_connectionError (Some (DError error))
            (match socket st with Some _ => disconnect rt st | None => st end))) /\
  socket st' = None /\
  (forall sid, socket st = Some sid ->
     isConnected st' = false /\ reconnectTimeout st' = None /\
     forall t, reconnectTimeout st = Some t -> timers st' !! t = None) /\
  (socket st = None ->
     isConnected st' = isConnected st /\ sockets st' = sockets st /\
     reconnectTimeout st' = reconnectTimeout st /\ timers st' = timers st) /\
  url st' = url st /\ connectionAttempts st' = connectionAttempts st /\
  reconnectDelay st' = reconnectDelay st /\
  messageHandlers st' = messageHandlers st.
Proof.
  intros Hv pid error st'. subst pid st'.
  rewrite (connect_invalid _ options st Hv). fold error.
  unfold promise_state, torn_down. cbn.
  destruct (disconnect_unchanged rt st) as (Hm & Hp & Hu & Ha & Hd & _ & Hl & _ & Hlen).
  destruct (disconnect_effects rt st) as (es & He & _ & Ho & _).
  split; [by rewrite lookup_snoc |].
  split.
  { destruct (socket st); [split; [done |] | split; [done |]].
    - rewrite He, Hl. eexists. rewrite <- app_assoc. split; [reflexivity |].
      apply Forall_app. split; [done |].
      constructor; [done |]. by apply Forall_map, Forall_true.
    - eexists. split; [reflexivity |].
      constructor; [done |]. by apply Forall_map, Forall_true. }
  split; [done |].
  split.
  { destruct (socket st) eqn:Hs; [apply disconnect_socket | done]. }
  split.
  { intros sid Hs. rewrite Hs. rewrite disconnect_isConnected, Hs.
    split; [done |]. split; [apply disconnect_reconnectTimeout |].
    intros t Ht. rewrite disconnect_timers, Ht. apply lookup_delete_eq. }
  split.
  { intros ->. done. }
  destruct (socket st); done.
Qed.

End InvalidUrl.

Lemma invalid_url_rejected_witness :
  let st := connected_service (browser None) in
  let st' := connect (browser None) "http://x" no_options st in
  promise_state 1 st' =
    Some (Rejected (MkError
      "Invalid WebSocket URL: http://x. URL must start with ws:// or wss://")) /\
  socket st' = None /\ url st' = url st.
Proof.
  pose proof (invalid_url_rejected (browser None) "http://x" no_options
                (connected_service (browser None)) eq_refl)
    as (Hp & _ & _ & Hs & _ & _ & Hu & _).
  exact (conj Hp (conj Hs Hu)).
Defined.

(** C4, as stated, fails: with an open connection and a pending reconnection
    timer, [connect("http://x")] closes the open WebSocket, marks the service
    not connected and, when the handle of a dropped connection is still held,
    cancels the reconnection timer. *)
Lemma invalid_connect_tears_down :
  let rt := browser None in
  let st := connected_service rt in
  let dropped := run rt [WsClose 0 1006%Z "" false] st in
  valid_url "http://x" = false /\
  (state_of 0 st = Some OPEN /\ isConnected st = true /\
   state_of 0 (connect rt "http://x" no_options st) = Some CLOSING /\
   isConnected (connect rt "http://x" no_options st) = false /\
   socket (connect rt "http://x" no_options st) = None) /\
  (reconnectTimeout dropped = Some 2 /\
   t_callback <$> timers dropped !! 2 = Some CbReconnect /\
   timers (connect rt "http://x" no_options dropped) !! 2 = None).
Proof. vm_compute. repeat split. Qed.

(** * The reconnection policy of [onclose] *)

Section ClosePolicy.

Variable rt : Runtime.

Lemma ws_closed_unfold sid ws code reason wasClean st :
  sockets st !! sid = Some ws ->
  readyState ws <> CLOSED ->
  ws_closed sid code reason wasClean st =
  let st1 := closed sid ws code reason wasClean st in
  if negb (code =? 1000)%Z && negb (noReconnect (ws_options ws)) then
    if (connectionAttempts st <? MAX_RECONNECT_ATTEMPTS)%nat
       || unlimitedReconnect (ws_options ws)
    then scheduleReconnect st1
    else triggerEvent EvError max_reconnect_attempts st1
  else st1.
Proof.
  intros Hs Hr. unfold ws_closed. rewrite Hs.
  destruct (decide (readyState ws = CLOSED)); [done |].
  reflexivity.
Qed.

Lemma scheduleReconnect_timer st :
  let st' := scheduleReconnect st in
  reconnectTimeout st' = Some (next_timer st) /\
  timers st' !! next_timer st =
    Some {| t_delay := reconnectDelay st; t_callback := CbReconnect |} /\
  next_timer st' = S (next_timer st).
Proof.
  unfold scheduleReconnect. destruct (reconnectTimeout st); cbn;
    by rewrite lookup_insert_eq.
Qed.



End ClosePolicy.


(** * Reconnection: attempts, ceiling and backoff *)

Section Reconnection.

Variable rt : Runtime.

Lemma reconnections_delete k m : reconnections (delete k m) = delete k (reconnections m).
Proof. apply map_filter_delete. Qed.

Lemma reconnections_insert_other k T m :
  t_callback T <> CbReconnect ->
  reconnections (<[k := T]> m) = delete k (reconnections m).
Proof.
  intros H. unfold reconnections.
  rewrite map_filter_insert_False by done. apply map_filter_delete.
Qed.

Lemma reconnections_insert k T m :
  t_callback T = CbReconnect ->
  reconnections (<[k := T]> m) = <[k := T]> (reconnections m).
Proof. intros H. unfold reconnections. by rewrite map_filter_insert_True. Qed.

Lemma count_max_triggerEvent ev d st :
  count_max_errors (triggerEvent ev d st) =
  count_max_errors st + (if is_max_error (Emitted ev d) then 1 else 0).
Proof.
  unfold count_max_errors, triggerEvent, log. cbn [effects set_effects].
  rewrite List.filter_app, length_app. f_equal.
  cbn [List.filter].
  assert (H : List.filter is_max_error
                (map (fun callback => Notified callback ev d) (eventListeners st ev)) = []).
  { induction (eventListeners st ev); [done | cbn; done]. }
  rewrite H. by destruct (is_max_error (Emitted ev d)).
Qed.

(** What the teardown at the start of [connect] leaves. *)
Lemma torn_down_facts st :
  let st' := torn_down rt st in
  socket st' = None /\
  isConnected st' = match socket st with Some _ => false | None => isConnected st end /\
  promises st' = promises st /\ url st' = url st /\
  connectionAttempts st' = connectionAttempts st /\
  reconnectDelay st' = reconnectDelay st /\ next_timer st' = next_timer st /\
  length (sockets st') = length (sockets st) /\
  (scheduled_reconnections st = ∅ -> scheduled_reconnections st' = ∅) /\
  count_max_errors st' = count_max_errors st.
Proof.
  unfold torn_down. destruct (socket st) as [sid|] eqn:Hs; [| done].
  destruct (disconnect_unchanged rt st) as (_ & Hp & Hu & Ha & Hd & Hn & _ & _ & Hl).
  rewrite disconnect_socket, disconnect_isConnected, Hs.
  repeat split; try done.
  - unfold scheduled_reconnections. rewrite disconnect_timers.
    destruct (reconnectTimeout st); [| done].
    rewrite reconnections_delete. intros ->. apply delete_empty.
  - unfold disconnect, ws_close. rewrite Hs.
    repeat (case_match; simplify_eq/=); try done.
    all: unfold count_max_errors; cbn; rewrite ?List.filter_app, ?length_app; cbn;
      try lia.
    all: match goal with
         | |- context [List.filter is_max_error (map ?f ?l)] =>
             assert (H' : List.filter is_max_error (map f l) = [])
               by (induction l; [done | cbn; done]);
             rewrite H'
         end; cbn; lia.
Qed.


(** [connect] with a valid URL and a constructor that returns. *)
Lemma connect_valid serverUrl options st :
  valid_url serverUrl = true ->
  ctor_throws rt serverUrl = None ->
  connect rt serverUrl options st =
  let st0 := torn_down rt (new_promise st) in
  let sid := length (sockets st0) in
  let ws :=
    {| ws_url := serverUrl; readyState := CONNECTING; ws_options := options;
       ws_timer := next_timer st0; ws_promise := length (promises st) |} in
  setTimeout (CbConnectionTimeout (length (promises st)))
    (inject_Z (timeout_or (co_timeout options) 10000))
    (set_socket (Some sid)
       (log [WsCreated sid serverUrl]
          (set_sockets (sockets st0 ++ [ws])
             (set_connectionAttempts (S (connectionAttempts st0))
                (set_url serverUrl (set_connectionError None st0)))))).
Proof.
  intros Hv Hc. unfold connect. rewrite Hv, Hc. reflexivity.
Qed.

Lemma connect_in_flight serverUrl options st :
  valid_url serverUrl = true ->
  ctor_throws rt serverUrl = None ->
  scheduled_reconnections st = ∅ ->
  let st' := connect rt serverUrl options st in
  let ws :=
    {| ws_url := serverUrl; readyState := CONNECTING; ws_options := options;
       ws_timer := next_timer st; ws_promise := length (promises st) |} in
  in_flight (length (sockets st)) ws false st' /\
  connectionAttempts st' = S (connectionAttempts st) /\
  url st' = serverUrl /\
  reconnectDelay st' = reconnectDelay st /\
  next_timer st' = S (next_timer st) /\
  isConnected st' = match socket st with Some _ => false | None => isConnected st end /\
  count_max_errors st' = count_max_errors st.
Proof.
  intros Hv Hc Hf st'. subst st'. rewrite connect_valid by done.
  destruct (torn_down_facts (new_promise st))
    as (Hs & Hi & Hp & Hu & Ha & Hd & Hn & Hl & Hr & Hm).
  change (scheduled_reconnections (new_promise st)) with (scheduled_reconnections st) in Hr.
  change (count_max_errors (new_promise st)) with (count_max_errors st) in Hm.
  cbn [new_promise set_promises socket sockets promises url connectionAttempts
       reconnectDelay next_timer isConnected] in Hs, Hi, Hp, Hu, Ha, Hd, Hn, Hl.
  set (T := torn_down rt (new_promise st)) in *.
  cbn zeta. unfold in_flight.
  cbn [socket sockets timers promises connectionAttempts url reconnectDelay
       next_timer isConnected setTimeout set_next_timer set_timers set_socket log
       set_effects set_sockets set_connectionAttempts set_url set_connectionError
       ws_timer ws_promise readyState].
  rewrite Hn, Ha, Hd, Hp, Hi.
  repeat split.
  - by rewrite Hl.
  - rewrite <- Hl. apply lookup_snoc.
  - by rewrite lookup_insert_eq.
  - apply lookup_snoc.
  - unfold scheduled_reconnections. cbn [timers setTimeout set_next_timer set_timers
      set_socket log set_effects set_sockets set_connectionAttempts set_url
      set_connectionError].
    rewrite reconnections_insert_other by done.
    fold (scheduled_reconnections T).
    rewrite Hr by exact Hf. apply delete_empty.
  - unfold count_max_errors. cbn [effects setTimeout set_next_timer set_timers
      set_socket log set_effects set_sockets set_connectionAttempts set_url
      set_connectionError].
    rewrite List.filter_app, length_app. cbn.
    fold (count_max_errors T). rewrite Hm. unfold count_max_errors. lia.
Qed.


(** The policy, applied to an unclean close without [noReconnect] while no
    reconnection is scheduled. *)
Lemma policy_outcome sid ws code reason wasClean st :
  sockets st !! sid = Some ws ->
  readyState ws <> CLOSED ->
  scheduled_reconnections st = ∅ ->
  code <> 1000%Z ->
  noReconnect (ws_options ws) = false ->
  let st' := ws_closed sid code reason wasClean st in
  connectionAttempts st' = connectionAttempts st /\
  url st' = url st /\
  reconnectDelay st' = reconnectDelay st /\
  if (connectionAttempts st <? 5)%nat || unlimitedReconnect (ws_options ws)
  then scheduled (next_timer st) st' /\ count_max_errors st' = count_max_errors st
  else scheduled_reconnections st' = ∅ /\
       count_max_errors st' = S (count_max_errors st).
Proof.
  intros Hs Hr Hf Hc Hn st'. subst st'.
  rewrite (ws_closed_unfold _ _ _ _ _ _ Hs Hr). cbn zeta.
  rewrite Hn. apply Z.eqb_neq in Hc. rewrite Hc. cbn [negb andb].
  change MAX_RECONNECT_ATTEMPTS with 5.
  set (st1 := closed sid ws code reason wasClean st).
  assert (Hf1 : scheduled_reconnections st1 = ∅).
  { unfold scheduled_reconnections. subst st1. cbn.
    rewrite reconnections_delete. fold (scheduled_reconnections st).
    rewrite Hf. apply delete_empty. }
  assert (Hm1 : count_max_errors st1 = count_max_errors st).
  { subst st1. unfold closed. rewrite count_max_triggerEvent. cbn.
    unfold count_max_errors. cbn. lia. }
  destruct ((connectionAttempts st <? 5)%nat || unlimitedReconnect (ws_options ws)).
  - repeat split.
    + unfold scheduleReconnect. by destruct (reconnectTimeout st1).
    + unfold scheduleReconnect. by destruct (reconnectTimeout st1).
    + unfold scheduleReconnect. by destruct (reconnectTimeout st1).
    + unfold scheduleReconnect. by destruct (reconnectTimeout st1).
    + unfold scheduleReconnect. by destruct (reconnectTimeout st1).
    + unfold scheduleReconnect, scheduled_reconnections.
      destruct (reconnectTimeout st1) as [t0|]; cbn [timers setTimeout set_timers
        set_next_timer set_reconnectTimeout clearTimeout next_timer reconnectDelay];
        rewrite reconnections_insert by done;
        rewrite ?reconnections_delete;
        fold (scheduled_reconnections st1); rewrite Hf1, ?delete_empty;
        reflexivity.
    + rewrite <- Hm1. unfold scheduleReconnect.
      by destruct (reconnectTimeout st1).
  - repeat split.
    + exact Hf1.
    + rewrite count_max_triggerEvent, Hm1. cbn. lia.
Qed.

(** The connection timeout of an attempt in flight fires. *)
Lemma timeout_outcome sid ws b st :
  in_flight sid ws b st ->
  let st' := timer_fires rt (ws_timer ws) st in
  (exists ws', sockets st' !! sid = Some ws' /\ readyState ws' <> CLOSED /\
               ws_options ws' = ws_options ws) /\
  scheduled_reconnections st' = ∅ /\
  connectionAttempts st' = connectionAttempts st /\
  url st' = url st /\
  next_timer st' = next_timer st /\
  count_max_errors st' = count_max_errors st /\
  (close_throws rt sid = None -> isConnected st = false ->
   reconnectDelay st' =
     if b then Qmin (reconnectDelay st * 1.5) MAX_RECONNECT_DELAY
     else reconnectDelay st).
Proof.
  intros (Hsock & Hs & Hr & Ht & Hp & Hf) st'. subst st'.
  unfold timer_fires.
  destruct (timers st !! ws_timer ws) as [T|] eqn:HT; [| done].
  cbn in Ht. injection Ht as Ht. rewrite Ht.
  assert (Hf1 : scheduled_reconnections (clearTimeout (ws_timer ws) st) = ∅).
  { unfold scheduled_reconnections. cbn. rewrite reconnections_delete.
    fold (scheduled_reconnections st). rewrite Hf. apply delete_empty. }
  unfold connectionTimeout_fired. state_simpl.
  destruct (isConnected st) eqn:Hi.
  { split; [exists ws; by rewrite Hr |]. repeat split; try done. }
  rewrite Hsock.
  destruct (decide _) as [Hd | Hd].
  2: { exfalso. apply Hd. unfold state_of. cbn. by rewrite Hs, <- Hr. }
  unfold ws_close.
  destruct (close_throws rt sid) eqn:Hc.
  { split; [exists ws; by rewrite Hr |].
    repeat split; try done.
    unfold count_max_errors. cbn. rewrite List.filter_app, length_app. cbn.
    match goal with
    | |- context [List.filter is_max_error (map ?f ?l)] =>
        assert (H' : List.filter is_max_error (map f l) = [])
          by (induction l; [done | cbn; done]);
        rewrite H'
    end. cbn. lia. }
  unfold reject. state_simpl.
  rewrite Hp.
  split.
  { exists (closing ws). destruct b; cbn; rewrite list_lookup_alter_eq, Hs; cbn;
      unfold closing; rewrite Hr; done. }
  destruct b; cbn; repeat split; try done.
  all: unfold count_max_errors; cbn; rewrite !List.filter_app, !length_app; cbn.
  all: match goal with
       | |- context [List.filter is_max_error (map ?f ?l)] =>
           assert (H' : List.filter is_max_error (map f l) = [])
             by (induction l; [done | cbn; done]);
           rewrite H'
       end; cbn; lia.
Qed.


(** An attempt in flight fails with an unclean close. *)
Lemma attempt_outcome sid ws b f st :
  in_flight sid ws b st ->
  close_code f <> 1000%Z ->
  noReconnect (ws_options ws) = false ->
  let st' := attempt_fails rt f st in
  connectionAttempts st' = connectionAttempts st /\
  url st' = url st /\
  (close_throws rt sid = None -> isConnected st = false ->
   reconnectDelay st' =
     if timed_out f && b then Qmin (reconnectDelay st * 1.5) MAX_RECONNECT_DELAY
     else reconnectDelay st) /\
  if (connectionAttempts st <? 5)%nat || unlimitedReconnect (ws_options ws)
  then (exists t, scheduled t st') /\ count_max_errors st' = count_max_errors st
  else scheduled_reconnections st' = ∅ /\
       count_max_errors st' = S (count_max_errors st).
Proof.
  intros Hin Hc Hn st'. subst st'.
  pose proof Hin as (Hsock & Hs & Hr & Ht & Hp & Hf).
  unfold attempt_fails. rewrite Hsock, Hs.
  destruct (timed_out f) eqn:Hto.
  - destruct (timeout_outcome sid ws b st Hin)
      as ((ws' & Hs' & Hr' & Ho') & Hf' & Ha' & Hu' & _ & Hm' & Hd').
    destruct (policy_outcome sid ws' (close_code f) (close_reason f)
                (close_wasClean f) _ Hs' Hr' Hf' Hc) as (Ha & Hu & Hd & Hpol);
      [by rewrite Ho' |].
    rewrite Ha, Hu, Hd, Ha', Hu'. rewrite Ho', Ha', Hm' in Hpol.
    repeat split; try done.
    destruct ((connectionAttempts st <? 5)%nat || unlimitedReconnect (ws_options ws)).
    + destruct Hpol as [Hsch Hm]. split; [by eexists | done].
    + done.
  - destruct (policy_outcome sid ws (close_code f) (close_reason f)
                (close_wasClean f) st Hs) as (Ha & Hu & Hd & Hpol);
      [by rewrite Hr | done | done | done |].
    repeat split; try done.
    destruct ((connectionAttempts st <? 5)%nat || unlimitedReconnect (ws_options ws)).
    + destruct Hpol as [Hsch Hm]. split; [by eexists | done].
    + done.
Qed.

Lemma catch_backoff_pending pid st :
  promises st !! pid = Some {| p_state := Pending; p_backoff := false |} ->
  catch_backoff pid st =
  set_promises (<[pid := {| p_state := Pending; p_backoff := true |}]> (promises st)) st.
Proof. intros H. unfold catch_backoff. by rewrite H. Qed.

(** The scheduled reconnection fires and starts an attempt. *)
Lemma reconnection_outcome t st :
  scheduled t st ->
  valid_url (url st) = true ->
  ctor_throws rt (url st) = None ->
  let st' := reconnection_fires rt st in
  (exists sid ws, in_flight sid ws true st' /\ ws_options ws = no_options) /\
  connectionAttempts st' = S (connectionAttempts st) /\
  url st' = url st /\
  reconnectDelay st' = reconnectDelay st /\
  isConnected st' = false /\
  count_max_errors st' = count_max_errors st.
Proof.
  intros (Hrt & Hi & Hf) Hv Hc st'. subst st'.
  unfold reconnection_fires. rewrite Hrt. unfold timer_fires.
  assert (HT : timers st !! t =
               Some {| t_delay := reconnectDelay st; t_callback := CbReconnect |}).
  { assert (H : scheduled_reconnections st !! t =
                Some {| t_delay := reconnectDelay st; t_callback := CbReconnect |})
      by (rewrite Hf; apply lookup_singleton_eq).
    unfold scheduled_reconnections, reconnections in H.
    by apply map_lookup_filter_Some in H as [H _]. }
  rewrite HT. cbn [t_callback]. unfold reconnect_fired.
  set (st1 := triggerEvent _ _ (clearTimeout t st)).
  assert (Hf1 : scheduled_reconnections st1 = ∅).
  { unfold scheduled_reconnections. subst st1. state_simpl.
    rewrite reconnections_delete. fold (scheduled_reconnections st).
    rewrite Hf. apply delete_singleton_eq. }
  assert (Hm1 : count_max_errors st1 = count_max_errors st).
  { subst st1. rewrite count_max_triggerEvent. cbn. unfold count_max_errors. cbn. lia. }
  change (url st1) with (url st).
  destruct (connect_in_flight (url st) no_options st1 Hv Hc Hf1)
    as (Hin & Ha & Hu & Hd & _ & Hic & Hm).
  destruct Hin as (Hsock & Hs & Hr & Ht & Hp & Hff).
  change (length (promises st1)) with (length (promises st)) in *.
  cbn [ws_promise ws_timer readyState] in *.
  rewrite (catch_backoff_pending _ _ Hp).
  split.
  { exists (length (sockets st1)),
      {| ws_url := url st; readyState := CONNECTING; ws_options := no_options;
         ws_timer := next_timer st1; ws_promise := length (promises st) |}.
    split; [| reflexivity].
    unfold in_flight. state_simpl. cbn [ws_promise ws_timer readyState].
    repeat split; try done.
    rewrite list_lookup_insert_eq; [done | by eapply lookup_lt_Some]. }
  state_simpl. rewrite Ha, Hu, Hd, Hic, <- Hm1, <- Hm.
  repeat split; try done.
  change (isConnected st1) with (isConnected st). rewrite Hi.
  by destruct (socket st1).
Qed.


Lemma retries_cons f fs st :
  retries rt (f :: fs) st = retries rt fs (attempt_fails rt f (reconnection_fires rt st)).
Proof. reflexivity. Qed.

(** A run of unclean failures from a scheduled reconnection: while the
    counter stays below the ceiling a reconnection is scheduled again; the
    failure that finds the counter at the ceiling fires the max-attempts
    error and schedules nothing. *)
Lemma retries_outcome fs : forall t st,
  scheduled t st ->
  valid_url (url st) = true ->
  ctor_throws rt (url st) = None ->
  Forall (fun f => close_code f <> 1000%Z) fs ->
  connectionAttempts st + length fs <= 5 ->
  let st' := retries rt fs st in
  connectionAttempts st' = connectionAttempts st + length fs /\
  (connectionAttempts st + length fs < 5 ->
   (exists t', scheduled t' st') /\ count_max_errors st' = count_max_errors st) /\
  (connectionAttempts st + length fs = 5 -> fs <> [] ->
   scheduled_reconnections st' = ∅ /\
   count_max_errors st' = S (count_max_errors st)).
Proof.
  induction fs as [| f fs IH]; intros t st Hsch Hv Hc Hfs Hlen st'; subst st'.
  { cbn. split; [lia |]. split; [| done]. intros _. split; [by exists t | done]. }
  rewrite retries_cons. cbn [length] in *.
  apply Forall_cons in Hfs as [Hf Hfs].
  destruct (reconnection_outcome t st Hsch Hv Hc)
    as ((sid & ws & Hin & Ho) & Ha1 & Hu1 & Hd1 & Hi1 & Hm1).
  destruct (attempt_outcome sid ws true f _ Hin Hf) as (Ha2 & Hu2 & _ & Hpol);
    [by rewrite Ho |].
  rewrite Ho, Ha1 in Hpol. cbn [unlimitedReconnect no_options] in Hpol.
  rewrite orb_false_r in Hpol.
  set (st2 := attempt_fails rt f (reconnection_fires rt st)) in *.
  destruct (S (connectionAttempts st) <? 5)%nat eqn:Hlt.
  - apply Nat.ltb_lt in Hlt. destruct Hpol as [[t2 Hsch2] Hm2].
    destruct (IH t2 st2 Hsch2) as (Ha & Hbelow & Hat);
      [by rewrite Hu2, Hu1 | by rewrite Hu2, Hu1 | done | lia |].
    rewrite Ha2, Ha1 in Ha, Hbelow, Hat. rewrite Hm2, Hm1 in Hbelow, Hat.
    split; [lia |]. split.
    + intros H. apply Hbelow. lia.
    + intros H _. apply Hat; [lia |]. intros ->. cbn in H. lia.
  - apply Nat.ltb_ge in Hlt.
    assert (fs = []) as -> by (destruct fs; [done | cbn in Hlen; lia]).
    cbn [retries foldl length]. rewrite Ha2, Ha1.
    split; [lia |]. split; [intros H; lia |].
    intros _ _. destruct Hpol as [Hf2 Hm2]. by rewrite Hm2, Hm1.
Qed.

(** C7. The caller connects without [noReconnect] and without waiving the
    ceiling, from a service whose attempt counter is 0 and which has no
    reconnection pending.  The attempt fails with an unclean close, and so
    does each of the four attempts the scheduled reconnections start, whether
    by a close before the connection timeout or after it.  Then five attempts
    were made, no reconnection is scheduled, and the max-attempts [error]
    event was fired exactly once. *)
Theorem ceiling_reached (serverUrl : string) (options : ConnectOptions)
    (st : State) (f : Failure) (fs : list Failure) :
  valid_url serverUrl = true ->
  ctor_throws rt serverUrl = None ->
  noReconnect options = false ->
  unlimitedReconnect options = false ->
  connectionAttempts st = 0 ->
  scheduled_reconnections st = ∅ ->
  length (f :: fs) = 5 ->
  Forall (fun f => close_code f <> 1000%Z) (f :: fs) ->
  let st' := retries rt fs (attempt_fails rt f (connect rt serverUrl options st)) in
  connectionAttempts st' = 5 /\
  scheduled_reconnections st' = ∅ /\
  count_max_errors st' = S (count_max_errors st).
Proof.
  intros Hv Hc Hn Hu Ha Hf Hlen Hfs st'. subst st'.
  apply Forall_cons in Hfs as [Hcf Hfs]. cbn [length] in Hlen.
  destruct (connect_in_flight serverUrl options st Hv Hc Hf)
    as (Hin & Ha1 & Hu1 & _ & _ & _ & Hm1).
  destruct (attempt_outcome _ _ false f _ Hin Hcf Hn) as (Ha2 & Hu2 & _ & Hpol).
  cbn [ws_options] in Hpol. rewrite Ha1, Ha, Hu in Hpol. cbn in Hpol.
  destruct Hpol as [[t Hsch] Hm2].
  set (st2 := attempt_fails rt f (connect rt serverUrl options st)) in *.
  destruct (retries_outcome fs t st2 Hsch) as (Ha3 & _ & Hat);
    [by rewrite Hu2, Hu1 | by rewrite Hu2, Hu1 | done | rewrite Ha2, Ha1, Ha; lia |].
  rewrite Ha2, Ha1, Ha in Ha3, Hat. rewrite Hm2, Hm1 in Hat.
  split; [lia |].
  apply Hat; [lia |]. intros ->. cbn in Hlen. lia.
Qed.








End Reconnection.

Lemma ceiling_reached_witness :
  let rt := browser None in
  let st' :=
    retries rt [times_out; closes_early; closes_early; times_out]
      (attempt_fails rt closes_early
         (connect rt "ws://host" no_options createWebSocketService)) in
  connectionAttempts st' = 5 /\
  scheduled_reconnections st' = ∅ /\
  count_max_errors st' = 1.
Proof.
  apply (ceiling_reached (browser None) "ws://host" no_options createWebSocketService
           closes_early [times_out; closes_early; closes_early; times_out]).
  - reflexivity.
  - reflexivity.
  - reflexivity.
  - reflexivity.
  - reflexivity.
  - reflexivity.
  - reflexivity.
  - repeat constructor; discriminate.
Defined.



(** Attempts that fail by a close before the connection timeout never reject
    their promise ([onclose] does not call [reject]), so the delay of the
    reconnections they lead to stays what it was. *)
Lemma early_close_keeps_delay :
  let rt := browser None in
  let dropped := ws_closed 0 1006%Z "" false (connected_service rt) in
  let st := retries rt [closes_early; closes_early; closes_early] dropped in
  connectionAttempts st = 3 /\ scheduled_delay st = Some 1000%Q /\
  promise_state 1 st = Some Pending /\ promise_state 2 st = Some Pending /\
  promise_state 3 st = Some Pending.
Proof. vm_compute. repeat split. Qed.

(** * Message routing and replies *)

Section Router.

Variable rt : Runtime.

Lemma handlers_run_app es1 es2 :
  handlers_run (es1 ++ es2) = handlers_run es1 ++ handlers_run es2.
Proof.
  induction es1 as [| e es1 IH]; [done |].
  destruct e; cbn; by rewrite ?IH.
Qed.

Lemma handlers_run_notified (f : Listener -> Effect) ls :
  (forall l, handlers_run [f l] = []) -> handlers_run (map f ls) = [].
Proof.
  intros H. induction ls as [| l ls IH]; [done |].
  change (map f (l :: ls)) with ([f l] ++ map f ls).
  by rewrite handlers_run_app, H, IH.
Qed.

Lemma forEach_handler_split n m k messageType data st :
  forEach_handler (n + m) k messageType data st =
  forEach_handler m (k + n) messageType data (forEach_handler n k messageType data st).
Proof.
  revert k st. induction n as [| n IH]; intros k st.
  - cbn. by rewrite Nat.add_0_r.
  - cbn [Nat.add forEach_handler]. rewrite IH. by rewrite Nat.add_succ_comm.
Qed.

(** One visit of [forEach] at an index that holds a stable handler. *)
Lemma visit_stable handler data messageType st :
  stable handler ->
  exists es,
    (match run_handler handler data (log [HandlerRan handler data] st) with
     | (Some error, st') =>
         triggerEvent EvError (DHandlerError error messageType data) st'
     | (None, st') => st'
     end) = log (HandlerRan handler data :: es) st /\
    handlers_run es = [].
Proof.
  destruct handler as [| fid [| e |]]; try done; intros _; cbn.
  - exists []. done.
  - eexists. unfold triggerEvent, log. state_simpl. rewrite <- app_assoc.
    split; [reflexivity |]. cbn. by apply handlers_run_notified.
Qed.

(** [forEach] over a range of indices that hold stable handlers: every one is
    invoked, in order, and only the log changes. *)
Lemma forEach_stable n : forall k messageType data st hs,
  messageHandlers st !! messageType = Some hs ->
  (forall i h, k <= i < k + n -> hs !! i = Some h -> stable h) ->
  exists es,
    forEach_handler n k messageType data st = log es st /\
    handlers_run es = take n (drop k hs).
Proof.
  induction n as [| n IH]; intros k messageType data st hs Hm Hst.
  { exists []. cbn. split; [| done]. unfold log. rewrite app_nil_r. by destruct st. }
  cbn [forEach_handler]. rewrite Hm. cbn [mbind option_bind].
  destruct (hs !! k) as [h|] eqn:Hk.
  - destruct (visit_stable h data messageType st) as (es1 & -> & Hr1);
      [by apply (Hst k); [lia |] |].
    destruct (IH (S k) messageType data (log (HandlerRan h data :: es1) st) hs)
      as (es2 & -> & Hr2); [done | intros i h' Hi; apply Hst; lia |].
    exists ((HandlerRan h data :: es1) ++ es2). split.
    + unfold log. cbn. by rewrite <- app_assoc.
    + rewrite handlers_run_app. cbn. rewrite Hr1, Hr2. cbn.
      rewrite (drop_S _ _ _ Hk). done.
  - destruct (IH (S k) messageType data st hs) as (es2 & -> & Hr2);
      [done | intros i h' Hi; apply Hst; lia |].
    exists es2. split; [done |]. rewrite Hr2.
    apply lookup_ge_None in Hk. rewrite !drop_ge by lia. by destruct n.
Qed.


Lemma send_resolved message st :
  send_error rt message st = None ->
  exists sid,
    socket st = Some sid /\
    send rt message st =
    set_promises (promises st ++ [{| p_state := Fulfilled None; p_backoff := false |}])
      (log [WsSent sid message] st).
Proof.
  unfold send_error, send. state_simpl.
  destruct (isConnected st); cbn [negb]; [| done].
  destruct (socket st) as [sid|]; [| done].
  destruct (decide _); [| done].
  intros ->. exists sid. split; [done |].
  unfold resolve. state_simpl. rewrite lookup_snoc, insert_snoc. reflexivity.
Qed.

(** A request whose [send] goes through: the handler is last in the array of
    its reply type, the timeout is armed, the promise is pending. *)
Lemma request_sent op message timeout pid st :
  send_error rt message st = None ->
  pid < length (promises st) ->
  let st' := request rt op message timeout pid st in
  messageHandlers st' =
    <[reply_type op :=
        default [] (messageHandlers st !! reply_type op)
        ++ [HOneShot op pid (next_timer st)]]> (messageHandlers st) /\
  timers st' =
    <[next_timer st :=
        {| t_delay := inject_Z (timeout_or timeout 5000);
           t_callback := CbRequestTimeout op pid |}]> (timers st) /\
  promises st' = promises st ++ [{| p_state := Fulfilled None; p_backoff := false |}] /\
  sockets st' = sockets st /\ socket st' = socket st /\
  isConnected st' = isConnected st.
Proof.
  intros He Hp st'. subst st'. unfold request.
  set (st1 := setTimeout _ _ (onMessage _ _ st)).
  assert (He1 : send_error rt message st1 = None) by exact He.
  destruct (send_resolved _ _ He1) as (sid & Hs & ->).
  unfold promise_state. state_simpl.
  change (promises st1) with (promises st). rewrite lookup_snoc. cbn.
  done.
Qed.

Lemma indexOf_snoc {A} `{EqDecision A} (x : A) (l : list A) :
  x ∉ l -> indexOf x (l ++ [x]) = Some (length l).
Proof.
  induction l as [| y l IH]; intros Hx; cbn.
  - by destruct (decide (x = x)).
  - apply not_elem_of_cons in Hx as [Hne Hx].
    destruct (decide (y = x)) as [-> | _]; [done |].
    by rewrite IH.
Qed.

Lemma remove_registered_snoc {A} `{EqDecision A} (x : A) (l : list A) :
  x ∉ l -> remove_registered x (l ++ [x]) = l.
Proof.
  intros Hx. unfold remove_registered. rewrite indexOf_snoc by done.
  induction l as [| y l IH]; [done |].
  apply not_elem_of_cons in Hx as [_ Hx]. cbn. f_equal. by apply IH.
Qed.

Lemma stable_not_one_shot op pid tid pre :
  Forall stable pre -> HOneShot op pid tid ∉ pre.
Proof.
  intros Hpre Hin. rewrite Forall_forall in Hpre. by apply Hpre in Hin.
Qed.

(** The one-shot handler of a request, last in its array behind stable
    handlers, is reached by the dispatch of a frame of its reply type. *)
Lemma dispatch_reaches_last op pid tid pre data st :
  messageHandlers st !! reply_type op = Some (pre ++ [HOneShot op pid tid]) ->
  Forall stable pre ->
  promises st !! pid = Some {| p_state := Pending; p_backoff := false |} ->
  let st' :=
    forEach_handler (length (pre ++ [HOneShot op pid tid])) 0 (reply_type op) data st in
  messageHandlers st' = <[reply_type op := pre]> (messageHandlers st) /\
  timers st' = delete tid (timers st) /\
  promises st' =
    <[pid := {| p_state := Fulfilled (Some (reply_value op data)); p_backoff := false |}]>
      (promises st) /\
  handlers_run (effects st') =
    handlers_run (effects st) ++ pre ++ [HOneShot op pid tid].
Proof.
  intros Hm Hpre Hp st'. subst st'.
  rewrite length_app. cbn [length]. rewrite forEach_handler_split.
  destruct (forEach_stable (length pre) 0 (reply_type op) data st _ Hm)
    as (es & -> & Hes).
  { intros i h Hi Hl. rewrite lookup_app_l in Hl by lia.
    rewrite Forall_forall in Hpre. apply Hpre. by eapply list_elem_of_lookup_2. }
  rewrite drop_0, take_app_length in Hes.
  cbn [forEach_handler Nat.add]. state_simpl. rewrite Hm. cbn [mbind option_bind].
  rewrite lookup_snoc. cbn [run_handler]. state_simpl. rewrite Hm.
  rewrite remove_registered_snoc by (by apply stable_not_one_shot).
  unfold resolve. state_simpl. rewrite Hp. state_simpl.
  repeat split.
  rewrite !handlers_run_app, Hes. cbn. by rewrite <- app_assoc.
Qed.


(** C2, as the code has it.  The service is connected, its WebSocket is open
    and [send] goes through; the handlers already registered for
    [client_list] leave the table alone: they are handlers of the caller
    that return or throw (so no other request for [client_list] is pending
    and no handler takes itself out of the table).  [getClients] puts its
    one-shot handler last
    in the array, arms a timeout of [timeout || 5000] ms and leaves its
    promise pending.  A frame of type [client_list] that arrives next
    resolves the promise with [data.clients] when that value is truthy and
    with an empty object when it is absent or falsy, takes the handler out of
    the array and clears the timeout.  If the timeout fires instead, the
    promise rejects with the timeout error that names [client_list] and the
    handler of the call is out of the array, the other handlers staying. *)
Theorem getClients_reply (timeout : option Z) (st : State) (sid : nat)
    (pre : list Handler) :
  isConnected st = true ->
  socket st = Some sid ->
  state_of sid st = Some OPEN ->
  send_throws rt sid (JObj [("type", JStr "get_clients")]) = None ->
  default [] (messageHandlers st !! "client_list") = pre ->
  Forall stable pre ->
  let pid := length (promises st) in
  let timeoutId := next_timer st in
  let handler := HOneShot GetClients pid timeoutId in
  let st1 := getClients rt timeout st in
  (messageHandlers st1 !! "client_list" = Some (pre ++ [handler]) /\
   timers st1 !! timeoutId =
     Some {| t_delay := inject_Z (timeout_or timeout 5000);
             t_callback := CbRequestTimeout GetClients pid |} /\
   promise_state pid st1 = Some Pending) /\
  (forall (rawData : string) (data : json),
     JSON_parse rt rawData = Some data ->
     get_field "type" data = Some (JStr "client_list") ->
     let st2 := ws_message rt sid rawData st1 in
     promise_state pid st2 =
       Some (Fulfilled (Some (or_default (get_field "clients" data) (JObj [])))) /\
     messageHandlers st2 !! "client_list" = Some pre /\
     timers st2 !! timeoutId = None) /\
  (let st3 := timer_fires rt timeoutId st1 in
   promise_state pid st3 =
     Some (Rejected (MkError "Timeout waiting for client_list response")) /\
   messageHandlers st3 !! "client_list" = Some pre /\
   timers st3 !! timeoutId = None).
Proof.
  intros Hc Hsock Hopen Hsend Hpre Hst pid timeoutId handler st1.
  assert (He : send_error rt (JObj [("type", JStr "get_clients")]) (new_promise st) = None).
  { unfold send_error. state_simpl. rewrite Hc, Hsock. cbn [negb].
    change (state_of sid (new_promise st)) with (state_of sid st).
    by destruct (decide _). }
  assert (Hst1 : st1 = request rt GetClients (JObj [("type", JStr "get_clients")])
                         timeout pid (new_promise st)).
  { subst st1. unfold getClients. state_simpl. by rewrite Hc. }
  destruct (request_sent GetClients _ timeout pid (new_promise st) He)
    as (Hm & Ht & Hp & Hss & Hso & Hic).
  { state_simpl. rewrite length_app. cbn. lia. }
  rewrite <- Hst1 in Hm, Ht, Hp, Hss, Hso, Hic.
  state_simpl in Hm. state_simpl in Ht. state_simpl in Hp. state_simpl in Hss.
  cbn [reply_type] in Hm. rewrite Hpre in Hm. fold timeoutId handler in Hm, Ht.
  assert (Hm1 : messageHandlers st1 !! "client_list" = Some (pre ++ [handler]))
    by (rewrite Hm; apply lookup_insert_eq).
  assert (Hp1 : promises st1 !! pid = Some {| p_state := Pending; p_backoff := false |}).
  { rewrite Hp. rewrite lookup_app_l by (rewrite length_app; cbn; lia).
    apply lookup_snoc. }
  split; [| split].
  - split; [exact Hm1 |]. split; [rewrite Ht; apply lookup_insert_eq |].
    unfold promise_state. by rewrite Hp1.
  - intros rawData data Hparse Htype st2. subst st2.
    unfold ws_message.
    assert (Ho1 : state_of sid st1 = Some OPEN) by (unfold state_of; by rewrite Hss).
    destruct (decide _); [| done].
    unfold onmessage. rewrite Hparse. unfold handleMessage.
    destruct data; try done. rewrite Htype, Hm1.
    destruct (dispatch_reaches_last GetClients pid timeoutId pre (JObj fields) st1 Hm1 Hst Hp1)
      as (Hm2 & Ht2 & Hp2 & _).
    cbn [reply_type] in Hm2, Ht2, Hp2. fold handler in Hm2, Ht2, Hp2.
    unfold promise_state. state_simpl. rewrite Hm2, Ht2, Hp2.
    split; [| split].
    + rewrite list_lookup_insert_eq; [done | by eapply lookup_lt_Some].
    + apply lookup_insert_eq.
    + apply lookup_delete_eq.
  - cbn zeta. unfold timer_fires. rewrite Ht, lookup_insert_eq. cbn [t_callback].
    unfold requestTimeout_fired. state_simpl. cbn [reply_type]. rewrite Hm1.
    fold handler. rewrite remove_registered_snoc by (by apply stable_not_one_shot).
    unfold reject, promise_state. state_simpl. rewrite Hp1. state_simpl.
    split; [| split].
    + rewrite list_lookup_insert_eq; [done | by eapply lookup_lt_Some].
    + apply lookup_insert_eq.
    + apply lookup_delete_eq.
Qed.


(** C9 fails on the code.  The one-shot handler of a request is first in the
    array of its reply type and another handler [h] follows it.  When a frame
    of that type is dispatched, [forEach] invokes the one-shot handler at
    index 0; the handler splices itself out, [h] moves to index 0, and
    [forEach] goes on at index 1, which is no longer present: [h] is never
    invoked although it was registered when the dispatch started, and it is
    still registered afterwards. *)
Theorem self_removal_skips_sibling (op : ReqOp) (pid tid : nat) (h : Handler)
    (data : json) (st : State) :
  messageHandlers st !! reply_type op = Some [HOneShot op pid tid; h] ->
  get_field "type" data = Some (JStr (reply_type op)) ->
  let st' := (handleMessage data st).2 in
  handlers_run (effects st') = handlers_run (effects st) ++ [HOneShot op pid tid] /\
  messageHandlers st' !! reply_type op = Some [h].
Proof.
  intros Hm Htype st'. subst st'. unfold handleMessage.
  destruct data; try done. rewrite Htype, Hm.
  cbn [length forEach_handler snd]. state_simpl. rewrite Hm.
  cbn [mbind option_bind lookup list_lookup run_handler]. state_simpl. rewrite Hm.
  assert (Hrm : remove_registered (HOneShot op pid tid) [HOneShot op pid tid; h] = [h]).
  { unfold remove_registered. cbn. by destruct (decide _). }
  rewrite Hrm.
  set (st1 := resolve _ _ _).
  assert (H1 : messageHandlers st1 = <[reply_type op := [h]]> (messageHandlers st)
               /\ effects st1 = effects st ++ [HandlerRan (HOneShot op pid tid) (JObj fields)]).
  { subst st1. unfold resolve. repeat case_match; done. }
  destruct H1 as [Hm1 He1]. rewrite Hm1, lookup_insert_eq. cbn.
  rewrite Hm1, lookup_insert_eq, He1, handlers_run_app. done.
Qed.

End Router.

Lemma self_removal_skips_sibling_witness :
  let rt := browser (Some (client_list_frame (JObj []))) in
  let st :=
    run rt [CallGetClients None; CallOnMessage "client_list" 7 UReturn]
      (connected_service rt) in
  let st' := (handleMessage (client_list_frame (JObj [])) st).2 in
  handlers_run (effects st') = handlers_run (effects st) ++ [HOneShot GetClients 1 2] /\
  messageHandlers st' !! "client_list" = Some [HUser 7 UReturn].
Proof.
  apply (self_removal_skips_sibling GetClients 1 2 (HUser 7 UReturn)).
  - vm_compute. reflexivity.
  - reflexivity.
Defined.

(** Two requests for [client_list] are pending and one frame arrives: the
    second request is not resolved by it. *)
Lemma second_request_skipped :
  let rt := browser (Some (client_list_frame (JObj []))) in
  let st := run rt [CallGetClients None; CallGetClients None] (connected_service rt) in
  let st' := ws_message rt 0 "frame" st in
  messageHandlers st !! "client_list"
    = Some [HOneShot GetClients 1 2; HOneShot GetClients 3 3] /\
  promise_state 1 st' = Some (Fulfilled (Some (JObj []))) /\
  promise_state 3 st' = Some Pending /\
  messageHandlers st' !! "client_list" = Some [HOneShot GetClients 3 3].
Proof. vm_compute. repeat split. Qed.

Lemma getClients_reply_witness :
  let clients := JObj [("a", JObj [])] in
  let rt := browser (Some (client_list_frame clients)) in
  let st1 := getClients rt None (connected_service rt) in
  promise_state 1 (ws_message rt 0 "frame" st1) = Some (Fulfilled (Some clients)) /\
  promise_state 1 (timer_fires rt 2 st1)
    = Some (Rejected (MkError "Timeout waiting for client_list response")).
Proof.
  intros clients rt st1.
  assert (H1 : isConnected (connected_service rt) = true) by (vm_compute; reflexivity).
  assert (H2 : socket (connected_service rt) = Some 0) by (vm_compute; reflexivity).
  assert (H3 : state_of 0 (connected_service rt) = Some OPEN) by (vm_compute; reflexivity).
  assert (H4 : default [] (messageHandlers (connected_service rt) !! "client_list") = [])
    by (vm_compute; reflexivity).
  pose proof (getClients_reply rt None (connected_service rt) 0 [] H1 H2 H3 eq_refl H4
                (Forall_nil_2 _)) as (_ & Hreply & Htimeout & _).
  specialize (Hreply "frame" (client_list_frame clients) eq_refl eq_refl) as (Hr & _).
  split; [exact Hr | exact Htimeout].
Defined.

(** C2, as stated, fails: a [clients] field that is present but falsy is
    replaced by an empty object, and the timeout removes the handler of the
    call only, so a handler registered by a caller stays. *)
Lemma getClients_falsy_clients :
  let rt := browser (Some (client_list_frame JNull)) in
  let st := ws_message rt 0 "frame" (getClients rt None (connected_service rt)) in
  let timed_out :=
    run rt [CallOnMessage "client_list" 7 UReturn; CallGetClients None; TimerFires 2]
      (connected_service rt) in
  get_field "clients" (client_list_frame JNull) = Some JNull /\
  promise_state 1 st = Some (Fulfilled (Some (JObj []))) /\
  JObj [] <> JNull /\
  promise_state 1 timed_out
    = Some (Rejected (MkError "Timeout waiting for client_list response")) /\
  messageHandlers timed_out !! "client_list" = Some [HUser 7 UReturn].
Proof. vm_compute. repeat split; discriminate. Qed.

(** * A promise settles once *)

Create HintDb settle.

Section SettleOnce.

Variable rt : Runtime.

Lemma settled_refl st : settled_preserved st st.
Proof. by intros p s Hp _. Qed.

Lemma settled_trans st1 st2 st3 :
  settled_preserved st1 st2 -> settled_preserved st2 st3 -> settled_preserved st1 st3.
Proof. intros H12 H23 p s Hp Hs. apply H23; [by apply H12 | done]. Qed.

(** Steps that leave the promises alone. *)
Lemma settled_same st x y :
  promises y = promises x -> settled_preserved st x -> settled_preserved st y.
Proof. intros He H p s Hp Hs. rewrite He. by apply H. Qed.

Lemma settled_new_promise st x :
  settled_preserved st x -> settled_preserved st (new_promise x).
Proof.
  intros H p s Hp Hs. cbn. apply lookup_app_l_Some. by apply H.
Qed.

Lemma settled_insert_pending st x pid b s' ps :
  promises x !! pid = Some {| p_state := Pending; p_backoff := b |} ->
  ps = <[pid := s']> (promises x) ->
  settled_preserved st x ->
  forall y, promises y = ps -> settled_preserved st y.
Proof.
  intros Hpid -> H y Hy p s Hp Hs. rewrite Hy.
  destruct (decide (p = pid)) as [-> | Hne].
  - pose proof (H _ _ Hp Hs) as Hx. rewrite Hpid in Hx. injection Hx as <-. done.
  - rewrite list_lookup_insert_ne by done. by apply H.
Qed.

Lemma settled_resolve st x pid v :
  settled_preserved st x -> settled_preserved st (resolve pid v x).
Proof.
  intros H. unfold resolve.
  destruct (promises x !! pid) as [[[] b]|] eqn:Hp; try done.
  eapply settled_insert_pending; [exact Hp | reflexivity | exact H | reflexivity].
Qed.

Lemma settled_reject st x pid e :
  settled_preserved st x -> settled_preserved st (reject pid e x).
Proof.
  intros H. unfold reject.
  destruct (promises x !! pid) as [[[] b]|] eqn:Hp; try done.
  destruct b;
    (eapply settled_insert_pending; [exact Hp | reflexivity | exact H | reflexivity]).
Qed.

Lemma settled_catch_backoff st x pid :
  settled_preserved st x -> settled_preserved st (catch_backoff pid x).
Proof.
  intros H. unfold catch_backoff.
  destruct (promises x !! pid) as [[[] b]|] eqn:Hp; try done.
  eapply settled_insert_pending; [exact Hp | reflexivity | exact H | reflexivity].
Qed.


(** A step [f] that does not touch the promises. *)
Lemma settled_frame (f : State -> State) st x :
  (forall y, promises (f y) = promises y) ->
  settled_preserved st x -> settled_preserved st (f x).
Proof. intros Hf H. by apply (settled_same st x). Qed.

End SettleOnce.

#[export] Hint Resolve settled_refl settled_new_promise settled_resolve
  settled_reject settled_catch_backoff : settle.
#[export] Hint Extern 3 (settled_preserved _ (?f ?x)) =>
  apply (settled_frame f); [intros; reflexivity |] : settle.

(** Case analysis on the branches of the code, then the hints. *)
Ltac settle :=
  repeat case_match; simplify_eq/=; eauto 30 with settle.

Section SettleOnceOps.

Variable rt : Runtime.

Lemma settled_offMessage st x messageType handler :
  settled_preserved st x -> settled_preserved st (offMessage messageType handler x).
Proof. intros H. unfold offMessage. settle. Qed.

Lemma settled_ws_close st x sid args :
  settled_preserved st x -> settled_preserved st (ws_close rt sid args x).2.
Proof. intros H. unfold ws_close. settle. Qed.

Lemma settled_disconnect st x :
  settled_preserved st x -> settled_preserved st (disconnect rt x).
Proof.
  intros H. eapply settled_same; [| exact H].
  by destruct (disconnect_unchanged rt x) as (_ & -> & _).
Qed.

Lemma settled_scheduleReconnect st x :
  settled_preserved st x -> settled_preserved st (scheduleReconnect x).
Proof. intros H. unfold scheduleReconnect. settle. Qed.

Lemma settled_send st x message :
  settled_preserved st x -> settled_preserved st (send rt message x).
Proof. intros H. unfold send. settle. Qed.

End SettleOnceOps.

#[export] Hint Resolve settled_offMessage settled_disconnect
  settled_scheduleReconnect settled_send : settle.

Section SettleOnceStep.

Variable rt : Runtime.

Lemma settled_run_handler st x handler data :
  settled_preserved st x -> settled_preserved st (run_handler handler data x).2.
Proof. intros H. unfold run_handler. settle. Qed.

Lemma settled_forEach_handler n : forall k messageType data st x,
  settled_preserved st x ->
  settled_preserved st (forEach_handler n k messageType data x).
Proof.
  induction n as [| n IH]; intros k messageType data st x H; [done |].
  cbn [forEach_handler]. apply IH.
  destruct (messageHandlers x !! messageType ≫= _) as [h|]; [| done].
  pose proof (settled_run_handler st (log [HandlerRan h data] x) h data) as Hr.
  destruct (run_handler h data _) as [[e|] x']; cbn in Hr; settle.
Qed.

Lemma settled_handleMessage st x data :
  settled_preserved st x -> settled_preserved st (handleMessage data x).2.
Proof.
  intros H. unfold handleMessage.
  repeat case_match; simplify_eq/=; try done.
  by apply settled_forEach_handler.
Qed.

Lemma settled_connect st x serverUrl options :
  settled_preserved st x -> settled_preserved st (connect rt serverUrl options x).
Proof. intros H. unfold connect. settle. Qed.

Lemma settled_connectionTimeout_fired st x pid :
  settled_preserved st x -> settled_preserved st (connectionTimeout_fired rt pid x).
Proof.
  intros H. unfold connectionTimeout_fired, ws_close. settle.
Qed.

Lemma settled_onopen st x ws :
  settled_preserved st x -> settled_preserved st (onopen ws x).
Proof. intros H. unfold onopen. settle. Qed.

Lemma settled_onmessage st x rawData :
  settled_preserved st x -> settled_preserved st (onmessage rt rawData x).
Proof.
  intros H. unfold onmessage.
  destruct (JSON_parse rt rawData) as [data|]; [| settle].
  pose proof (settled_handleMessage st x data H) as Hh.
  destruct (handleMessage data x) as [[e|] x']; cbn in Hh; settle.
Qed.

Lemma settled_onclose st x ws code reason wasClean :
  settled_preserved st x -> settled_preserved st (onclose ws code reason wasClean x).
Proof. intros H. unfold onclose. settle. Qed.

Lemma settled_onerror st x :
  settled_preserved st x -> settled_preserved st (onerror x).
Proof. intros H. unfold onerror. settle. Qed.

Lemma settled_reconnect_fired st x :
  settled_preserved st x -> settled_preserved st (reconnect_fired rt x).
Proof.
  intros H. unfold reconnect_fired. apply settled_catch_backoff, settled_connect.
  settle.
Qed.

Lemma settled_requestTimeout_fired st x op pid tid :
  settled_preserved st x -> settled_preserved st (requestTimeout_fired op pid tid x).
Proof. intros H. unfold requestTimeout_fired. settle. Qed.

Lemma settled_request st x op message timeout pid :
  settled_preserved st x -> settled_preserved st (request rt op message timeout pid x).
Proof.
  intros H. unfold request.
  set (y := send rt message _).
  assert (Hy : settled_preserved st y) by (subst y; settle).
  clearbody y. settle.
Qed.

End SettleOnceStep.

#[export] Hint Resolve settled_connect settled_connectionTimeout_fired
  settled_onopen settled_onmessage settled_onclose settled_onerror
  settled_reconnect_fired settled_requestTimeout_fired settled_request : settle.

Section SettleOnceRun.

Variable rt : Runtime.

Lemma settled_step ev st x :
  settled_preserved st x -> settled_preserved st (step rt ev x).
Proof.
  intros H. destruct ev; cbn [step].
  all: unfold getClients, getPresets, updateDisplay, savePreset, loadPreset,
         Promise_reject, ws_open, ws_message, ws_error, ws_closed, timer_fires,
         addEventListener, removeEventListener.
  all: settle.
Qed.

Lemma settled_run evs : forall st x,
  settled_preserved st x -> settled_preserved st (run rt evs x).
Proof.
  induction evs as [| ev evs IH]; intros st x H; [done |].
  cbn. apply IH. by apply settled_step.
Qed.

Lemma run_app evs1 evs2 st :
  run rt (evs1 ++ evs2) st = run rt evs2 (run rt evs1 st).
Proof. unfold run. apply foldl_app. Qed.

End SettleOnceRun.

(** * The identifiers of a connection attempt stay its own *)

Create HintDb refs.

Section Refs.

Variables pid tid sid : nat.

#[local] Abbreviation refs := (refs_inv pid tid sid).
#[local] Abbreviation good_h := (good_handler pid tid).
#[local] Abbreviation good_cb := (good_callback pid).

(** Steps that touch none of the promises, timers, WebSockets, handlers and
    reconnection timer. *)
Lemma refs_frame (f : State -> State) x :
  (forall y, promises (f y) = promises y /\ next_timer (f y) = next_timer y /\
             sockets (f y) = sockets y /\ messageHandlers (f y) = messageHandlers y /\
             timers (f y) = timers y /\ reconnectTimeout (f y) = reconnectTimeout y) ->
  refs x -> refs (f x).
Proof.
  intros Hf H. destruct (Hf x) as (Hp & Hn & Hs & Hm & Ht & Hr).
  unfold refs_inv. by rewrite Hp, Hn, Hs, Hm, Ht, Hr.
Qed.

Lemma refs_fresh_promise x : refs x -> length (promises x) <> pid.
Proof. intros ((H & _) & _). lia. Qed.

Lemma refs_fresh_timer x : refs x -> next_timer x <> tid.
Proof. intros ((_ & H & _) & _). lia. Qed.

Lemma refs_new_promise x : refs x -> refs (new_promise x).
Proof.
  intros ((Hp & Hn & Hs) & H). split; [| exact H].
  cbn. rewrite length_app. cbn. lia.
Qed.

Lemma refs_set_promises_insert x p s :
  refs x -> refs (set_promises (<[p := s]> (promises x)) x).
Proof.
  intros ((Hp & Hn & Hs) & H). split; [| exact H].
  cbn. rewrite length_insert. lia.
Qed.

Lemma refs_backoff x : refs x -> refs (backoff x).
Proof. intros H. exact H. Qed.

Lemma refs_resolve x p v : refs x -> refs (resolve p v x).
Proof.
  intros H. unfold resolve. repeat case_match; try done.
  by apply refs_set_promises_insert.
Qed.

Lemma refs_reject x p e : refs x -> refs (reject p e x).
Proof.
  intros H. unfold reject. repeat case_match; try done.
  - apply refs_backoff. by apply refs_set_promises_insert.
  - by apply refs_set_promises_insert.
Qed.

Lemma refs_catch_backoff x p : refs x -> refs (catch_backoff p x).
Proof.
  intros H. unfold catch_backoff. repeat case_match; try done.
  by apply refs_set_promises_insert.
Qed.

Lemma refs_setTimeout x cb d :
  refs x -> good_cb cb -> refs (setTimeout cb d x).
Proof.
  intros ((Hp & Hn & Hs) & Hh & Ht & Hso & Hr) Hcb.
  split; [cbn; lia |]. split; [exact Hh |]. split; [| done].
  intros t T. cbn. rewrite lookup_insert. case_decide as Hk.
  - intros [= <-]. unfold good_timer. destruct (decide _); [lia | done].
  - apply Ht.
Qed.

Lemma refs_clearTimeout x t : refs x -> refs (clearTimeout t x).
Proof.
  intros (Hb & Hh & Ht & Hso & Hr).
  split; [exact Hb |]. split; [exact Hh |]. split; [| done].
  intros t' T. cbn. rewrite lookup_delete. case_decide; [done | apply Ht].
Qed.

Lemma refs_onMessage x messageType handler :
  refs x -> good_h handler -> refs (onMessage messageType handler x).
Proof.
  intros (Hb & Hh & Ht) Hg. split; [exact Hb |]. split; [| exact Ht].
  intros mt hs h. cbn. rewrite lookup_insert. case_decide as Hk.
  - intros [= <-]. rewrite elem_of_app, list_elem_of_singleton.
    intros [Hin | ->]; [| done].
    destruct (messageHandlers x !! messageType) as [hs|] eqn:Hm; cbn in Hin.
    + by eapply Hh.
    + by apply not_elem_of_nil in Hin.
  - apply Hh.
Qed.

Lemma elem_of_remove_registered {A} `{EqDecision A} (x y : A) (l : list A) :
  y ∈ remove_registered x l -> y ∈ l.
Proof.
  unfold remove_registered. destruct (indexOf x l) as [i|]; [| done].
  apply list_elem_of_delete_inv.
Qed.

Lemma refs_remove_handler x messageType handler handlers :
  messageHandlers x !! messageType = Some handlers ->
  refs x ->
  refs (set_messageHandlers
              (<[messageType := remove_registered handler handlers]> (messageHandlers x)) x).
Proof.
  intros Hm (Hb & Hh & Ht). split; [exact Hb |]. split; [| exact Ht].
  intros mt hs h. cbn. rewrite lookup_insert. case_decide as Hk.
  - intros [= <-] Hin. apply elem_of_remove_registered in Hin. by eapply Hh.
  - apply Hh.
Qed.

Lemma refs_new_socket x ws :
  refs x -> ws_promise ws <> pid -> ws_timer ws <> tid ->
  refs (set_sockets (sockets x ++ [ws]) x).
Proof.
  intros ((Hp & Hn & Hs) & Hh & Ht & Hso & Hr) Hwp Hwt.
  split; [cbn; rewrite length_app; cbn; lia |].
  split; [exact Hh |]. split; [exact Ht |]. split; [| exact Hr].
  intros sid' ws'. cbn. intros Hl.
  apply lookup_app_Some in Hl as [Hl | [Hge Hl]]; [by apply Hso |].
  destruct (sid' - length (sockets x)) eqn:Hd; cbn in Hl; [| done].
  injection Hl as <-. unfold good_socket. destruct (decide _); [lia | done].
Qed.

(** A change of [readyState] keeps the closure of the WebSocket. *)
Lemma refs_alter_socket x i (f : WebSocket -> WebSocket) :
  (forall ws, ws_promise (f ws) = ws_promise ws /\ ws_timer (f ws) = ws_timer ws) ->
  refs x -> refs (set_sockets (alter f i (sockets x)) x).
Proof.
  intros Hf ((Hp & Hn & Hs) & Hh & Ht & Hso & Hr).
  split; [cbn; rewrite length_alter; lia |].
  split; [exact Hh |]. split; [exact Ht |]. split; [| exact Hr].
  intros sid' ws'. cbn. rewrite list_lookup_alter. case_decide as Hk.
  - subst. destruct (sockets x !! sid') as [ws|] eqn:Hl; [| done].
    cbn. intros [= <-]. specialize (Hso _ _ Hl). destruct (Hf ws) as [Hfp Hft].
    unfold good_socket in *. by rewrite Hfp, Hft.
  - apply Hso.
Qed.

Lemma refs_insert_socket x i ws r :
  sockets x !! i = Some ws ->
  refs x -> refs (set_sockets (<[i := set_readyState r ws]> (sockets x)) x).
Proof.
  intros Hl ((Hp & Hn & Hs) & Hh & Ht & Hso & Hr).
  split; [cbn; rewrite length_insert; lia |].
  split; [exact Hh |]. split; [exact Ht |]. split; [| exact Hr].
  intros sid' ws'. cbn. intros Hl'.
  apply list_lookup_insert_Some in Hl' as [(-> & <- & _) | [_ Hl']].
  - specialize (Hso _ _ Hl). exact Hso.
  - by apply Hso.
Qed.

Lemma refs_set_reconnectTimeout x o :
  refs x -> o <> Some tid -> refs (set_reconnectTimeout o x).
Proof. intros (Hb & Hh & Ht & Hso & Hr) Ho. done. Qed.

End Refs.

Lemma Some_ne {A} (a b : A) : a <> b -> Some a <> Some b.
Proof. congruence. Qed.

Lemma closing_closure ws :
  ws_promise (closing ws) = ws_promise ws /\ ws_timer (closing ws) = ws_timer ws.
Proof. unfold closing. by destruct (readyState ws). Qed.

#[export] Hint Resolve refs_new_promise refs_resolve refs_reject refs_catch_backoff
  refs_setTimeout refs_clearTimeout refs_onMessage refs_new_socket
  refs_alter_socket refs_insert_socket refs_set_reconnectTimeout
  refs_remove_handler refs_fresh_promise refs_fresh_timer Some_ne
  closing_closure : refs.
#[export] Hint Extern 3 (refs_inv _ _ _ (?f ?x)) =>
  apply (refs_frame _ _ _ f); [intros; repeat split; reflexivity |] : refs.
#[export] Hint Extern 1 (good_handler _ _ _) =>
  cbn [good_handler]; try split; try exact I : refs.
#[export] Hint Extern 1 (good_callback _ _) => cbn [good_callback]; try exact I : refs.
#[export] Hint Extern 1 (ws_promise _ <> _) => progress cbn [ws_promise] : refs.
#[export] Hint Extern 1 (ws_timer _ <> _) => progress cbn [ws_timer] : refs.
#[export] Hint Extern 1 (None <> Some _) => discriminate : refs.

(** Case analysis on the branches of the code, then the hints. *)
Ltac refs :=
  cbn zeta; repeat case_match; simplify_eq; cbn [fst snd]; eauto 40 with refs.

Section RefsOps.

Variable rt : Runtime.
Variables pid tid sid : nat.

#[local] Abbreviation refs := (refs_inv pid tid sid).

Lemma refs_offMessage x messageType handler :
  refs x -> refs (offMessage messageType handler x).
Proof. intros H. unfold offMessage. refs. Qed.

Lemma refs_ws_close x i args : refs x -> refs (ws_close rt i args x).2.
Proof. intros H. unfold ws_close. refs. Qed.

Lemma refs_disconnect x : refs x -> refs (disconnect rt x).
Proof.
  intros H. unfold disconnect.
  pose proof (refs_ws_close x) as Hc.
  destruct (socket x) as [c|]; [| refs].
  destruct (decide _); [| refs].
  specialize (Hc c (Some (1000%Z, "Disconnected by client")) H).
  destruct (ws_close rt c _ x) as [[e|] x']; cbn [snd] in Hc; refs.
Qed.

Lemma refs_scheduleReconnect x : refs x -> refs (scheduleReconnect x).
Proof. intros H. unfold scheduleReconnect. refs. Qed.

Lemma refs_send x message : refs x -> refs (send rt message x).
Proof. intros H. unfold send. refs. Qed.

End RefsOps.

#[export] Hint Resolve refs_offMessage refs_disconnect refs_scheduleReconnect
  refs_send : refs.

Section RefsStep.

Variable rt : Runtime.
Variables pid tid sid : nat.

#[local] Abbreviation refs := (refs_inv pid tid sid).

Lemma refs_run_handler x handler data : refs x -> refs (run_handler handler data x).2.
Proof. intros H. unfold run_handler. refs. Qed.

Lemma refs_forEach_handler n : forall k messageType data x,
  refs x -> refs (forEach_handler n k messageType data x).
Proof.
  induction n as [| n IH]; intros k messageType data x H; [done |].
  cbn [forEach_handler]. apply IH.
  destruct (messageHandlers x !! messageType ≫= _) as [h|]; [| done].
  pose proof (refs_run_handler (log [HandlerRan h data] x) h data) as Hr.
  destruct (run_handler h data _) as [[e|] x']; cbn [snd] in Hr; refs.
Qed.

Lemma refs_handleMessage x data : refs x -> refs (handleMessage data x).2.
Proof.
  intros H. unfold handleMessage.
  repeat case_match; simplify_eq; cbn [snd]; try done.
  by apply refs_forEach_handler.
Qed.

Lemma refs_connect x serverUrl options : refs x -> refs (connect rt serverUrl options x).
Proof. intros H. unfold connect. refs. Qed.

Lemma refs_connectionTimeout_fired x p : refs x -> refs (connectionTimeout_fired rt p x).
Proof. intros H. unfold connectionTimeout_fired, ws_close. refs. Qed.

Lemma refs_onopen x ws : refs x -> refs (onopen ws x).
Proof. intros H. unfold onopen. refs. Qed.

Lemma refs_onmessage x rawData : refs x -> refs (onmessage rt rawData x).
Proof.
  intros H. unfold onmessage.
  destruct (JSON_parse rt rawData) as [data|]; [| refs].
  pose proof (refs_handleMessage x data H) as Hh.
  destruct (handleMessage data x) as [[e|] x']; cbn [snd] in Hh; refs.
Qed.

Lemma refs_onclose x ws code reason wasClean :
  refs x -> refs (onclose ws code reason wasClean x).
Proof. intros H. unfold onclose. refs. Qed.

Lemma refs_onerror x : refs x -> refs (onerror x).
Proof. intros H. unfold onerror. refs. Qed.

Lemma refs_reconnect_fired x : refs x -> refs (reconnect_fired rt x).
Proof.
  intros H. unfold reconnect_fired. apply refs_catch_backoff, refs_connect. refs.
Qed.

Lemma refs_requestTimeout_fired x op p t :
  refs x -> refs (requestTimeout_fired op p t x).
Proof. intros H. unfold requestTimeout_fired. refs. Qed.

Lemma refs_request x op message timeout p :
  refs x -> p <> pid -> refs (request rt op message timeout p x).
Proof.
  intros H Hp. unfold request.
  set (y := send rt message _).
  assert (Hy : refs y) by (subst y; refs).
  clearbody y. refs.
Qed.

End RefsStep.

#[export] Hint Resolve refs_connect refs_connectionTimeout_fired refs_onopen
  refs_onmessage refs_onclose refs_onerror refs_reconnect_fired
  refs_requestTimeout_fired refs_request : refs.

Section RefsRun.

Variable rt : Runtime.
Variables pid tid sid : nat.

Lemma refs_step ev x :
  refs_inv pid tid sid x -> refs_inv pid tid sid (step rt ev x).
Proof.
  intros H. destruct ev; cbn [step].
  all: unfold getClients, getPresets, updateDisplay, savePreset, loadPreset,
         Promise_reject, ws_open, ws_message, ws_error, ws_closed, timer_fires,
         addEventListener, removeEventListener.
  all: refs.
Qed.

End RefsRun.

(** * An undecided attempt stays undecided until its own events *)

Create HintDb alive.

Section Alive.

Variables pid tid sid : nat.

#[local] Abbreviation live := (alive pid tid sid).

Lemma alive_refs x : live x -> refs_inv pid tid sid x.
Proof. by intros [H _]. Qed.

Lemma alive_frame (f : State -> State) x :
  (forall y, promises (f y) = promises y /\ next_timer (f y) = next_timer y /\
             sockets (f y) = sockets y /\ messageHandlers (f y) = messageHandlers y /\
             timers (f y) = timers y /\ reconnectTimeout (f y) = reconnectTimeout y) ->
  live x -> live (f x).
Proof.
  intros Hf (Hr & Ht & Hp). split; [by apply refs_frame |].
  destruct (Hf x) as (-> & _ & _ & _ & -> & _). done.
Qed.

(** Changes of the WebSockets alone. *)
Lemma alive_sockets x ss :
  refs_inv pid tid sid (set_sockets ss x) -> live x -> live (set_sockets ss x).
Proof. intros Hr (_ & Ht & Hp). done. Qed.

Lemma alive_handlers x hs :
  refs_inv pid tid sid (set_messageHandlers hs x) -> live x ->
  live (set_messageHandlers hs x).
Proof. intros Hr (_ & Ht & Hp). done. Qed.

Lemma alive_set_reconnectTimeout x o :
  live x -> o <> Some tid -> live (set_reconnectTimeout o x).
Proof.
  intros (Hr & Ht & Hp) Ho. split; [by apply refs_set_reconnectTimeout | done].
Qed.

Lemma alive_new_promise x : live x -> live (new_promise x).
Proof.
  intros (Hr & Ht & b & Hp). split; [by apply refs_new_promise |].
  split; [done |]. exists b. cbn. by apply lookup_app_l_Some.
Qed.

Lemma alive_insert_promise x p s :
  live x -> p <> pid -> live (set_promises (<[p := s]> (promises x)) x).
Proof.
  intros (Hr & Ht & b & Hp) Hne. split; [by apply refs_set_promises_insert |].
  split; [done |]. exists b. cbn. by rewrite list_lookup_insert_ne.
Qed.

Lemma alive_resolve x p v : live x -> p <> pid -> live (resolve p v x).
Proof.
  intros H Hne. unfold resolve. repeat case_match; try done.
  by apply alive_insert_promise.
Qed.

Lemma alive_reject x p e : live x -> p <> pid -> live (reject p e x).
Proof.
  intros H Hne. unfold reject. repeat case_match; try done.
  - apply (alive_frame backoff); [done |]. by apply alive_insert_promise.
  - by apply alive_insert_promise.
Qed.

Lemma alive_catch_backoff x p : live x -> live (catch_backoff p x).
Proof.
  intros H. unfold catch_backoff.
  destruct (promises x !! p) as [[[] b]|] eqn:Hp; try done.
  destruct (decide (p = pid)) as [-> | Hne]; [| by apply alive_insert_promise].
  destruct H as (Hr & Ht & b' & Hp'). split; [by apply refs_set_promises_insert |].
  split; [done |]. exists true. cbn.
  rewrite list_lookup_insert_eq; [done | by eapply lookup_lt_Some].
Qed.

Lemma alive_setTimeout x cb d :
  live x -> good_callback pid cb -> live (setTimeout cb d x).
Proof.
  intros (Hr & Ht & Hp) Hcb. split; [by apply refs_setTimeout |].
  split; [| done]. cbn. rewrite lookup_insert. by case_decide.
Qed.

Lemma alive_clearTimeout x t : live x -> t <> tid -> live (clearTimeout t x).
Proof.
  intros (Hr & Ht & Hp) Hne. split; [by apply refs_clearTimeout |].
  split; [| done]. cbn. by rewrite lookup_delete_ne.
Qed.

Lemma alive_onMessage x messageType handler :
  live x -> good_handler pid tid handler -> live (onMessage messageType handler x).
Proof. intros (Hr & Ht & Hp) Hg. split; [by apply refs_onMessage | done]. Qed.

Lemma alive_new_socket x ws :
  live x -> ws_promise ws <> pid -> ws_timer ws <> tid ->
  live (set_sockets (sockets x ++ [ws]) x).
Proof. intros H Hp Ht. apply alive_sockets; [| done]. apply refs_new_socket; by try apply H. Qed.

Lemma alive_alter_socket x i (f : WebSocket -> WebSocket) :
  (forall ws, ws_promise (f ws) = ws_promise ws /\ ws_timer (f ws) = ws_timer ws) ->
  live x -> live (set_sockets (alter f i (sockets x)) x).
Proof. intros Hf H. apply alive_sockets; [| done]. apply refs_alter_socket; by try apply H. Qed.

Lemma alive_insert_socket x i ws r :
  sockets x !! i = Some ws ->
  live x -> live (set_sockets (<[i := set_readyState r ws]> (sockets x)) x).
Proof. intros Hl H. apply alive_sockets; [| done]. apply refs_insert_socket; by try apply H. Qed.

Lemma alive_remove_handler x messageType handler handlers :
  messageHandlers x !! messageType = Some handlers ->
  live x ->
  live (set_messageHandlers
          (<[messageType := remove_registered handler handlers]> (messageHandlers x)) x).
Proof.
  intros Hm H. apply alive_handlers; [| done]. apply refs_remove_handler; by try apply H.
Qed.

(** What the references of an undecided attempt exclude. *)
Lemma alive_fresh_promise x : live x -> length (promises x) <> pid.
Proof. intros [H _]. by eapply refs_fresh_promise. Qed.

Lemma alive_fresh_timer x : live x -> next_timer x <> tid.
Proof. intros [H _]. by eapply refs_fresh_timer. Qed.

Lemma alive_reconnect_ne x t : live x -> reconnectTimeout x = Some t -> t <> tid.
Proof. intros ((_ & _ & _ & _ & Hr) & _) Ht ->. done. Qed.

Lemma alive_handler_good x messageType k handler :
  live x ->
  messageHandlers x !! messageType ≫= (fun handlers => handlers !! k) = Some handler ->
  good_handler pid tid handler.
Proof.
  intros ((_ & Hh & _) & _) Hl.
  destruct (messageHandlers x !! messageType) as [hs|] eqn:Hm; [| done].
  cbn in Hl. eapply Hh; [exact Hm | by eapply list_elem_of_lookup_2].
Qed.

End Alive.

#[export] Hint Resolve alive_new_promise alive_resolve alive_reject
  alive_catch_backoff alive_setTimeout alive_clearTimeout alive_onMessage
  alive_set_reconnectTimeout alive_fresh_promise alive_fresh_timer
  Some_ne : alive.
#[export] Hint Extern 1 (?t <> _) =>
  match goal with
  | H : reconnectTimeout ?y = Some t |- _ =>
      eapply (alive_reconnect_ne _ _ _ y t); [| exact H]
  end : alive.
#[export] Hint Extern 3 (alive _ _ _ (?f ?x)) =>
  apply (alive_frame _ _ _ f); [intros; repeat split; reflexivity |] : alive.
#[export] Hint Resolve alive_new_socket alive_alter_socket alive_insert_socket
  alive_remove_handler closing_closure : alive.
#[export] Hint Extern 1 (ws_promise _ <> _) => progress cbn [ws_promise] : alive.
#[export] Hint Extern 1 (ws_timer _ <> _) => progress cbn [ws_timer] : alive.
#[export] Hint Extern 1 (good_handler _ _ _) =>
  cbn [good_handler]; try split; try exact I : alive.
#[export] Hint Extern 1 (good_callback _ _) => cbn [good_callback]; try exact I : alive.
#[export] Hint Extern 1 (None <> Some _) => discriminate : alive.

Ltac alive :=
  cbn zeta; repeat case_match; simplify_eq; cbn [fst snd]; eauto 40 with alive.

Section AliveOps.

Variable rt : Runtime.
Variables pid tid sid : nat.

#[local] Abbreviation live := (alive pid tid sid).

Lemma alive_offMessage x messageType handler :
  live x -> live (offMessage messageType handler x).
Proof. intros H. unfold offMessage. alive. Qed.

Lemma alive_ws_close x i args : live x -> live (ws_close rt i args x).2.
Proof. intros H. unfold ws_close. alive. Qed.

Lemma alive_disconnect x : live x -> live (disconnect rt x).
Proof.
  intros H. unfold disconnect.
  pose proof (alive_ws_close x) as Hc.
  destruct (socket x) as [c|]; [| alive].
  destruct (decide _); [| alive].
  specialize (Hc c (Some (1000%Z, "Disconnected by client")) H).
  destruct (ws_close rt c _ x) as [[e|] x']; cbn [snd] in Hc; alive.
Qed.

Lemma alive_scheduleReconnect x : live x -> live (scheduleReconnect x).
Proof. intros H. unfold scheduleReconnect. alive. Qed.

Lemma alive_send x message : live x -> live (send rt message x).
Proof. intros H. unfold send. alive. Qed.

End AliveOps.

#[export] Hint Resolve alive_offMessage alive_disconnect alive_scheduleReconnect
  alive_send : alive.

Section AliveStep.

Variable rt : Runtime.
Variables pid tid sid : nat.

#[local] Abbreviation live := (alive pid tid sid).

Lemma alive_run_handler x handler data :
  live x -> good_handler pid tid handler -> live (run_handler handler data x).2.
Proof.
  intros H Hg. unfold run_handler.
  destruct handler as [op p t | fid b]; [destruct Hg as [Hp Ht] |]; alive.
Qed.

Lemma alive_forEach_handler n : forall k messageType data x,
  live x -> live (forEach_handler n k messageType data x).
Proof.
  induction n as [| n IH]; intros k messageType data x H; [done |].
  cbn [forEach_handler]. apply IH.
  destruct (messageHandlers x !! messageType ≫= _) as [h|] eqn:Hl; [| done].
  pose proof (alive_run_handler (log [HandlerRan h data] x) h data) as Hr.
  assert (Hg : good_handler pid tid h) by (by eapply alive_handler_good).
  destruct (run_handler h data _) as [[e|] x']; cbn [snd] in Hr; alive.
Qed.

Lemma alive_handleMessage x data : live x -> live (handleMessage data x).2.
Proof.
  intros H. unfold handleMessage.
  repeat case_match; simplify_eq; cbn [snd]; try done.
  by apply alive_forEach_handler.
Qed.

Lemma alive_connect x serverUrl options : live x -> live (connect rt serverUrl options x).
Proof. intros H. unfold connect. alive. Qed.

Lemma alive_connectionTimeout_fired x p :
  live x -> p <> pid -> live (connectionTimeout_fired rt p x).
Proof. intros H Hp. unfold connectionTimeout_fired, ws_close. alive. Qed.

Lemma alive_onopen x ws :
  live x -> ws_promise ws <> pid -> ws_timer ws <> tid -> live (onopen ws x).
Proof. intros H Hp Ht. unfold onopen. alive. Qed.

Lemma alive_onmessage x rawData : live x -> live (onmessage rt rawData x).
Proof.
  intros H. unfold onmessage.
  destruct (JSON_parse rt rawData) as [data|]; [| alive].
  pose proof (alive_handleMessage x data H) as Hh.
  destruct (handleMessage data x) as [[e|] x']; cbn [snd] in Hh; alive.
Qed.

Lemma alive_onclose x ws code reason wasClean :
  live x -> ws_timer ws <> tid -> live (onclose ws code reason wasClean x).
Proof. intros H Ht. unfold onclose. alive. Qed.

Lemma alive_onerror x : live x -> live (onerror x).
Proof. intros H. unfold onerror. alive. Qed.

Lemma alive_reconnect_fired x : live x -> live (reconnect_fired rt x).
Proof.
  intros H. unfold reconnect_fired. apply alive_catch_backoff, alive_connect. alive.
Qed.

Lemma alive_requestTimeout_fired x op p t :
  live x -> p <> pid -> live (requestTimeout_fired op p t x).
Proof. intros H Hp. unfold requestTimeout_fired. alive. Qed.

Lemma alive_request x op message timeout p :
  live x -> p <> pid -> live (request rt op message timeout p x).
Proof.
  intros H Hp. unfold request.
  set (y := send rt message _).
  assert (Hy : live y) by (subst y; alive).
  assert (Ht : next_timer x <> tid) by (by eapply alive_fresh_timer).
  clearbody y. alive.
Qed.

End AliveStep.

#[export] Hint Resolve alive_connect alive_connectionTimeout_fired alive_onopen
  alive_onmessage alive_onclose alive_onerror alive_reconnect_fired
  alive_requestTimeout_fired alive_request : alive.

Section AliveRun.

Variable rt : Runtime.
Variables pid tid sid : nat.

Lemma alive_step ev x :
  alive pid tid sid x -> ~ own_event tid sid ev -> alive pid tid sid (step rt ev x).
Proof.
  intros H Hev. destruct ev; cbn [step own_event] in *.
  all: unfold getClients, getPresets, updateDisplay, savePreset, loadPreset,
         Promise_reject, ws_open, ws_message, ws_error, ws_closed, timer_fires,
         addEventListener, removeEventListener.
  all: try (alive; fail).
  - (* open of another WebSocket *)
    destruct (sockets x !! sid0) as [ws|] eqn:Hs; [| done].
    destruct (decide _); [| done].
    pose proof H as ((_ & _ & _ & Hso & _) & _). specialize (Hso _ _ Hs).
    unfold good_socket in Hso. destruct (decide (sid0 = sid)); [done |].
    destruct Hso. alive.
  - (* close of another WebSocket *)
    destruct (sockets x !! sid0) as [ws|] eqn:Hs; [| done].
    destruct (decide _); [done |].
    pose proof H as ((_ & _ & _ & Hso & _) & _). specialize (Hso _ _ Hs).
    unfold good_socket in Hso. destruct (decide (sid0 = sid)); [done |].
    destruct Hso. alive.
  - (* another timer *)
    destruct (timers x !! tid0) as [T|] eqn:Ht; [| done].
    pose proof H as ((_ & _ & Hti & _) & _). specialize (Hti _ _ Ht).
    unfold good_timer in Hti. destruct (decide (tid0 = tid)); [done |].
    destruct (t_callback T); cbn in Hti; alive.
Qed.

End AliveRun.

(** * The socket handle and the connecting WebSocket *)

Create HintDb conn.

Section SameConn.

Lemma same_conn_refl st : same_conn st st.
Proof. done. Qed.

Lemma same_conn_frame (f : State -> State) st x :
  (forall y, socket (f y) = socket y /\ isConnected (f y) = isConnected y /\
             sockets (f y) = sockets y) ->
  same_conn st x -> same_conn st (f x).
Proof.
  intros Hf (H1 & H2 & H3). unfold same_conn.
  destruct (Hf x) as (-> & -> & ->). done.
Qed.

Lemma same_conn_resolve st x p v : same_conn st x -> same_conn st (resolve p v x).
Proof. intros H. unfold resolve. by repeat case_match. Qed.

Lemma same_conn_reject st x p e : same_conn st x -> same_conn st (reject p e x).
Proof. intros H. unfold reject. by repeat case_match. Qed.

Lemma same_conn_catch_backoff st x p : same_conn st x -> same_conn st (catch_backoff p x).
Proof. intros H. unfold catch_backoff. by repeat case_match. Qed.

End SameConn.

#[export] Hint Resolve same_conn_refl same_conn_resolve same_conn_reject
  same_conn_catch_backoff : conn.
#[export] Hint Extern 3 (same_conn _ (?f ?x)) =>
  apply (same_conn_frame f); [intros; repeat split; reflexivity |] : conn.

Ltac conn :=
  cbn zeta; repeat case_match; simplify_eq; cbn [fst snd]; eauto 40 with conn.

Section SameConnOps.

Variable rt : Runtime.

Lemma same_conn_offMessage st x messageType handler :
  same_conn st x -> same_conn st (offMessage messageType handler x).
Proof. intros H. unfold offMessage. conn. Qed.

Lemma same_conn_scheduleReconnect st x :
  same_conn st x -> same_conn st (scheduleReconnect x).
Proof. intros H. unfold scheduleReconnect. conn. Qed.

Lemma same_conn_send st x message :
  same_conn st x -> same_conn st (send rt message x).
Proof. intros H. unfold send. conn. Qed.

Lemma same_conn_run_handler st x handler data :
  same_conn st x -> same_conn st (run_handler handler data x).2.
Proof.
  intros H. unfold run_handler.
  pose proof (same_conn_offMessage st x) as Ho. conn.
Qed.

Lemma same_conn_forEach_handler n : forall k messageType data st x,
  same_conn st x -> same_conn st (forEach_handler n k messageType data x).
Proof.
  induction n as [| n IH]; intros k messageType data st x H; [done |].
  cbn [forEach_handler]. apply IH.
  destruct (messageHandlers x !! messageType ≫= _) as [h|]; [| done].
  pose proof (same_conn_run_handler st (log [HandlerRan h data] x) h data) as Hr.
  destruct (run_handler h data _) as [[e|] x']; cbn [snd] in Hr; conn.
Qed.

Lemma same_conn_handleMessage st x data :
  same_conn st x -> same_conn st (handleMessage data x).2.
Proof.
  intros H. unfold handleMessage.
  repeat case_match; simplify_eq; cbn [snd]; try done.
  by apply same_conn_forEach_handler.
Qed.

Lemma same_conn_onmessage st x rawData :
  same_conn st x -> same_conn st (onmessage rt rawData x).
Proof.
  intros H. unfold onmessage.
  destruct (JSON_parse rt rawData) as [data|]; [| conn].
  pose proof (same_conn_handleMessage st x data H) as Hh.
  destruct (handleMessage data x) as [[e|] x']; cbn [snd] in Hh; conn.
Qed.

Lemma same_conn_onerror st x : same_conn st x -> same_conn st (onerror x).
Proof. intros H. unfold onerror. conn. Qed.

Lemma same_conn_requestTimeout_fired st x op p t :
  same_conn st x -> same_conn st (requestTimeout_fired op p t x).
Proof. intros H. unfold requestTimeout_fired. conn. Qed.

Lemma same_conn_request st x op message timeout p :
  same_conn st x -> same_conn st (request rt op message timeout p x).
Proof.
  intros H. unfold request.
  set (y := send rt message _).
  assert (Hy : same_conn st y).
  { subst y. apply same_conn_send. conn. }
  clearbody y. conn.
Qed.

End SameConnOps.

#[export] Hint Resolve same_conn_offMessage same_conn_scheduleReconnect
  same_conn_send same_conn_onmessage same_conn_onerror
  same_conn_requestTimeout_fired same_conn_request : conn.

Section ConnInv.

Variable rt : Runtime.

Hypothesis close_returns : forall i, close_throws rt i = None.

Lemma conn_inv_same st x : same_conn st x -> conn_inv st -> conn_inv x.
Proof.
  intros (Hs & Hi & Hss) H. unfold conn_inv. by rewrite Hs, Hi, Hss.
Qed.

Lemma conn_of_none x :
  none_connecting x -> isConnected x = false -> conn_inv x.
Proof.
  intros Hn Hi. split; [by rewrite Hi |].
  intros i ws Hl Hr. by destruct (Hn i ws Hl).
Qed.

Lemma none_connecting_same st x :
  sockets x = sockets st -> none_connecting st -> none_connecting x.
Proof. intros Hs H. unfold none_connecting. by rewrite Hs. Qed.

Lemma disconnect_sockets x :
  sockets (disconnect rt x) =
  match socket x with
  | Some c =>
      if decide (state_of c x = Some OPEN \/ state_of c x = Some CONNECTING)
      then alter closing c (sockets x) else sockets x
  | None => sockets x
  end.
Proof.
  unfold disconnect, ws_close.
  destruct (socket x) as [c|]; [| repeat case_match; reflexivity].
  rewrite close_returns. repeat case_match; reflexivity.
Qed.

Lemma torn_down_conn x :
  conn_inv x ->
  none_connecting (torn_down rt x) /\ isConnected (torn_down rt x) = false /\
  socket (torn_down rt x) = None /\
  length (sockets (torn_down rt x)) = length (sockets x).
Proof.
  intros [H1 H2]. unfold torn_down.
  destruct (socket x) as [c|] eqn:Hs.
  - split; [| split; [| split]].
    + intros i ws. rewrite disconnect_sockets, Hs.
      destruct (decide _) as [Hd | Hd].
      * rewrite list_lookup_alter. case_decide as Hi.
        -- subst. destruct (sockets x !! i) as [ws0|]; [| done].
           cbn. intros [= <-]. unfold closing.
           destruct (readyState ws0) eqn:E; cbn; congruence.
        -- intros Hl Hr. destruct (H2 i ws Hl Hr) as [He _]. congruence.
      * intros Hl Hr. destruct (H2 i ws Hl Hr) as [[= ->] _].
        apply Hd. right. unfold state_of. by rewrite Hl, <- Hr.
    + by rewrite disconnect_isConnected, Hs.
    + apply disconnect_socket.
    + by destruct (disconnect_unchanged rt x) as (_ & _ & _ & _ & _ & _ & _ & _ & ->).
  - split; [| split; [| done]].
    + intros i ws Hl Hr. by destruct (H2 i ws Hl Hr).
    + destruct (isConnected x); [by destruct H1 | done].
Qed.

Lemma connect_unfold serverUrl options x :
  connect rt serverUrl options x =
  let pid := length (promises x) in
  let T := set_connectionError None (torn_down rt (new_promise x)) in
  if negb (valid_url serverUrl) then
    let error :=
      MkError ("Invalid WebSocket URL: " +:+ serverUrl
               +:+ ". URL must start with ws:// or wss://") in
    reject pid error
      (triggerEvent EvError (DError error)
         (set_connectionError (Some (DError error)) T))
  else
    let T1 := set_connectionAttempts (S (connectionAttempts T)) (set_url serverUrl T) in
    match ctor_throws rt serverUrl with
    | Some error =>
        reject pid (MkError "ReferenceError: connectionTimeout is not defined")
          (set_connectionError (Some (DError error)) T1)
    | None =>
        let sid := length (sockets T1) in
        let ws :=
          {| ws_url := serverUrl; readyState := CONNECTING; ws_options := options;
             ws_timer := next_timer T1; ws_promise := pid |} in
        setTimeout (CbConnectionTimeout pid)
          (inject_Z (timeout_or (co_timeout options) 10000))
          (set_socket (Some sid)
             (log [WsCreated sid serverUrl] (set_sockets (sockets T1 ++ [ws]) T1)))
    end.
Proof. reflexivity. Qed.

Lemma conn_connect serverUrl options x :
  conn_inv x -> conn_inv (connect rt serverUrl options x).
Proof.
  intros H. rewrite connect_unfold. cbn zeta.
  assert (Hn : conn_inv (new_promise x)) by exact H.
  destruct (torn_down_conn _ Hn) as (Hnone & Hi & Hs & _).
  set (T := torn_down rt (new_promise x)) in *.
  destruct (negb (valid_url serverUrl)).
  { eapply (conn_inv_same T); [conn |]. by apply conn_of_none. }
  destruct (ctor_throws rt serverUrl).
  { eapply (conn_inv_same T); [conn |]. by apply conn_of_none. }
  split; [done |]. state_simpl. intros i ws Hl Hr.
  apply lookup_app_Some in Hl as [Hl | [Hge Hl]].
  - by destruct (Hnone i ws Hl).
  - destruct (i - length (sockets T)) eqn:Hd; [| done].
    split; [f_equal; lia | exact Hi].
Qed.

Lemma conn_disconnect x : conn_inv x -> conn_inv (disconnect rt x).
Proof.
  intros H. destruct (socket x) as [c|] eqn:Hs.
  - destruct (torn_down_conn _ H) as (Hnone & Hi & _).
    unfold torn_down in *. rewrite Hs in *. by apply conn_of_none.
  - destruct (torn_down_conn _ H) as (Hnone & Hi & _).
    unfold torn_down in *. rewrite Hs in *.
    apply conn_of_none.
    + eapply none_connecting_same; [| exact Hnone]. by rewrite disconnect_sockets, Hs.
    + by rewrite disconnect_isConnected, Hs.
Qed.

End ConnInv.

Section ConnInvStep.

Variable rt : Runtime.

Hypothesis close_returns : forall i, close_throws rt i = None.

Lemma onopen_conn ws y :
  socket (onopen ws y) = socket y /\ isConnected (onopen ws y) = true /\
  sockets (onopen ws y) = sockets y.
Proof. unfold onopen, resolve. by repeat case_match. Qed.

Lemma onclose_conn ws code reason wasClean y :
  socket (onclose ws code reason wasClean y) = socket y /\
  isConnected (onclose ws code reason wasClean y) = false /\
  sockets (onclose ws code reason wasClean y) = sockets y.
Proof. unfold onclose, scheduleReconnect. by repeat case_match. Qed.

Lemma conn_connectionTimeout_fired p x :
  conn_inv x -> conn_inv (connectionTimeout_fired rt p x).
Proof.
  intros H. pose proof H as [H1 H2]. unfold connectionTimeout_fired.
  destruct (isConnected x) eqn:Hi; [done |].
  set (y := triggerEvent _ _ _).
  assert (Hy : same_conn x y) by (subst y; conn).
  assert (Hcy : conn_inv y) by (by eapply conn_inv_same).
  destruct Hy as (Hs & Hiy & Hss). rewrite Hs.
  destruct (socket x) as [c|] eqn:Hc; [| eapply (conn_inv_same y); [conn | done]].
  destruct (decide _) as [Hd | Hd]; [| eapply (conn_inv_same y); [conn | done]].
  unfold ws_close. rewrite close_returns.
  set (z := set_socket None _).
  assert (Hz : none_connecting z /\ isConnected z = false).
  { subst z. split; [| exact Hi].
    intros i ws. state_simpl. rewrite Hss, list_lookup_alter. case_decide as Heq.
    - subst. destruct (sockets x !! i) as [ws0|]; [| done].
      cbn. intros [= <-]. unfold closing.
      destruct (readyState ws0) eqn:E; cbn; congruence.
    - intros Hl Hr. destruct (H2 i ws Hl Hr) as [He _]. congruence. }
  destruct Hz as [Hn Hz]. eapply (conn_inv_same z); [conn |]. by apply conn_of_none.
Qed.

Lemma conn_ws_open i x : conn_inv x -> conn_inv (ws_open i x).
Proof.
  intros [H1 H2]. unfold ws_open.
  destruct (sockets x !! i) as [ws|] eqn:Hl; [| done].
  destruct (decide _) as [Hr |]; [| done].
  destruct (H2 i ws Hl Hr) as [Hs Hi].
  destruct (onopen_conn ws (set_sockets (<[i := set_readyState OPEN ws]> (sockets x)) x))
    as (Hso & Hio & Hsso).
  split.
  - intros _. rewrite Hso. cbn. by rewrite Hs.
  - intros j ws'. rewrite Hsso. cbn. intros Hl' Hr'.
    apply list_lookup_insert_Some in Hl' as [(-> & <- & _) | [Hne Hl']]; [done |].
    destruct (H2 j ws' Hl' Hr') as [Hj _]. congruence.
Qed.

Lemma conn_ws_closed i code reason wasClean x :
  conn_inv x -> conn_inv (ws_closed i code reason wasClean x).
Proof.
  intros [H1 H2]. unfold ws_closed.
  destruct (sockets x !! i) as [ws|] eqn:Hl; [| done].
  destruct (decide _) as [| Hr]; [done |].
  destruct (onclose_conn ws code reason wasClean
              (set_sockets (<[i := set_readyState CLOSED ws]> (sockets x)) x))
    as (Hso & Hio & Hsso).
  split; [by rewrite Hio |].
  intros j ws'. rewrite Hsso, Hso, Hio. cbn. intros Hl' Hr'.
  apply list_lookup_insert_Some in Hl' as [(-> & <- & _) | [Hne Hl']]; [done |].
  destruct (H2 j ws' Hl' Hr') as [Hj _]. done.
Qed.

Lemma conn_reconnect_fired x : conn_inv x -> conn_inv (reconnect_fired rt x).
Proof.
  intros H. unfold reconnect_fired.
  eapply conn_inv_same; [apply same_conn_catch_backoff, same_conn_refl |].
  apply conn_connect; [done |]. eapply conn_inv_same; [| exact H]. conn.
Qed.

Lemma conn_step ev x : conn_inv x -> conn_inv (step rt ev x).
Proof.
  intros H. destruct ev; cbn [step].
  - by apply conn_connect.
  - by apply conn_disconnect.
  - eapply conn_inv_same; [| exact H]. conn.
  - eapply conn_inv_same; [| exact H]. conn.
  - eapply conn_inv_same; [| exact H]. conn.
  - eapply conn_inv_same; [| exact H]. unfold addEventListener. conn.
  - eapply conn_inv_same; [| exact H]. unfold removeEventListener. conn.
  - eapply conn_inv_same; [| exact H]. unfold getClients. conn.
  - eapply conn_inv_same; [| exact H]. unfold getPresets. conn.
  - eapply conn_inv_same; [| exact H]. unfold updateDisplay, Promise_reject. conn.
  - eapply conn_inv_same; [| exact H]. unfold savePreset, Promise_reject. conn.
  - eapply conn_inv_same; [| exact H]. unfold loadPreset, Promise_reject. conn.
  - by apply conn_ws_open.
  - eapply conn_inv_same; [| exact H]. unfold ws_message. conn.
  - eapply conn_inv_same; [| exact H]. unfold ws_error. conn.
  - by apply conn_ws_closed.
  - unfold timer_fires. destruct (timers x !! tid) as [T|]; [| done].
    assert (Hc : conn_inv (clearTimeout tid x)) by exact H.
    destruct (t_callback T).
    + by apply conn_connectionTimeout_fired.
    + by apply conn_reconnect_fired.
    + eapply conn_inv_same; [| exact Hc]. conn.
Qed.

(** The connection timeout of the WebSocket that is connecting closes it. *)
Lemma own_timeout_closes tid sid p T x :
  conn_inv x ->
  state_of sid x = Some CONNECTING ->
  timers x !! tid = Some T ->
  t_callback T = CbConnectionTimeout p ->
  state_of sid (timer_fires rt tid x) = Some CLOSING.
Proof.
  intros [H1 H2] Hst HT Hcb. unfold timer_fires. rewrite HT, Hcb.
  unfold state_of in Hst. destruct (sockets x !! sid) as [ws|] eqn:Hl; [| done].
  cbn in Hst. injection Hst as Hr. destruct (H2 sid ws Hl Hr) as [Hs Hi].
  unfold connectionTimeout_fired. state_simpl. rewrite Hi, Hs.
  destruct (decide _) as [Hd | Hd].
  2: { exfalso. apply Hd. unfold state_of. cbn. rewrite Hl. cbn. by rewrite Hr. }
  unfold ws_close. rewrite close_returns.
  set (z := set_socket None _).
  assert (Hz : state_of sid z = Some CLOSING).
  { subst z. unfold state_of. state_simpl. rewrite list_lookup_alter_eq, Hl. cbn.
    unfold closing. by rewrite Hr. }
  unfold state_of in *. unfold reject. by repeat case_match.
Qed.

End ConnInvStep.

(** * Only the open of its own WebSocket fulfils the promise of an attempt *)

Create HintDb unful.

Section Unfulfilled.

Variables pid tid sid : nat.

#[local] Abbreviation unf := (unfulfilled pid tid sid).

Lemma unf_frame (f : State -> State) x :
  (forall y, promises (f y) = promises y /\ next_timer (f y) = next_timer y /\
             sockets (f y) = sockets y /\ messageHandlers (f y) = messageHandlers y /\
             timers (f y) = timers y /\ reconnectTimeout (f y) = reconnectTimeout y) ->
  unf x -> unf (f x).
Proof.
  intros Hf (Hr & Hp). split; [by apply refs_frame |].
  destruct (Hf x) as (-> & _). done.
Qed.

(** Steps that leave the promises alone. *)
Lemma unf_same x y :
  refs_inv pid tid sid y -> promises y = promises x -> unf x -> unf y.
Proof. intros Hr He (_ & Hp). split; [done |]. by rewrite He. Qed.

Lemma unf_new_promise x : unf x -> unf (new_promise x).
Proof.
  intros (Hr & Hp). split; [by apply refs_new_promise |].
  intros s v. cbn. destruct Hr as ((Hlt & _) & _).
  rewrite lookup_app_l by done. apply Hp.
Qed.

Lemma unf_insert_other x p s :
  unf x -> p <> pid -> unf (set_promises (<[p := s]> (promises x)) x).
Proof.
  intros (Hr & Hp) Hne. split; [by apply refs_set_promises_insert |].
  intros s' v. cbn. rewrite list_lookup_insert_ne by done. apply Hp.
Qed.

Lemma unf_insert_unfulfilled x p s :
  unf x -> (forall v, p_state s <> Fulfilled v) ->
  unf (set_promises (<[p := s]> (promises x)) x).
Proof.
  intros (Hr & Hp) Hs. split; [by apply refs_set_promises_insert |].
  intros s' v. cbn. destruct (decide (p = pid)) as [-> | Hne].
  - intros Hl. apply list_lookup_insert_Some in Hl as [(_ & <- & _) | [Hc _]]; done.
  - rewrite list_lookup_insert_ne by done. apply Hp.
Qed.

Lemma unf_resolve x p v : unf x -> p <> pid -> unf (resolve p v x).
Proof.
  intros H Hne. unfold resolve. repeat case_match; try done.
  by apply unf_insert_other.
Qed.

Lemma unf_reject x p e : unf x -> unf (reject p e x).
Proof.
  intros H. unfold reject. repeat case_match; try done.
  - apply (unf_frame backoff); [done |]. by apply unf_insert_unfulfilled.
  - by apply unf_insert_unfulfilled.
Qed.

Lemma unf_catch_backoff x p : unf x -> unf (catch_backoff p x).
Proof.
  intros H. unfold catch_backoff. repeat case_match; try done.
  by apply unf_insert_unfulfilled.
Qed.

Lemma unf_setTimeout x cb d :
  unf x -> good_callback pid cb -> unf (setTimeout cb d x).
Proof. intros (Hr & Hp) Hcb. split; [by apply refs_setTimeout | done]. Qed.

Lemma unf_clearTimeout x t : unf x -> unf (clearTimeout t x).
Proof. intros (Hr & Hp). split; [by apply refs_clearTimeout | done]. Qed.

Lemma unf_onMessage x messageType handler :
  unf x -> good_handler pid tid handler -> unf (onMessage messageType handler x).
Proof. intros (Hr & Hp) Hg. split; [by apply refs_onMessage | done]. Qed.

Lemma unf_set_reconnectTimeout x o :
  unf x -> o <> Some tid -> unf (set_reconnectTimeout o x).
Proof. intros (Hr & Hp) Ho. split; [by apply refs_set_reconnectTimeout | done]. Qed.

Lemma unf_new_socket x ws :
  unf x -> ws_promise ws <> pid -> ws_timer ws <> tid ->
  unf (set_sockets (sockets x ++ [ws]) x).
Proof. intros (Hr & Hp) H1 H2. split; [by apply refs_new_socket | done]. Qed.

Lemma unf_alter_socket x i (f : WebSocket -> WebSocket) :
  (forall ws, ws_promise (f ws) = ws_promise ws /\ ws_timer (f ws) = ws_timer ws) ->
  unf x -> unf (set_sockets (alter f i (sockets x)) x).
Proof. intros Hf (Hr & Hp). split; [by apply refs_alter_socket | done]. Qed.

Lemma unf_insert_socket x i ws r :
  sockets x !! i = Some ws ->
  unf x -> unf (set_sockets (<[i := set_readyState r ws]> (sockets x)) x).
Proof. intros Hl (Hr & Hp). split; [by apply refs_insert_socket | done]. Qed.

Lemma unf_remove_handler x messageType handler handlers :
  messageHandlers x !! messageType = Some handlers ->
  unf x ->
  unf (set_messageHandlers
         (<[messageType := remove_registered handler handlers]> (messageHandlers x)) x).
Proof. intros Hm (Hr & Hp). split; [by apply refs_remove_handler | done]. Qed.

Lemma unf_fresh_promise x : unf x -> length (promises x) <> pid.
Proof. intros [H _]. by eapply refs_fresh_promise. Qed.

Lemma unf_fresh_timer x : unf x -> next_timer x <> tid.
Proof. intros [H _]. by eapply refs_fresh_timer. Qed.

Lemma unf_reconnect_ne x t : unf x -> reconnectTimeout x = Some t -> t <> tid.
Proof. intros ((_ & _ & _ & _ & Hr) & _) Ht ->. done. Qed.

Lemma unf_handler_good x messageType k handler :
  unf x ->
  messageHandlers x !! messageType ≫= (fun handlers => handlers !! k) = Some handler ->
  good_handler pid tid handler.
Proof.
  intros ((_ & Hh & _) & _) Hl.
  destruct (messageHandlers x !! messageType) as [hs|] eqn:Hm; [| done].
  cbn in Hl. eapply Hh; [exact Hm | by eapply list_elem_of_lookup_2].
Qed.

End Unfulfilled.

#[export] Hint Resolve unf_new_promise unf_resolve unf_reject unf_catch_backoff
  unf_setTimeout unf_clearTimeout unf_onMessage unf_set_reconnectTimeout
  unf_new_socket unf_alter_socket unf_insert_socket unf_remove_handler
  unf_fresh_promise unf_fresh_timer closing_closure Some_ne : unful.
#[export] Hint Extern 1 (?t <> _) =>
  match goal with
  | H : reconnectTimeout ?y = Some t |- _ =>
      eapply (unf_reconnect_ne _ _ _ y t); [| exact H]
  end : unful.
#[export] Hint Extern 3 (unfulfilled _ _ _ (?f ?x)) =>
  apply (unf_frame _ _ _ f); [intros; repeat split; reflexivity |] : unful.
#[export] Hint Extern 1 (good_handler _ _ _) =>
  cbn [good_handler]; try split; try exact I : unful.
#[export] Hint Extern 1 (good_callback _ _) => cbn [good_callback]; try exact I : unful.
#[export] Hint Extern 1 (None <> Some _) => discriminate : unful.
#[export] Hint Extern 1 (ws_promise _ <> _) => progress cbn [ws_promise] : unful.
#[export] Hint Extern 1 (ws_timer _ <> _) => progress cbn [ws_timer] : unful.

Ltac unful :=
  cbn zeta; repeat case_match; simplify_eq; cbn [fst snd]; eauto 40 with unful.

Section UnfulfilledOps.

Variable rt : Runtime.
Variables pid tid sid : nat.

#[local] Abbreviation unf := (unfulfilled pid tid sid).

Lemma unf_offMessage x messageType handler :
  unf x -> unf (offMessage messageType handler x).
Proof. intros H. unfold offMessage. unful. Qed.

Lemma unf_ws_close x i args : unf x -> unf (ws_close rt i args x).2.
Proof. intros H. unfold ws_close. unful. Qed.

Lemma unf_disconnect x : unf x -> unf (disconnect rt x).
Proof.
  intros H. unfold disconnect.
  pose proof (unf_ws_close x) as Hc.
  destruct (socket x) as [c|]; [| unful].
  destruct (decide _); [| unful].
  specialize (Hc c (Some (1000%Z, "Disconnected by client")) H).
  destruct (ws_close rt c _ x) as [[e|] x']; cbn [snd] in Hc; unful.
Qed.

Lemma unf_scheduleReconnect x : unf x -> unf (scheduleReconnect x).
Proof. intros H. unfold scheduleReconnect. unful. Qed.

Lemma unf_send x message : unf x -> unf (send rt message x).
Proof. intros H. unfold send. unful. Qed.

End UnfulfilledOps.

#[export] Hint Resolve unf_offMessage unf_disconnect unf_scheduleReconnect
  unf_send : unful.

Section UnfulfilledStep.

Variable rt : Runtime.
Variables pid tid sid : nat.

#[local] Abbreviation unf := (unfulfilled pid tid sid).

Lemma unf_run_handler x handler data :
  unf x -> good_handler pid tid handler -> unf (run_handler handler data x).2.
Proof.
  intros H Hg. unfold run_handler.
  destruct handler as [op p t | fid b]; [destruct Hg as [Hp Ht] |]; unful.
Qed.

Lemma unf_forEach_handler n : forall k messageType data x,
  unf x -> unf (forEach_handler n k messageType data x).
Proof.
  induction n as [| n IH]; intros k messageType data x H; [done |].
  cbn [forEach_handler]. apply IH.
  destruct (messageHandlers x !! messageType ≫= _) as [h|] eqn:Hl; [| done].
  pose proof (unf_run_handler (log [HandlerRan h data] x) h data) as Hr.
  assert (Hg : good_handler pid tid h) by (by eapply unf_handler_good).
  destruct (run_handler h data _) as [[e|] x']; cbn [snd] in Hr; unful.
Qed.

Lemma unf_handleMessage x data : unf x -> unf (handleMessage data x).2.
Proof.
  intros H. unfold handleMessage.
  repeat case_match; simplify_eq; cbn [snd]; try done.
  by apply unf_forEach_handler.
Qed.

Lemma unf_connect x serverUrl options : unf x -> unf (connect rt serverUrl options x).
Proof. intros H. unfold connect. unful. Qed.

Lemma unf_connectionTimeout_fired x p : unf x -> unf (connectionTimeout_fired rt p x).
Proof. intros H. unfold connectionTimeout_fired, ws_close. unful. Qed.

Lemma unf_onopen x ws : unf x -> ws_promise ws <> pid -> unf (onopen ws x).
Proof. intros H Hp. unfold onopen. unful. Qed.

Lemma unf_onmessage x rawData : unf x -> unf (onmessage rt rawData x).
Proof.
  intros H. unfold onmessage.
  destruct (JSON_parse rt rawData) as [data|]; [| unful].
  pose proof (unf_handleMessage x data H) as Hh.
  destruct (handleMessage data x) as [[e|] x']; cbn [snd] in Hh; unful.
Qed.

Lemma unf_onclose x ws code reason wasClean :
  unf x -> unf (onclose ws code reason wasClean x).
Proof. intros H. unfold onclose. unful. Qed.

Lemma unf_onerror x : unf x -> unf (onerror x).
Proof. intros H. unfold onerror. unful. Qed.

Lemma unf_reconnect_fired x : unf x -> unf (reconnect_fired rt x).
Proof.
  intros H. unfold reconnect_fired. apply unf_catch_backoff, unf_connect. unful.
Qed.

Lemma unf_requestTimeout_fired x op p t : unf x -> unf (requestTimeout_fired op p t x).
Proof. intros H. unfold requestTimeout_fired. unful. Qed.

Lemma unf_request x op message timeout p :
  unf x -> p <> pid -> unf (request rt op message timeout p x).
Proof.
  intros H Hp. unfold request.
  set (y := send rt message _).
  assert (Ht : next_timer x <> tid) by (by eapply unf_fresh_timer).
  assert (Hy : unf y) by (subst y; unful).
  clearbody y. unful.
Qed.

End UnfulfilledStep.

#[export] Hint Resolve unf_connect unf_connectionTimeout_fired unf_onopen
  unf_onmessage unf_onclose unf_onerror unf_reconnect_fired
  unf_requestTimeout_fired unf_request : unful.

Section UnfulfilledRun.

Variable rt : Runtime.
Variables pid tid sid : nat.

(** Every task but the open of WebSocket [sid] while it is connecting
    leaves the promise unfulfilled. *)
Lemma unf_step ev x :
  unfulfilled pid tid sid x ->
  ~ (ev = WsOpen sid /\ state_of sid x = Some CONNECTING) ->
  unfulfilled pid tid sid (step rt ev x).
Proof.
  intros H Hev. destruct ev; cbn [step] in *.
  all: unfold getClients, getPresets, updateDisplay, savePreset, loadPreset,
         Promise_reject, ws_open, ws_message, ws_error, ws_closed, timer_fires,
         addEventListener, removeEventListener.
  all: try (unful; fail).
  destruct (sockets x !! sid0) as [ws|] eqn:Hs; [| done].
  destruct (decide _) as [Hr |]; [| done].
  pose proof H as ((_ & _ & _ & Hso & _) & _). specialize (Hso _ _ Hs).
  unfold good_socket in Hso. destruct (decide (sid0 = sid)) as [-> | Hne].
  - exfalso. apply Hev. split; [done |]. unfold state_of. by rewrite Hs, <- Hr.
  - destruct Hso. unful.
Qed.

End UnfulfilledRun.

(** * No WebSocket goes back to connecting *)

Create HintDb prog.

Section Progressed.

Lemma progressed_refl st : progressed st st.
Proof. split; [done | auto]. Qed.

Lemma progressed_trans st x y : progressed st x -> progressed x y -> progressed st y.
Proof.
  intros [H1 H2] [H3 H4]. split; [lia |].
  intros i Hi Hc. apply H2; [done |]. apply H4; [lia | done].
Qed.

Lemma progressed_frame (f : State -> State) st x :
  (forall y, sockets (f y) = sockets y) -> progressed st x -> progressed st (f x).
Proof. intros Hf [H1 H2]. unfold progressed, state_of. by rewrite Hf. Qed.

Lemma progressed_resolve st x p v : progressed st x -> progressed st (resolve p v x).
Proof. intros H. unfold resolve. by repeat case_match. Qed.

Lemma progressed_reject st x p e : progressed st x -> progressed st (reject p e x).
Proof. intros H. unfold reject. by repeat case_match. Qed.

Lemma progressed_catch_backoff st x p :
  progressed st x -> progressed st (catch_backoff p x).
Proof. intros H. unfold catch_backoff. by repeat case_match. Qed.

Lemma progressed_new_socket st x ws :
  progressed st x -> progressed st (set_sockets (sockets x ++ [ws]) x).
Proof.
  intros [H1 H2]. split; cbn; [rewrite length_app; lia |].
  intros i Hi. unfold state_of. cbn. rewrite lookup_app_l by lia. by apply H2.
Qed.

Lemma progressed_closing st x i :
  progressed st x -> progressed st (set_sockets (alter closing i (sockets x)) x).
Proof.
  intros [H1 H2]. split; cbn; [by rewrite length_alter |].
  intros j Hj. unfold state_of. cbn. rewrite list_lookup_alter. case_decide as He.
  - subst. intros Hc. apply H2; [done |]. unfold state_of.
    destruct (sockets x !! j) as [ws|]; [| done]. cbn in *.
    unfold closing in Hc. destruct (readyState ws) eqn:E; cbn in Hc; congruence.
  - by apply H2.
Qed.

Lemma progressed_insert st x i ws r :
  r <> CONNECTING -> progressed st x ->
  progressed st (set_sockets (<[i := set_readyState r ws]> (sockets x)) x).
Proof.
  intros Hr [H1 H2]. split; cbn; [by rewrite length_insert |].
  intros j Hj. unfold state_of. cbn. intros Hc.
  destruct (decide (i = j)) as [-> | Hne].
  - rewrite list_lookup_insert_eq in Hc by lia. cbn in Hc. congruence.
  - rewrite list_lookup_insert_ne in Hc by done. by apply H2.
Qed.

End Progressed.

#[export] Hint Resolve progressed_refl progressed_resolve progressed_reject
  progressed_catch_backoff progressed_new_socket progressed_closing : prog.
#[export] Hint Extern 2 (progressed _ (set_sockets (<[_ := set_readyState _ _]> _) _)) =>
  apply progressed_insert; [discriminate |] : prog.
#[export] Hint Extern 3 (progressed _ (?f ?x)) =>
  apply (progressed_frame f); [intros; reflexivity |] : prog.

Ltac prog :=
  cbn zeta; repeat case_match; simplify_eq; cbn [fst snd]; eauto 40 with prog.

Section ProgressedOps.

Variable rt : Runtime.

Lemma progressed_offMessage st x messageType handler :
  progressed st x -> progressed st (offMessage messageType handler x).
Proof. intros H. unfold offMessage. prog. Qed.

Lemma progressed_ws_close st x i args :
  progressed st x -> progressed st (ws_close rt i args x).2.
Proof. intros H. unfold ws_close. prog. Qed.

Lemma progressed_disconnect st x : progressed st x -> progressed st (disconnect rt x).
Proof.
  intros H. unfold disconnect.
  pose proof (progressed_ws_close st x) as Hc.
  destruct (socket x) as [c|]; [| prog].
  destruct (decide _); [| prog].
  specialize (Hc c (Some (1000%Z, "Disconnected by client")) H).
  destruct (ws_close rt c _ x) as [[e|] x']; cbn [snd] in Hc; prog.
Qed.

Lemma progressed_scheduleReconnect st x :
  progressed st x -> progressed st (scheduleReconnect x).
Proof. intros H. unfold scheduleReconnect. prog. Qed.

Lemma progressed_send st x message :
  progressed st x -> progressed st (send rt message x).
Proof. intros H. unfold send. prog. Qed.

Lemma progressed_run_handler st x handler data :
  progressed st x -> progressed st (run_handler handler data x).2.
Proof.
  intros H. unfold run_handler.
  pose proof (progressed_offMessage st x) as Ho. prog.
Qed.

Lemma progressed_forEach_handler n : forall k messageType data st x,
  progressed st x -> progressed st (forEach_handler n k messageType data x).
Proof.
  induction n as [| n IH]; intros k messageType data st x H; [done |].
  cbn [forEach_handler]. apply IH.
  destruct (messageHandlers x !! messageType ≫= _) as [h|]; [| done].
  pose proof (progressed_run_handler st (log [HandlerRan h data] x) h data) as Hr.
  destruct (run_handler h data _) as [[e|] x']; cbn [snd] in Hr; prog.
Qed.

Lemma progressed_handleMessage st x data :
  progressed st x -> progressed st (handleMessage data x).2.
Proof.
  intros H. unfold handleMessage.
  repeat case_match; simplify_eq; cbn [snd]; try done.
  by apply progressed_forEach_handler.
Qed.

End ProgressedOps.

#[export] Hint Resolve progressed_offMessage progressed_disconnect
  progressed_scheduleReconnect progressed_send : prog.

Section ProgressedStep.

Variable rt : Runtime.

Lemma progressed_connect st x serverUrl options :
  progressed st x -> progressed st (connect rt serverUrl options x).
Proof. intros H. unfold connect. prog. Qed.

Lemma progressed_connectionTimeout_fired st x p :
  progressed st x -> progressed st (connectionTimeout_fired rt p x).
Proof. intros H. unfold connectionTimeout_fired, ws_close. prog. Qed.

Lemma progressed_onopen st x ws : progressed st x -> progressed st (onopen ws x).
Proof. intros H. unfold onopen. prog. Qed.

Lemma progressed_onmessage st x rawData :
  progressed st x -> progressed st (onmessage rt rawData x).
Proof.
  intros H. unfold onmessage.
  destruct (JSON_parse rt rawData) as [data|]; [| prog].
  pose proof (progressed_handleMessage st x data H) as Hh.
  destruct (handleMessage data x) as [[e|] x']; cbn [snd] in Hh; prog.
Qed.

Lemma progressed_onclose st x ws code reason wasClean :
  progressed st x -> progressed st (onclose ws code reason wasClean x).
Proof. intros H. unfold onclose. prog. Qed.

Lemma progressed_onerror st x : progressed st x -> progressed st (onerror x).
Proof. intros H. unfold onerror. prog. Qed.

Lemma progressed_reconnect_fired st x :
  progressed st x -> progressed st (reconnect_fired rt x).
Proof.
  intros H. unfold reconnect_fired.
  apply progressed_catch_backoff, progressed_connect. prog.
Qed.

Lemma progressed_requestTimeout_fired st x op p t :
  progressed st x -> progressed st (requestTimeout_fired op p t x).
Proof. intros H. unfold requestTimeout_fired. prog. Qed.

Lemma progressed_request st x op message timeout p :
  progressed st x -> progressed st (request rt op message timeout p x).
Proof.
  intros H. unfold request.
  set (y := send rt message _).
  assert (Hy : progressed st y) by (subst y; prog).
  clearbody y. prog.
Qed.

End ProgressedStep.

#[export] Hint Resolve progressed_connect progressed_connectionTimeout_fired
  progressed_onopen progressed_onmessage progressed_onclose progressed_onerror
  progressed_reconnect_fired progressed_requestTimeout_fired
  progressed_request : prog.

Section ProgressedRun.

Variable rt : Runtime.

Lemma progressed_step ev x : progressed x (step rt ev x).
Proof.
  pose proof (progressed_refl x) as H. revert H. generalize x at 1 3. intros st H.
  destruct ev; cbn [step].
  all: unfold getClients, getPresets, updateDisplay, savePreset, loadPreset,
         Promise_reject, ws_open, ws_message, ws_error, ws_closed, timer_fires,
         addEventListener, removeEventListener.
  all: prog.
Qed.

Lemma progressed_run evs : forall x, progressed x (run rt evs x).
Proof.
  induction evs as [| ev evs IH]; intros x; [apply progressed_refl |].
  eapply progressed_trans; [apply progressed_step | apply IH].
Qed.

End ProgressedRun.

(** * Only its connection timeout rejects the promise of an attempt *)

Create HintDb unrej.

Section Unrejected.

Variables pid tid sid : nat.

#[local] Abbreviation unr := (unrejected pid tid sid).

Lemma unr_frame (f : State -> State) x :
  (forall y, promises (f y) = promises y /\ next_timer (f y) = next_timer y /\
             sockets (f y) = sockets y /\ messageHandlers (f y) = messageHandlers y /\
             timers (f y) = timers y /\ reconnectTimeout (f y) = reconnectTimeout y) ->
  unr x -> unr (f x).
Proof.
  intros Hf (Hr & Ht & Hp). split; [by apply refs_frame |].
  destruct (Hf x) as (-> & _ & _ & _ & -> & _). done.
Qed.

Lemma unr_new_promise x : unr x -> unr (new_promise x).
Proof.
  intros (Hr & Ht & Hp). split; [by apply refs_new_promise |]. split; [done |].
  intros s e. cbn. destruct Hr as ((Hlt & _) & _).
  rewrite lookup_app_l by done. apply Hp.
Qed.

Lemma unr_insert_other x p s :
  unr x -> p <> pid -> unr (set_promises (<[p := s]> (promises x)) x).
Proof.
  intros (Hr & Ht & Hp) Hne. split; [by apply refs_set_promises_insert |].
  split; [done |].
  intros s' e. cbn. rewrite list_lookup_insert_ne by done. apply Hp.
Qed.

Lemma unr_insert_unrejected x p s :
  unr x -> (forall e, p_state s <> Rejected e) ->
  unr (set_promises (<[p := s]> (promises x)) x).
Proof.
  intros (Hr & Ht & Hp) Hs. split; [by apply refs_set_promises_insert |].
  split; [done |].
  intros s' e. cbn. destruct (decide (p = pid)) as [-> | Hne].
  - intros Hl. apply list_lookup_insert_Some in Hl as [(_ & <- & _) | [Hc _]]; done.
  - rewrite list_lookup_insert_ne by done. apply Hp.
Qed.

Lemma unr_resolve x p v : unr x -> unr (resolve p v x).
Proof.
  intros H. unfold resolve. repeat case_match; try done.
  by apply unr_insert_unrejected.
Qed.

Lemma unr_reject x p e : unr x -> p <> pid -> unr (reject p e x).
Proof.
  intros H Hne. unfold reject. repeat case_match; try done.
  - apply (unr_frame backoff); [done |]. by apply unr_insert_other.
  - by apply unr_insert_other.
Qed.

Lemma unr_catch_backoff x p : unr x -> unr (catch_backoff p x).
Proof.
  intros H. unfold catch_backoff. repeat case_match; try done.
  by apply unr_insert_unrejected.
Qed.

Lemma unr_setTimeout x cb d :
  unr x -> good_callback pid cb -> unr (setTimeout cb d x).
Proof.
  intros (Hr & Ht & Hp) Hcb. split; [by apply refs_setTimeout |].
  split; [| done]. cbn. rewrite lookup_insert_ne; [done |].
  by eapply refs_fresh_timer.
Qed.

Lemma unr_clearTimeout x t : unr x -> unr (clearTimeout t x).
Proof.
  intros (Hr & Ht & Hp). split; [by apply refs_clearTimeout |].
  split; [| done]. cbn. apply lookup_delete_None. by right.
Qed.

Lemma unr_onMessage x messageType handler :
  unr x -> good_handler pid tid handler -> unr (onMessage messageType handler x).
Proof. intros (Hr & Hp) Hg. split; [by apply refs_onMessage | done]. Qed.

Lemma unr_set_reconnectTimeout x o :
  unr x -> o <> Some tid -> unr (set_reconnectTimeout o x).
Proof. intros (Hr & Hp) Ho. split; [by apply refs_set_reconnectTimeout | done]. Qed.

Lemma unr_new_socket x ws :
  unr x -> ws_promise ws <> pid -> ws_timer ws <> tid ->
  unr (set_sockets (sockets x ++ [ws]) x).
Proof. intros (Hr & Hp) H1 H2. split; [by apply refs_new_socket | done]. Qed.

Lemma unr_alter_socket x i (f : WebSocket -> WebSocket) :
  (forall ws, ws_promise (f ws) = ws_promise ws /\ ws_timer (f ws) = ws_timer ws) ->
  unr x -> unr (set_sockets (alter f i (sockets x)) x).
Proof. intros Hf (Hr & Hp). split; [by apply refs_alter_socket | done]. Qed.

Lemma unr_insert_socket x i ws r :
  sockets x !! i = Some ws ->
  unr x -> unr (set_sockets (<[i := set_readyState r ws]> (sockets x)) x).
Proof. intros Hl (Hr & Hp). split; [by apply refs_insert_socket | done]. Qed.

Lemma unr_remove_handler x messageType handler handlers :
  messageHandlers x !! messageType = Some handlers ->
  unr x ->
  unr (set_messageHandlers
         (<[messageType := remove_registered handler handlers]> (messageHandlers x)) x).
Proof. intros Hm (Hr & Hp). split; [by apply refs_remove_handler | done]. Qed.

Lemma unr_fresh_promise x : unr x -> length (promises x) <> pid.
Proof. intros [H _]. by eapply refs_fresh_promise. Qed.

Lemma unr_fresh_timer x : unr x -> next_timer x <> tid.
Proof. intros [H _]. by eapply refs_fresh_timer. Qed.

Lemma unr_reconnect_ne x t : unr x -> reconnectTimeout x = Some t -> t <> tid.
Proof. intros ((_ & _ & _ & _ & Hr) & _) Ht ->. done. Qed.

Lemma unr_handler_good x messageType k handler :
  unr x ->
  messageHandlers x !! messageType ≫= (fun handlers => handlers !! k) = Some handler ->
  good_handler pid tid handler.
Proof.
  intros ((_ & Hh & _) & _) Hl.
  destruct (messageHandlers x !! messageType) as [hs|] eqn:Hm; [| done].
  cbn in Hl. eapply Hh; [exact Hm | by eapply list_elem_of_lookup_2].
Qed.

End Unrejected.

#[export] Hint Resolve unr_new_promise unr_resolve unr_reject unr_catch_backoff
  unr_setTimeout unr_clearTimeout unr_onMessage unr_set_reconnectTimeout
  unr_new_socket unr_alter_socket unr_insert_socket unr_remove_handler
  unr_fresh_promise unr_fresh_timer closing_closure Some_ne : unrej.
#[export] Hint Extern 1 (?t <> _) =>
  match goal with
  | H : reconnectTimeout ?y = Some t |- _ =>
      eapply (unr_reconnect_ne _ _ _ y t); [| exact H]
  end : unrej.
#[export] Hint Extern 3 (unrejected _ _ _ (?f ?x)) =>
  apply (unr_frame _ _ _ f); [intros; repeat split; reflexivity |] : unrej.
#[export] Hint Extern 1 (good_handler _ _ _) =>
  cbn [good_handler]; try split; try exact I : unrej.
#[export] Hint Extern 1 (good_callback _ _) => cbn [good_callback]; try exact I : unrej.
#[export] Hint Extern 1 (None <> Some _) => discriminate : unrej.
#[export] Hint Extern 1 (ws_promise _ <> _) => progress cbn [ws_promise] : unrej.
#[export] Hint Extern 1 (ws_timer _ <> _) => progress cbn [ws_timer] : unrej.

Ltac unrej :=
  cbn zeta; repeat case_match; simplify_eq; cbn [fst snd]; eauto 40 with unrej.

Section UnrejectedOps.

Variable rt : Runtime.
Variables pid tid sid : nat.

#[local] Abbreviation unr := (unrejected pid tid sid).

Lemma unr_offMessage x messageType handler :
  unr x -> unr (offMessage messageType handler x).
Proof. intros H. unfold offMessage. unrej. Qed.

Lemma unr_ws_close x i args : unr x -> unr (ws_close rt i args x).2.
Proof. intros H. unfold ws_close. unrej. Qed.

Lemma unr_disconnect x : unr x -> unr (disconnect rt x).
Proof.
  intros H. unfold disconnect.
  pose proof (unr_ws_close x) as Hc.
  destruct (socket x) as [c|]; [| unrej].
  destruct (decide _); [| unrej].
  specialize (Hc c (Some (1000%Z, "Disconnected by client")) H).
  destruct (ws_close rt c _ x) as [[e|] x']; cbn [snd] in Hc; unrej.
Qed.

Lemma unr_scheduleReconnect x : unr x -> unr (scheduleReconnect x).
Proof. intros H. unfold scheduleReconnect. unrej. Qed.

Lemma unr_send x message : unr x -> unr (send rt message x).
Proof. intros H. unfold send. unrej. Qed.

End UnrejectedOps.

#[export] Hint Resolve unr_offMessage unr_disconnect unr_scheduleReconnect
  unr_send : unrej.

Section UnrejectedStep.

Variable rt : Runtime.
Variables pid tid sid : nat.

#[local] Abbreviation unr := (unrejected pid tid sid).

Lemma unr_run_handler x handler data :
  unr x -> good_handler pid tid handler -> unr (run_handler handler data x).2.
Proof.
  intros H Hg. unfold run_handler.
  destruct handler as [op p t | fid b]; [destruct Hg as [Hp Ht] |]; unrej.
Qed.

Lemma unr_forEach_handler n : forall k messageType data x,
  unr x -> unr (forEach_handler n k messageType data x).
Proof.
  induction n as [| n IH]; intros k messageType data x H; [done |].
  cbn [forEach_handler]. apply IH.
  destruct (messageHandlers x !! messageType ≫= _) as [h|] eqn:Hl; [| done].
  pose proof (unr_run_handler (log [HandlerRan h data] x) h data) as Hr.
  assert (Hg : good_handler pid tid h) by (by eapply unr_handler_good).
  destruct (run_handler h data _) as [[e|] x']; cbn [snd] in Hr; unrej.
Qed.

Lemma unr_handleMessage x data : unr x -> unr (handleMessage data x).2.
Proof.
  intros H. unfold handleMessage.
  repeat case_match; simplify_eq; cbn [snd]; try done.
  by apply unr_forEach_handler.
Qed.

Lemma unr_connect x serverUrl options : unr x -> unr (connect rt serverUrl options x).
Proof. intros H. unfold connect. unrej. Qed.

Lemma unr_connectionTimeout_fired x p :
  unr x -> p <> pid -> unr (connectionTimeout_fired rt p x).
Proof. intros H Hp. unfold connectionTimeout_fired, ws_close. unrej. Qed.

Lemma unr_onopen x ws : unr x -> unr (onopen ws x).
Proof. intros H. unfold onopen. unrej. Qed.

Lemma unr_onmessage x rawData : unr x -> unr (onmessage rt rawData x).
Proof.
  intros H. unfold onmessage.
  destruct (JSON_parse rt rawData) as [data|]; [| unrej].
  pose proof (unr_handleMessage x data H) as Hh.
  destruct (handleMessage data x) as [[e|] x']; cbn [snd] in Hh; unrej.
Qed.

Lemma unr_onclose x ws code reason wasClean :
  unr x -> unr (onclose ws code reason wasClean x).
Proof. intros H. unfold onclose. unrej. Qed.

Lemma unr_onerror x : unr x -> unr (onerror x).
Proof. intros H. unfold onerror. unrej. Qed.

Lemma unr_reconnect_fired x : unr x -> unr (reconnect_fired rt x).
Proof.
  intros H. unfold reconnect_fired. apply unr_catch_backoff, unr_connect. unrej.
Qed.

Lemma unr_requestTimeout_fired x op p t :
  unr x -> p <> pid -> unr (requestTimeout_fired op p t x).
Proof. intros H Hp. unfold requestTimeout_fired. unrej. Qed.

Lemma unr_request x op message timeout p :
  unr x -> p <> pid -> unr (request rt op message timeout p x).
Proof.
  intros H Hp. unfold request.
  set (y := send rt message _).
  assert (Ht : next_timer x <> tid) by (by eapply unr_fresh_timer).
  assert (Hy : unr y) by (subst y; unrej).
  clearbody y. unrej.
Qed.

End UnrejectedStep.

#[export] Hint Resolve unr_connect unr_connectionTimeout_fired unr_onopen
  unr_onmessage unr_onclose unr_onerror unr_reconnect_fired
  unr_requestTimeout_fired unr_request : unrej.

Section UnrejectedRun.

Variable rt : Runtime.
Variables pid tid sid : nat.

(** Once the connection timeout of the attempt is gone, no task rejects its
    promise. *)
Lemma unr_step ev x :
  unrejected pid tid sid x -> unrejected pid tid sid (step rt ev x).
Proof.
  intros H. destruct ev; cbn [step] in *.
  all: unfold getClients, getPresets, updateDisplay, savePreset, loadPreset,
         Promise_reject, ws_open, ws_message, ws_error, ws_closed, timer_fires,
         addEventListener, removeEventListener.
  all: try (unrej; fail).
  destruct (timers x !! tid0) as [T|] eqn:Ht; [| done].
  pose proof H as ((_ & _ & Hti & _) & Hnone & _). specialize (Hti _ _ Ht).
  unfold good_timer in Hti. destruct (decide (tid0 = tid)); [congruence |].
  destruct (t_callback T); cbn in Hti; unrej.
Qed.

Lemma unr_run evs : forall x,
  unrejected pid tid sid x -> unrejected pid tid sid (run rt evs x).
Proof.
  induction evs as [| ev evs IH]; intros x H; [done |].
  cbn. apply IH. by apply unr_step.
Qed.

End UnrejectedRun.

(** * A connection attempt from the [connect] call on *)

Section Attempt.

Variable rt : Runtime.

Hypothesis close_returns : forall i, close_throws rt i = None.

Lemma torn_down_refs x :
  let T := torn_down rt x in
  messageHandlers T = messageHandlers x /\
  (forall t X, timers T !! t = Some X -> timers x !! t = Some X) /\
  (forall i ws, sockets T !! i = Some ws ->
     exists ws0, sockets x !! i = Some ws0 /\
                 ws_promise ws = ws_promise ws0 /\ ws_timer ws = ws_timer ws0) /\
  (reconnectTimeout T = None \/ reconnectTimeout T = reconnectTimeout x).
Proof.
  unfold torn_down. destruct (socket x) as [c|] eqn:Hs.
  2: { repeat split; eauto. }
  destruct (disconnect_unchanged rt x) as (Hm & _).
  split; [done |]. split; [| split].
  - intros t X. rewrite disconnect_timers.
    destruct (reconnectTimeout x); [| done].
    intros Hl. apply lookup_delete_Some in Hl. tauto.
  - intros i ws. rewrite disconnect_sockets, Hs by done.
    destruct (decide _); [| eauto].
    rewrite list_lookup_alter. case_decide; [| eauto]. subst.
    destruct (sockets x !! i) as [ws0|]; [| done].
    cbn. intros [= <-]. exists ws0. unfold closing.
    by destruct (readyState ws0).
  - left. apply disconnect_reconnectTimeout.
Qed.

(** [connect] with a well-formed URL starts an attempt. *)
Lemma connect_attempt serverUrl options st :
  valid_url serverUrl = true ->
  ctor_throws rt serverUrl = None ->
  conn_inv st ->
  unused (length (promises st)) (next_timer st) st ->
  let st1 := connect rt serverUrl options st in
  attempt_inv (length (promises st)) (next_timer st) (length (sockets st)) st1 /\
  timers st1 !! next_timer st
    = Some {| t_delay := inject_Z (timeout_or (co_timeout options) 10000);
              t_callback := CbConnectionTimeout (length (promises st)) |} /\
  promises st1 !! length (promises st)
    = Some {| p_state := Pending; p_backoff := false |} /\
  state_of (length (sockets st)) st1 = Some CONNECTING.
Proof.
  intros Hv Hc Hconn (Hh & Ht & Hso & Hrt) st1.
  assert (Hc1 : conn_inv st1) by (by apply conn_connect).
  subst st1. rewrite connect_valid in * by done.
  destruct (torn_down_facts rt (new_promise st))
    as (_ & _ & Hp & _ & _ & _ & Hn & Hl & _).
  destruct (torn_down_refs (new_promise st)) as (Hm & HtT & HsT & HrT).
  cbn [new_promise set_promises promises next_timer sockets messageHandlers timers
       reconnectTimeout] in Hp, Hn, Hl, Hm, HtT, HsT, HrT.
  set (T := torn_down rt (new_promise st)) in *.
  cbn zeta in *.
  assert (Htimer : forall X, <[next_timer T := X]> (timers T) !! next_timer st = Some X).
  { intros X. rewrite Hn. apply lookup_insert_eq. }
  assert (Hprom : promises T !! length (promises st)
                  = Some {| p_state := Pending; p_backoff := false |}).
  { rewrite Hp. apply lookup_snoc. }
  assert (Hsock : forall ws, state_of (length (sockets st))
                    (set_sockets (sockets T ++ [ws]) T) = Some (readyState ws)).
  { intros ws. unfold state_of. cbn. by rewrite <- Hl, lookup_snoc. }
  split; [split; [| split; [done |]] |].
  - (* nothing else refers to the attempt *)
    split; [| split; [| split; [| split]]]; state_simpl.
    + rewrite Hp, Hn, <- Hl, !length_app. cbn. lia.
    + rewrite Hm. exact Hh.
    + intros t X Hlk. unfold good_timer.
      apply lookup_insert_Some in Hlk as [[<- <-] | [Hne Hlk]].
      * rewrite Hn. by rewrite decide_True.
      * apply HtT, Ht in Hlk as [Hne' Hg]. by rewrite decide_False.
    + intros i ws Hlk. unfold good_socket.
      apply lookup_app_Some in Hlk as [Hlk | [Hge Hlk]].
      * pose proof (lookup_lt_Some _ _ _ Hlk) as Hlt.
        apply HsT in Hlk as (ws0 & Hlk & -> & ->).
        rewrite decide_False by lia. by apply Hso in Hlk.
      * destruct (i - length (sockets T)) eqn:Hd; [| done].
        cbn in Hlk. injection Hlk as <-.
        rewrite decide_True by lia. by rewrite Hn.
    + destruct HrT as [-> | ->]; done.
  - (* the timeout and the promise are pending *)
    intros _. state_simpl. split; [by rewrite Htimer | eauto].
  - state_simpl. split; [apply Htimer |]. split; [exact Hprom |].
    unfold state_of. state_simpl. by rewrite <- Hl, lookup_snoc.
Qed.

End Attempt.

Section AttemptRun.

Variable rt : Runtime.

Hypothesis close_returns : forall i, close_throws rt i = None.

Variables pid tid sid : nat.

Lemma ws_open_leaves_connecting x :
  state_of sid (ws_open sid x) <> Some CONNECTING.
Proof.
  unfold ws_open. destruct (sockets x !! sid) as [ws|] eqn:Hl.
  2: { unfold state_of. by rewrite Hl. }
  destruct (decide _) as [Hr | Hr].
  - unfold state_of.
    destruct (onopen_conn ws (set_sockets (<[sid := set_readyState OPEN ws]> (sockets x)) x))
      as (_ & _ & ->).
    cbn. rewrite list_lookup_insert_eq by (by eapply lookup_lt_Some). done.
  - unfold state_of. rewrite Hl. cbn. congruence.
Qed.

Lemma ws_closed_leaves_connecting code reason wasClean x :
  state_of sid (ws_closed sid code reason wasClean x) <> Some CONNECTING.
Proof.
  unfold ws_closed. destruct (sockets x !! sid) as [ws|] eqn:Hl.
  2: { unfold state_of. by rewrite Hl. }
  destruct (decide _) as [Hr | Hr].
  - unfold state_of. rewrite Hl. cbn. congruence.
  - unfold state_of.
    destruct (onclose_conn ws code reason wasClean
                (set_sockets (<[sid := set_readyState CLOSED ws]> (sockets x)) x))
      as (_ & _ & ->).
    cbn. rewrite list_lookup_insert_eq by (by eapply lookup_lt_Some). done.
Qed.

Lemma own_event_dec ev : own_event tid sid ev \/ ~ own_event tid sid ev.
Proof.
  destruct ev; cbn; try (right; tauto).
  all: match goal with |- ?a = ?b \/ _ => destruct (decide (a = b)); tauto end.
Qed.

Lemma attempt_step ev x :
  attempt_inv pid tid sid x -> attempt_inv pid tid sid (step rt ev x).
Proof.
  intros (Hr & Hc & Hp).
  split; [by apply refs_step |]. split; [by apply conn_step |].
  intros Hst.
  pose proof (progressed_step rt ev x) as [_ Hpr].
  assert (Hx : state_of sid x = Some CONNECTING).
  { apply Hpr; [apply Hr | done]. }
  destruct (Hp Hx) as [Ht Hpend].
  destruct (own_event_dec ev) as [Hown | Hown].
  - exfalso. destruct ev; cbn [own_event] in Hown; try done; subst; cbn [step] in Hst.
    + by eapply ws_open_leaves_connecting.
    + by eapply ws_closed_leaves_connecting.
    + destruct Ht as [T HT].
      destruct Hr as (_ & _ & Hti & _). specialize (Hti _ _ HT).
      unfold good_timer in Hti. rewrite decide_True in Hti by done.
      rewrite (own_timeout_closes rt close_returns _ _ _ _ _ Hc Hx HT Hti) in Hst.
      done.
  - assert (Ha : alive pid tid sid x) by done.
    by destruct (alive_step rt pid tid sid ev x Ha Hown) as (_ & ? & ?).
Qed.

Lemma attempt_run evs : forall x,
  attempt_inv pid tid sid x -> attempt_inv pid tid sid (run rt evs x).
Proof.
  induction evs as [| ev evs IH]; intros x H; [done |].
  cbn. apply IH. by apply attempt_step.
Qed.

(** The open event of the WebSocket, while it is connecting, resolves the
    promise, resets the attempt counter and the backoff delay. *)
Lemma open_resolves x :
  attempt_inv pid tid sid x ->
  state_of sid x = Some CONNECTING ->
  promise_state pid (ws_open sid x) = Some (Fulfilled None) /\
  connectionAttempts (ws_open sid x) = 0 /\
  reconnectDelay (ws_open sid x) = 1000%Q /\
  isConnected (ws_open sid x) = true /\
  timers (ws_open sid x) !! tid = None.
Proof.
  intros (Hr & Hc & Hp) Hx. destruct (Hp Hx) as [_ [b Hpend]].
  unfold state_of in Hx. unfold ws_open.
  destruct (sockets x !! sid) as [ws|] eqn:Hl; [| done].
  cbn in Hx. injection Hx as Hx. rewrite decide_True by done.
  destruct Hr as (_ & _ & _ & Hso & _). specialize (Hso _ _ Hl).
  unfold good_socket in Hso. rewrite decide_True in Hso by done.
  destruct Hso as [Hwp Hwt].
  unfold onopen, resolve, promise_state. state_simpl.
  cbn [ws_promise ws_timer set_readyState]. rewrite Hwp, Hwt, Hpend. state_simpl.
  rewrite list_lookup_insert_eq by (by eapply lookup_lt_Some).
  rewrite lookup_delete_eq. done.
Qed.

(** The connection timeout, while the WebSocket is connecting, rejects the
    promise. *)
Lemma timeout_rejects x :
  attempt_inv pid tid sid x ->
  state_of sid x = Some CONNECTING ->
  promise_state pid (timer_fires rt tid x)
    = Some (Rejected (MkError ("Connection timeout for " +:+ url x))).
Proof.
  intros (Hr & Hc & Hp) Hx. destruct (Hp Hx) as [[T HT] [b Hpend]].
  pose proof Hr as (_ & _ & Hti & _). specialize (Hti _ _ HT).
  unfold good_timer in Hti. rewrite decide_True in Hti by done.
  unfold timer_fires. rewrite HT, Hti.
  unfold state_of in Hx. destruct (sockets x !! sid) as [ws|] eqn:Hl; [| done].
  cbn in Hx. injection Hx as Hx.
  destruct Hc as [_ Hc]. destruct (Hc _ _ Hl Hx) as [Hs Hi].
  unfold connectionTimeout_fired. state_simpl. rewrite Hi, Hs.
  rewrite decide_True.
  2: { unfold state_of. cbn. rewrite Hl. cbn. by rewrite Hx. }
  unfold ws_close. rewrite close_returns.
  unfold reject, promise_state. state_simpl. rewrite Hpend.
  destruct b; state_simpl;
    rewrite list_lookup_insert_eq by (by eapply lookup_lt_Some); done.
Qed.

(** A task that fulfils the promise is the open event of the WebSocket. *)
Lemma fulfilled_by_open ev x v :
  attempt_inv pid tid sid x ->
  (exists b, promises x !! pid = Some {| p_state := Pending; p_backoff := b |}) ->
  promise_state pid (step rt ev x) = Some (Fulfilled v) ->
  ev = WsOpen sid /\ state_of sid x = Some CONNECTING.
Proof.
  intros (Hr & Hc & Hp) [b Hpend] Hf.
  assert (Hd : (ev = WsOpen sid /\ state_of sid x = Some CONNECTING) \/
               ~ (ev = WsOpen sid /\ state_of sid x = Some CONNECTING)).
  { destruct (decide (state_of sid x = Some CONNECTING)); [| tauto].
    destruct ev; try (right; intros [? _]; discriminate).
    match goal with
    | |- (WsOpen ?i = _ /\ _) \/ _ =>
        destruct (decide (i = sid)) as [-> | ?];
          [by left | right; intros [[=] _]; done]
    end. }
  destruct Hd as [| Hn]; [done | exfalso].
  assert (Hu : unfulfilled pid tid sid x).
  { split; [done |]. intros s w. rewrite Hpend. by intros [= <-]. }
  destruct (unf_step rt pid tid sid ev x Hu Hn) as [_ Hu'].
  unfold promise_state in Hf.
  destruct (promises (step rt ev x) !! pid) as [s|] eqn:Hs; [| done].
  cbn in Hf. injection Hf as Hf. by eapply Hu'.
Qed.

End AttemptRun.

(** * The promise of [connect] *)

Section ConnectPromise.

Variable rt : Runtime.

Hypothesis close_returns : forall i, close_throws rt i = None.

Variables pid tid sid : nat.

Lemma settled_state evs p o x :
  promise_state p x = Some o -> o <> Pending ->
  promise_state p (run rt evs x) = Some o.
Proof.
  unfold promise_state. intros Hp Ho.
  destruct (promises x !! p) as [s|] eqn:Hs; [| done].
  cbn in Hp. injection Hp as <-.
  by rewrite (settled_run rt evs x x (settled_refl x) p s Hs Ho).
Qed.

(** While the WebSocket is connecting, the connection timeout has not
    fired. *)
Lemma connecting_before_timeout evs x :
  attempt_inv pid tid sid x ->
  state_of sid (run rt evs x) = Some CONNECTING ->
  TimerFires tid ∉ evs.
Proof.
  intros Hx Hc Hin. apply list_elem_of_split in Hin as (a & b & ->).
  rewrite run_app in Hc. cbn in Hc.
  pose proof (attempt_run rt close_returns pid tid sid a x Hx) as Ha.
  set (s := run rt a x) in *.
  pose proof (attempt_step rt close_returns pid tid sid (TimerFires tid) s Ha)
    as (Hr' & _).
  destruct (progressed_run rt b (step rt (TimerFires tid) s)) as [_ Hb].
  apply Hb in Hc; [| apply Hr'].
  destruct (progressed_step rt (TimerFires tid) s) as [_ Hs].
  pose proof Hc as Hc'. apply Hs in Hc'; [| apply Ha].
  destruct Ha as (Hr & Hco & Hp). destruct (Hp Hc') as [[T HT] _].
  destruct Hr as (_ & _ & Hti & _). specialize (Hti _ _ HT).
  unfold good_timer in Hti. rewrite decide_True in Hti by done.
  cbn [step] in Hc.
  rewrite (own_timeout_closes rt close_returns _ _ _ _ _ Hco Hc' HT Hti) in Hc.
  done.
Qed.

Lemma fulfilled_opens_in_time evs : forall x v,
  attempt_inv pid tid sid x ->
  promise_state pid x = Some Pending ->
  promise_state pid (run rt evs x) = Some (Fulfilled v) ->
  v = None /\ opens_in_time rt sid tid evs x.
Proof.
  induction evs as [| ev evs IH] using rev_ind; intros x v Hx Hpend Hf.
  { cbn in Hf. congruence. }
  rewrite run_app in Hf. cbn in Hf.
  pose proof (attempt_run rt close_returns pid tid sid evs x Hx) as Hs.
  set (s := run rt evs x) in *.
  destruct (promise_state pid s) as [[| w | e] |] eqn:Hps.
  - (* the last task settles the promise *)
    assert (Hb : exists b, promises s !! pid
                           = Some {| p_state := Pending; p_backoff := b |}).
    { unfold promise_state in Hps.
      destruct (promises s !! pid) as [[ps b]|]; [| done].
      cbn in Hps. injection Hps as ->. eauto. }
    destruct (fulfilled_by_open rt pid tid sid ev s v Hs Hb Hf) as [-> Hc].
    destruct (open_resolves pid tid sid s Hs Hc) as (Ho & _).
    cbn [step] in Hf. rewrite Ho in Hf. injection Hf as <-.
    split; [done |]. exists evs, []. split; [done |]. split; [| done].
    exact (connecting_before_timeout evs x Hx Hc).
  - (* it was resolved before *)
    assert (Hw : promise_state pid (run rt [ev] s) = Some (Fulfilled w)).
    { by apply settled_state. }
    cbn in Hw. rewrite Hw in Hf. injection Hf as <-.
    destruct (IH x w Hx Hpend Hps) as (-> & evs1 & evs2 & -> & Hn & Hc).
    split; [done |]. exists evs1, (evs2 ++ [ev]).
    split; [by rewrite <- app_assoc | done].
  - (* it was rejected before *)
    assert (Hw : promise_state pid (run rt [ev] s) = Some (Rejected e)).
    { by apply settled_state. }
    cbn in Hw. congruence.
  - destruct Hs as (((Hlt & _) & _) & _).
    unfold promise_state in Hps. apply lookup_lt_is_Some in Hlt as [ps Hlt].
    by rewrite Hlt in Hps.
Qed.

Lemma opens_in_time_fulfilled evs x :
  attempt_inv pid tid sid x ->
  opens_in_time rt sid tid evs x ->
  promise_state pid (run rt evs x) = Some (Fulfilled None).
Proof.
  intros Hx (evs1 & evs2 & -> & _ & Hc).
  rewrite run_app. cbn.
  pose proof (attempt_run rt close_returns pid tid sid evs1 x Hx) as Hs.
  destruct (open_resolves pid tid sid _ Hs Hc) as (Ho & _).
  by apply settled_state.
Qed.

End ConnectPromise.

(** C3.  [connect] is called with a well-formed URL, in a state in which
    the service is connected only while it holds a socket handle, a
    WebSocket that is connecting is the one it holds, and nothing refers to
    the promise and the timer that the call allocates; [new WebSocket] and
    [close] do not raise.  Then the promise that [connect] returns is
    pending, the connection timeout is armed with the [timeout] option or
    10000 ms, and the WebSocket is connecting.  Whatever tasks run
    afterwards:
    - once the promise is settled it stays settled the same way, so it
      settles at most once, and does not resolve after the timeout has
      rejected it;
    - the promise is resolved exactly when the open event of the WebSocket
      comes while the WebSocket is connecting, the connection timeout not
      having fired; it is resolved with no value;
    - that open event resets [connectionAttempts] to 0 and [reconnectDelay]
      to 1000 ms, sets [isConnected] and cancels the timeout;
    - the connection timeout, firing while the WebSocket is connecting,
      rejects the promise. *)
Theorem connect_settles_once (rt : Runtime) (serverUrl : string)
    (options : ConnectOptions) (st : State) :
  (forall i, close_throws rt i = None) ->
  valid_url serverUrl = true ->
  ctor_throws rt serverUrl = None ->
  conn_inv st ->
  unused (length (promises st)) (next_timer st) st ->
  let pid := length (promises st) in
  let tid := next_timer st in
  let sid := length (sockets st) in
  let st1 := connect rt serverUrl options st in
  (promise_state pid st1 = Some Pending /\
   timers st1 !! tid
     = Some {| t_delay := inject_Z (timeout_or (co_timeout options) 10000);
               t_callback := CbConnectionTimeout pid |} /\
   state_of sid st1 = Some CONNECTING) /\
  (forall evs evs' o,
     promise_state pid (run rt evs st1) = Some o -> o <> Pending ->
     promise_state pid (run rt (evs ++ evs') st1) = Some o) /\
  (forall evs v,
     promise_state pid (run rt evs st1) = Some (Fulfilled v) <->
     v = None /\ opens_in_time rt sid tid evs st1) /\
  (forall evs,
     let s := run rt evs st1 in
     state_of sid s = Some CONNECTING ->
     promise_state pid (ws_open sid s) = Some (Fulfilled None) /\
     connectionAttempts (ws_open sid s) = 0 /\
     reconnectDelay (ws_open sid s) = 1000%Q /\
     isConnected (ws_open sid s) = true /\
     timers (ws_open sid s) !! tid = None) /\
  (forall evs,
     let s := run rt evs st1 in
     state_of sid s = Some CONNECTING ->
     promise_state pid (timer_fires rt tid s)
       = Some (Rejected (MkError ("Connection timeout for " +:+ url s)))).
Proof.
  intros Hclose Hv Hctor Hconn Hun pid tid sid st1.
  destruct (connect_attempt rt Hclose serverUrl options st Hv Hctor Hconn Hun)
    as (Hinv & Htimer & Hprom & Hstate).
  fold pid tid sid st1 in Hinv, Htimer, Hprom, Hstate.
  assert (Hpend : promise_state pid st1 = Some Pending).
  { unfold promise_state. by rewrite Hprom. }
  split; [done |]. split; [| split; [| split]].
  - intros evs evs' o Ho Hne. rewrite run_app. by apply settled_state.
  - intros evs v. split.
    + by apply fulfilled_opens_in_time.
    + intros [-> Ho]. by eapply opens_in_time_fulfilled.
  - intros evs s Hc. apply (open_resolves pid tid sid); [| done].
    by apply attempt_run.
  - intros evs s Hc. apply (timeout_rejects rt Hclose pid tid sid); [| done].
    by apply attempt_run.
Qed.

(** The first [connect] of a fresh service: the open event resolves its
    promise, and the timeout that fires afterwards leaves it resolved. *)
Lemma connect_settles_once_witness :
  let rt := browser None in
  let st1 := connect rt "ws://host" no_options createWebSocketService in
  promise_state 0 st1 = Some Pending /\
  promise_state 0 (run rt [WsOpen 0; TimerFires 1] st1) = Some (Fulfilled None).
Proof.
  intros rt st1.
  assert (H1 : forall i, close_throws rt i = None) by reflexivity.
  assert (H2 : valid_url "ws://host" = true) by reflexivity.
  assert (H3 : ctor_throws rt "ws://host" = None) by reflexivity.
  assert (H4 : conn_inv createWebSocketService).
  { split; [discriminate | intros sid ws; cbn; discriminate]. }
  assert (H5 : unused (length (promises createWebSocketService))
                 (next_timer createWebSocketService) createWebSocketService).
  { repeat split; cbn in *; try discriminate;
      rewrite ?lookup_empty in *; discriminate. }
  destruct (connect_settles_once rt "ws://host" no_options createWebSocketService
              H1 H2 H3 H4 H5) as ((Hp & _ & Hc) & _ & Hiff & _).
  split; [exact Hp |].
  apply Hiff. split; [reflexivity |].
  exists [], [TimerFires 1]. split; [reflexivity |]. split; [| exact Hc].
  apply not_elem_of_nil.
Defined.

(** * A WebSocket that closes before it opens *)

Section EarlyClose.

Variable rt : Runtime.

Hypothesis close_returns : forall i, close_throws rt i = None.

Variables pid tid sid : nat.

Lemma onclose_promises ws code reason wasClean x :
  promises (onclose ws code reason wasClean x) = promises x.
Proof. unfold onclose, scheduleReconnect. by repeat case_match. Qed.

Lemma onclose_clears_timer ws code reason wasClean x :
  ws_timer ws < next_timer x ->
  timers (onclose ws code reason wasClean x) !! ws_timer ws = None.
Proof.
  intros Hlt. unfold onclose, scheduleReconnect.
  repeat case_match; state_simpl;
    rewrite ?lookup_insert_ne by lia;
    rewrite ?lookup_delete_ne by congruence;
    try apply lookup_delete_eq.
  all: apply lookup_delete_None; right; apply lookup_delete_eq.
Qed.

(** The close of the WebSocket of the attempt, while it is connecting,
    clears the connection timeout and leaves the promise pending. *)
Lemma early_close_orphans code reason wasClean x :
  attempt_inv pid tid sid x ->
  state_of sid x = Some CONNECTING ->
  let x' := ws_closed sid code reason wasClean x in
  unfulfilled pid tid sid x' /\ unrejected pid tid sid x' /\
  state_of sid x' <> Some CONNECTING.
Proof.
  intros Hx Hc x'.
  pose proof (refs_step rt pid tid sid (WsClose sid code reason wasClean) x
                ltac:(apply Hx)) as Hr'.
  cbn [step] in Hr'. fold x' in Hr'.
  destruct Hx as (Hr & Hco & Hp). destruct (Hp Hc) as [_ [b Hpend]].
  unfold state_of in Hc. destruct (sockets x !! sid) as [ws|] eqn:Hl; [| done].
  cbn in Hc. injection Hc as Hc.
  pose proof Hr as ((_ & Hlt & _) & _ & _ & Hso & _). specialize (Hso _ _ Hl).
  unfold good_socket in Hso. rewrite decide_True in Hso by done.
  destruct Hso as [Hwp Hwt].
  assert (Hprom : promises x' = promises x).
  { subst x'. unfold ws_closed. rewrite Hl.
    destruct (decide _); [done |]. by rewrite onclose_promises. }
  assert (Htim : timers x' !! tid = None).
  { subst x'. unfold ws_closed. rewrite Hl.
    destruct (decide _); [congruence |]. rewrite <- Hwt.
    apply onclose_clears_timer. cbn. by rewrite Hwt. }
  split; [| split].
  - split; [done |]. intros s v. rewrite Hprom, Hpend. by intros [= <-].
  - split; [done |]. split; [done |].
    intros s e. rewrite Hprom, Hpend. by intros [= <-].
  - apply ws_closed_leaves_connecting.
Qed.

(** An attempt whose WebSocket is no longer connecting and whose timeout is
    gone stays undecided. *)
Lemma orphan_run evs : forall x,
  unfulfilled pid tid sid x -> unrejected pid tid sid x ->
  state_of sid x <> Some CONNECTING ->
  promise_state pid (run rt evs x) = Some Pending.
Proof.
  induction evs as [| ev evs IH]; intros x Hf Hr Hc.
  - cbn. destruct Hf as (((Hlt & _) & _) & Hf). destruct Hr as (_ & _ & Hr).
    unfold promise_state. apply lookup_lt_is_Some in Hlt as [[s b] Hl].
    rewrite Hl. cbn. specialize (Hf _ (match s with Fulfilled v => v | _ => None end) Hl).
    specialize (Hr _ (match s with Rejected e => e | _ => MkError "" end) Hl).
    cbn in Hf, Hr. by destruct s.
  - cbn. apply IH.
    + apply unf_step; [done |]. by intros [_ ?].
    + by apply unr_step.
    + intros Hc'. apply Hc.
      destruct (progressed_step rt ev x) as [_ Hpr]. apply Hpr; [| done].
      apply Hf.
Qed.

End EarlyClose.

(** X1.  [connect] is called with a well-formed URL in a well-formed state
    of a service whose [new WebSocket] and [close] do not raise.  If the
    WebSocket closes while it is still connecting (the server refuses the
    connection, say), [onclose] clears the connection timeout and nothing
    rejects the promise: whatever tasks run afterwards, reconnection
    attempts included, the promise that [connect] returned stays pending. *)
Theorem early_close_never_settles (rt : Runtime) (serverUrl : string)
    (options : ConnectOptions) (st : State) :
  (forall i, close_throws rt i = None) ->
  valid_url serverUrl = true ->
  ctor_throws rt serverUrl = None ->
  conn_inv st ->
  unused (length (promises st)) (next_timer st) st ->
  let pid := length (promises st) in
  let sid := length (sockets st) in
  let st1 := connect rt serverUrl options st in
  forall (evs1 : list Event) (code : Z) (reason : string) (wasClean : bool)
         (evs2 : list Event),
    state_of sid (run rt evs1 st1) = Some CONNECTING ->
    promise_state pid
      (run rt (evs1 ++ WsClose sid code reason wasClean :: evs2) st1)
    = Some Pending.
Proof.
  intros Hclose Hv Hctor Hconn Hun pid sid st1 evs1 code reason wasClean evs2 Hc.
  destruct (connect_attempt rt Hclose serverUrl options st Hv Hctor Hconn Hun)
    as (Hinv & _).
  fold pid sid st1 in Hinv.
  pose proof (attempt_run rt Hclose _ _ _ evs1 _ Hinv) as Hs.
  destruct (early_close_orphans rt _ _ _ code reason wasClean _ Hs Hc)
    as (Hf & Hr & Hn).
  rewrite run_app. cbn. by eapply orphan_run.
Qed.

(** A refused connection: neither the timers nor a late open event settle
    the promise of the first [connect]. *)
Lemma early_close_never_settles_witness :
  let rt := browser None in
  let st1 := connect rt "ws://host" no_options createWebSocketService in
  promise_state 0
    (run rt [WsClose 0 1006%Z "refused" false; TimerFires 1; TimerFires 2; WsOpen 0] st1)
  = Some Pending.
Proof.
  intros rt st1.
  assert (H1 : forall i, close_throws rt i = None) by reflexivity.
  assert (H2 : valid_url "ws://host" = true) by reflexivity.
  assert (H3 : ctor_throws rt "ws://host" = None) by reflexivity.
  assert (H4 : conn_inv createWebSocketService).
  { split; [discriminate | intros sid ws; cbn; discriminate]. }
  assert (H5 : unused (length (promises createWebSocketService))
                 (next_timer createWebSocketService) createWebSocketService).
  { repeat split; cbn in *; try discriminate;
      rewrite ?lookup_empty in *; discriminate. }
  apply (early_close_never_settles rt "ws://host" no_options createWebSocketService
           H1 H2 H3 H4 H5 [] 1006%Z "refused" false
           [TimerFires 1; TimerFires 2; WsOpen 0]).
  reflexivity.
Defined.

(** * The socket handle in the states the service reaches *)

Section Handle.

Variable rt : Runtime.

Lemma handle_ok_same st x : same_conn st x -> handle_ok st -> handle_ok x.
Proof. intros (Hs & _ & Hss) H. unfold handle_ok. by rewrite Hs, Hss. Qed.

Lemma handle_ok_none x : socket x = None -> handle_ok x.
Proof. intros Hs sid. by rewrite Hs. Qed.

Lemma handle_ok_connect serverUrl options x :
  handle_ok (connect rt serverUrl options x).
Proof.
  rewrite connect_unfold. cbn zeta.
  destruct (torn_down_facts rt (new_promise x)) as (Hs & _).
  set (T := torn_down rt (new_promise x)) in *.
  destruct (negb (valid_url serverUrl)).
  { eapply (handle_ok_same T); [conn |]. by apply handle_ok_none. }
  destruct (ctor_throws rt serverUrl).
  { eapply (handle_ok_same T); [conn |]. by apply handle_ok_none. }
  intros sid. state_simpl. intros [= <-]. rewrite length_app. cbn. lia.
Qed.

Lemma handle_ok_connectionTimeout_fired p x :
  handle_ok x -> handle_ok (connectionTimeout_fired rt p x).
Proof.
  intros H. unfold connectionTimeout_fired.
  destruct (isConnected x); [done |].
  set (y := triggerEvent _ _ _).
  assert (Hy : same_conn x y) by (subst y; conn).
  assert (Hoy : handle_ok y) by (by eapply handle_ok_same).
  destruct (socket y) as [c|] eqn:Hc; [| eapply (handle_ok_same y); [conn | done]].
  destruct (decide _); [| eapply (handle_ok_same y); [conn | done]].
  unfold ws_close. destruct (close_throws rt c); [done |].
  set (z := set_socket None _).
  eapply (handle_ok_same z); [conn |]. by apply handle_ok_none.
Qed.

Lemma handle_ok_ws_open i x : handle_ok x -> handle_ok (ws_open i x).
Proof.
  intros H. unfold ws_open.
  destruct (sockets x !! i) as [ws|]; [| done].
  destruct (decide _); [| done].
  destruct (onopen_conn ws (set_sockets (<[i := set_readyState OPEN ws]> (sockets x)) x))
    as (Hso & _ & Hsso).
  intros sid. rewrite Hso, Hsso. cbn. rewrite length_insert. apply H.
Qed.

Lemma handle_ok_ws_closed i code reason wasClean x :
  handle_ok x -> handle_ok (ws_closed i code reason wasClean x).
Proof.
  intros H. unfold ws_closed.
  destruct (sockets x !! i) as [ws|]; [| done].
  destruct (decide _); [done |].
  destruct (onclose_conn ws code reason wasClean
              (set_sockets (<[i := set_readyState CLOSED ws]> (sockets x)) x))
    as (Hso & _ & Hsso).
  intros sid. rewrite Hso, Hsso. cbn. rewrite length_insert. apply H.
Qed.

Lemma handle_ok_step ev x : handle_ok x -> handle_ok (step rt ev x).
Proof.
  intros H. destruct ev; cbn [step].
  - apply handle_ok_connect.
  - apply handle_ok_none, disconnect_socket.
  - eapply handle_ok_same; [| exact H]. conn.
  - eapply handle_ok_same; [| exact H]. conn.
  - eapply handle_ok_same; [| exact H]. conn.
  - eapply handle_ok_same; [| exact H]. unfold addEventListener. conn.
  - eapply handle_ok_same; [| exact H]. unfold removeEventListener. conn.
  - eapply handle_ok_same; [| exact H]. unfold getClients. conn.
  - eapply handle_ok_same; [| exact H]. unfold getPresets. conn.
  - eapply handle_ok_same; [| exact H]. unfold updateDisplay, Promise_reject. conn.
  - eapply handle_ok_same; [| exact H]. unfold savePreset, Promise_reject. conn.
  - eapply handle_ok_same; [| exact H]. unfold loadPreset, Promise_reject. conn.
  - by apply handle_ok_ws_open.
  - eapply handle_ok_same; [| exact H]. unfold ws_message. conn.
  - eapply handle_ok_same; [| exact H]. unfold ws_error. conn.
  - by apply handle_ok_ws_closed.
  - unfold timer_fires. destruct (timers x !! tid) as [T|]; [| done].
    assert (Hc : handle_ok (clearTimeout tid x)) by exact H.
    destruct (t_callback T).
    + by apply handle_ok_connectionTimeout_fired.
    + unfold reconnect_fired.
      eapply handle_ok_same; [apply same_conn_catch_backoff, same_conn_refl |].
      apply handle_ok_connect.
    + eapply handle_ok_same; [| exact Hc]. conn.
Qed.

Lemma reachable_conn (close_returns : forall i, close_throws rt i = None) evs :
  forall x, conn_inv x -> handle_ok x ->
  conn_inv (run rt evs x) /\ handle_ok (run rt evs x).
Proof.
  induction evs as [| ev evs IH]; intros x Hc Hh; [done |].
  cbn. apply IH; [by apply conn_step | by apply handle_ok_step].
Qed.

End Handle.

(** X2.  With a transport whose [close] does not raise, in every state the
    service reaches from its creation: when [getConnectionStatus()] reports
    [connected], it reports a socket state too (the service holds a socket
    handle); and a WebSocket that is still connecting is the one the service
    holds, the status reporting not connected. *)
Theorem connected_has_socket (rt : Runtime) (evs : list Event) :
  (forall i, close_throws rt i = None) ->
  let st := run rt evs createWebSocketService in
  let status := getConnectionStatus rt st in
  (connected status = true ->
   exists sid r, socket st = Some sid /\ socketState status = Some r) /\
  (forall sid, state_of sid st = Some CONNECTING ->
     socket st = Some sid /\ connected status = false /\
     socketState status = Some CONNECTING).
Proof.
  intros Hclose st status.
  destruct (reachable_conn rt Hclose evs createWebSocketService) as [[H1 H2] Hh].
  { split; [discriminate | intros sid ws; cbn; discriminate]. }
  { by apply handle_ok_none. }
  fold st in H1, H2, Hh. split.
  - intros Hc. cbn in Hc. destruct (socket st) as [sid|] eqn:Hs; [| by destruct H1].
    specialize (Hh sid Hs). apply lookup_lt_is_Some in Hh as [ws Hws].
    exists sid, (readyState ws). split; [done |].
    cbn. rewrite Hs. cbn. unfold state_of. by rewrite Hws.
  - intros sid Hst. unfold state_of in Hst.
    destruct (sockets st !! sid) as [ws|] eqn:Hws; [| done].
    cbn in Hst. injection Hst as Hst. destruct (H2 sid ws Hws Hst) as [Hs Hi].
    split; [done |]. split; [done |].
    cbn. rewrite Hs. cbn. unfold state_of. rewrite Hws. cbn. by rewrite Hst.
Qed.

Lemma connected_has_socket_witness :
  let rt := browser None in
  let st := run rt [CallConnect "ws://host" no_options; WsOpen 0] createWebSocketService in
  exists sid r, socket st = Some sid /\ socketState (getConnectionStatus rt st) = Some r.
Proof.
  intros rt st.
  assert (H1 : forall i, close_throws rt i = None) by reflexivity.
  destruct (connected_has_socket rt
              [CallConnect "ws://host" no_options; WsOpen 0] H1) as [H _].
  apply H. reflexivity.
Defined.

(** * Reconnections do not pile up *)

Create HintDb onerec.

Section OneReconnection.

Lemma onerec_frame (f : State -> State) x :
  (forall y, timers (f y) = timers y /\ reconnectTimeout (f y) = reconnectTimeout y) ->
  one_reconnection x -> one_reconnection (f x).
Proof.
  intros Hf H. unfold one_reconnection. destruct (Hf x) as [-> ->]. exact H.
Qed.

Lemma onerec_resolve x p v : one_reconnection x -> one_reconnection (resolve p v x).
Proof. intros H. unfold resolve. by repeat case_match. Qed.

Lemma onerec_reject x p e : one_reconnection x -> one_reconnection (reject p e x).
Proof. intros H. unfold reject. by repeat case_match. Qed.

Lemma onerec_catch_backoff x p :
  one_reconnection x -> one_reconnection (catch_backoff p x).
Proof. intros H. unfold catch_backoff. by repeat case_match. Qed.

Lemma onerec_setTimeout x cb d :
  cb <> CbReconnect -> one_reconnection x -> one_reconnection (setTimeout cb d x).
Proof.
  intros Hcb H t T. cbn. intros Hl Ht.
  apply lookup_insert_Some in Hl as [[_ <-] | [_ Hl]]; [done |]. by eapply H.
Qed.

Lemma onerec_clearTimeout x t :
  one_reconnection x -> one_reconnection (clearTimeout t x).
Proof.
  intros H t' T. cbn. intros Hl Ht.
  apply lookup_delete_Some in Hl as [_ Hl]. by eapply H.
Qed.

(** [scheduleReconnect] replaces the reconnection that is pending. *)
Lemma onerec_scheduleReconnect x :
  one_reconnection x -> one_reconnection (scheduleReconnect x).
Proof.
  intros H t T. unfold scheduleReconnect.
  destruct (reconnectTimeout x) as [t0|] eqn:Hr; cbn; intros Hl Ht.
  - apply lookup_insert_Some in Hl as [[<- _] | [Hne Hl]]; [done |].
    apply lookup_delete_Some in Hl as [Hne' Hl].
    specialize (H _ _ Hl Ht). congruence.
  - apply lookup_insert_Some in Hl as [[<- _] | [Hne Hl]]; [done |].
    specialize (H _ _ Hl Ht). congruence.
Qed.

End OneReconnection.

#[export] Hint Resolve onerec_resolve onerec_reject onerec_catch_backoff
  onerec_clearTimeout onerec_scheduleReconnect : onerec.
#[export] Hint Extern 2 (one_reconnection (setTimeout _ _ _)) =>
  apply onerec_setTimeout; [discriminate |] : onerec.
#[export] Hint Extern 3 (one_reconnection (?f ?x)) =>
  apply (onerec_frame f); [intros; split; reflexivity |] : onerec.

Ltac onerec :=
  cbn zeta; repeat case_match; simplify_eq; cbn [fst snd]; eauto 40 with onerec.

Section OneReconnectionOps.

Variable rt : Runtime.

Lemma onerec_offMessage x messageType handler :
  one_reconnection x -> one_reconnection (offMessage messageType handler x).
Proof. intros H. unfold offMessage. onerec. Qed.

(** [disconnect] cancels the reconnection that is pending. *)
Lemma onerec_disconnect x : one_reconnection x -> one_reconnection (disconnect rt x).
Proof.
  intros H t T. rewrite disconnect_timers, disconnect_reconnectTimeout.
  destruct (reconnectTimeout x) as [t0|] eqn:Hr; intros Hl Ht.
  - apply lookup_delete_Some in Hl as [Hne Hl].
    specialize (H _ _ Hl Ht). congruence.
  - specialize (H _ _ Hl Ht). congruence.
Qed.

Lemma onerec_send x message : one_reconnection x -> one_reconnection (send rt message x).
Proof. intros H. unfold send. onerec. Qed.

Lemma onerec_run_handler x handler data :
  one_reconnection x -> one_reconnection (run_handler handler data x).2.
Proof.
  intros H. unfold run_handler.
  pose proof (onerec_offMessage x) as Ho. onerec.
Qed.

Lemma onerec_forEach_handler n : forall k messageType data x,
  one_reconnection x -> one_reconnection (forEach_handler n k messageType data x).
Proof.
  induction n as [| n IH]; intros k messageType data x H; [done |].
  cbn [forEach_handler]. apply IH.
  destruct (messageHandlers x !! messageType ≫= _) as [h|]; [| done].
  pose proof (onerec_run_handler (log [HandlerRan h data] x) h data) as Hr.
  destruct (run_handler h data _) as [[e|] x']; cbn [snd] in Hr; onerec.
Qed.

Lemma onerec_handleMessage x data :
  one_reconnection x -> one_reconnection (handleMessage data x).2.
Proof.
  intros H. unfold handleMessage.
  repeat case_match; simplify_eq; cbn [snd]; try done.
  by apply onerec_forEach_handler.
Qed.

End OneReconnectionOps.

#[export] Hint Resolve onerec_offMessage onerec_disconnect onerec_send : onerec.

Section OneReconnectionStep.

Variable rt : Runtime.

Lemma onerec_connect x serverUrl options :
  one_reconnection x -> one_reconnection (connect rt serverUrl options x).
Proof. intros H. unfold connect. onerec. Qed.

Lemma onerec_connectionTimeout_fired x p :
  one_reconnection x -> one_reconnection (connectionTimeout_fired rt p x).
Proof. intros H. unfold connectionTimeout_fired, ws_close. onerec. Qed.

Lemma onerec_onopen x ws : one_reconnection x -> one_reconnection (onopen ws x).
Proof. intros H. unfold onopen. onerec. Qed.

Lemma onerec_onmessage x rawData :
  one_reconnection x -> one_reconnection (onmessage rt rawData x).
Proof.
  intros H. unfold onmessage.
  destruct (JSON_parse rt rawData) as [data|]; [| onerec].
  pose proof (onerec_handleMessage x data H) as Hh.
  destruct (handleMessage data x) as [[e|] x']; cbn [snd] in Hh; onerec.
Qed.

Lemma onerec_onclose x ws code reason wasClean :
  one_reconnection x -> one_reconnection (onclose ws code reason wasClean x).
Proof. intros H. unfold onclose. onerec. Qed.

Lemma onerec_onerror x : one_reconnection x -> one_reconnection (onerror x).
Proof. intros H. unfold onerror. onerec. Qed.

Lemma onerec_reconnect_fired x :
  one_reconnection x -> one_reconnection (reconnect_fired rt x).
Proof.
  intros H. unfold reconnect_fired.
  apply onerec_catch_backoff, onerec_connect. onerec.
Qed.

Lemma onerec_requestTimeout_fired x op p t :
  one_reconnection x -> one_reconnection (requestTimeout_fired op p t x).
Proof. intros H. unfold requestTimeout_fired. onerec. Qed.

Lemma onerec_request x op message timeout p :
  one_reconnection x -> one_reconnection (request rt op message timeout p x).
Proof.
  intros H. unfold request.
  set (y := send rt message _).
  assert (Hy : one_reconnection y) by (subst y; onerec).
  clearbody y. onerec.
Qed.

End OneReconnectionStep.

#[export] Hint Resolve onerec_connect onerec_connectionTimeout_fired
  onerec_onopen onerec_onmessage onerec_onclose onerec_onerror
  onerec_reconnect_fired onerec_requestTimeout_fired onerec_request : onerec.

Section OneReconnectionRun.

Variable rt : Runtime.

Lemma onerec_step ev x : one_reconnection x -> one_reconnection (step rt ev x).
Proof.
  intros H. destruct ev; cbn [step].
  all: unfold getClients, getPresets, updateDisplay, savePreset, loadPreset,
         Promise_reject, ws_open, ws_message, ws_error, ws_closed, timer_fires,
         addEventListener, removeEventListener.
  all: onerec.
Qed.

Lemma onerec_run evs : forall x,
  one_reconnection x -> one_reconnection (run rt evs x).
Proof.
  induction evs as [| ev evs IH]; intros x H; [done |].
  cbn. apply IH. by apply onerec_step.
Qed.

End OneReconnectionRun.

(** X3.  In every state the service reaches from its creation, at most one
    timer is pending to start a reconnection, and it is the one recorded in
    [reconnectTimeout]: [scheduleReconnect] replaces the pending
    reconnection and [disconnect] cancels it, so reconnections never pile
    up. *)
Theorem reconnections_never_pile_up (rt : Runtime) (evs : list Event) :
  let st := run rt evs createWebSocketService in
  (forall t T, timers st !! t = Some T -> t_callback T = CbReconnect ->
               reconnectTimeout st = Some t) /\
  (forall t t', is_Some (scheduled_reconnections st !! t) ->
                is_Some (scheduled_reconnections st !! t') -> t = t').
Proof.
  intros st.
  assert (H : one_reconnection st).
  { apply onerec_run. intros t T. cbn. by rewrite lookup_empty. }
  split; [exact H |].
  intros t t' [T Ht] [T' Ht'].
  unfold scheduled_reconnections, reconnections in Ht, Ht'.
  apply map_lookup_filter_Some in Ht as [Ht Hc], Ht' as [Ht' Hc'].
  cbn in Hc, Hc'.
  pose proof (H _ _ Ht Hc). pose proof (H _ _ Ht' Hc'). congruence.
Qed.

(** * [new WebSocket] raises *)

(** X4.  When [new WebSocket(url)] raises on a well-formed URL, the [catch]
    block of [connect] stores the exception in [connectionError] and then
    reads [connectionTimeout], which is declared inside the [try] block: the
    promise rejects with the ReferenceError, not with the exception of the
    constructor, and [connect] fires no [error] event of its own.  The
    attempt is counted and the URL recorded; no WebSocket is created, no
    timer is armed and the service holds no socket handle. *)
Theorem constructor_failure (rt : Runtime) (serverUrl : string)
    (options : ConnectOptions) (error : Error) (st : State) :
  valid_url serverUrl = true ->
  ctor_throws rt serverUrl = Some error ->
  let pid := length (promises st) in
  let st' := connect rt serverUrl options st in
  promise_state pid st'
    = Some (Rejected (MkError "ReferenceError: connectionTimeout is not defined")) /\
  connectionError st' = Some (DError error) /\
  connectionAttempts st' = S (connectionAttempts st) /\
  url st' = serverUrl /\
  socket st' = None /\
  length (sockets st') = length (sockets st) /\
  next_timer st' = next_timer st /\
  exists es,
    effects st' = effects st ++ es /\
    Forall (fun e => is_open_transport e = false) es /\
    ((forall sid, socket st = Some sid -> close_throws rt sid = None) ->
     Forall (fun e => is_event EvError e = false) es).
Proof.
  intros Hv Hc pid st'. subst st'. rewrite connect_unfold. cbn zeta.
  rewrite Hv, Hc. cbn [negb].
  destruct (torn_down_facts rt (new_promise st))
    as (Hs & _ & Hp & _ & Ha & _ & Hn & Hl & _).
  assert (He : exists es,
             effects (torn_down rt (new_promise st)) = effects st ++ es /\
             Forall (fun e => is_open_transport e = false) es /\
             ((forall sid, socket st = Some sid -> close_throws rt sid = None) ->
              Forall (fun e => is_event EvError e = false) es)).
  { unfold torn_down. cbn [socket new_promise set_promises].
    destruct (socket st) as [c|] eqn:Hc'.
    - destruct (disconnect_effects rt (new_promise st)) as (es & He & _ & Ho & Herr).
      exists es. split; [exact He |]. split; [exact Ho |].
      intros Hcl. apply Herr. cbn. by rewrite Hc'.
    - exists []. cbn. by rewrite app_nil_r. }
  set (T := torn_down rt (new_promise st)) in *.
  cbn [new_promise set_promises promises connectionAttempts next_timer sockets]
    in Hp, Ha, Hn, Hl.
  assert (Hpend : promises T !! pid = Some {| p_state := Pending; p_backoff := false |}).
  { rewrite Hp. apply lookup_snoc. }
  subst pid. unfold reject, promise_state. state_simpl. rewrite Hpend. state_simpl.
  rewrite list_lookup_insert_eq by (by eapply lookup_lt_Some).
  rewrite Ha. repeat split; try done.
Qed.

Lemma constructor_failure_witness :
  let st' := connect refusing "wss://host" no_options createWebSocketService in
  promise_state 0 st'
    = Some (Rejected (MkError "ReferenceError: connectionTimeout is not defined")) /\
  connectionError st' = Some (DError (MkError "SecurityError: insecure connection")) /\
  effects st' = [].
Proof.
  intros st'.
  destruct (constructor_failure refusing "wss://host" no_options
              (MkError "SecurityError: insecure connection") createWebSocketService
              eq_refl eq_refl) as (H1 & H2 & _).
  split; [exact H1 |]. split; [exact H2 |]. reflexivity.
Defined.

(** * The round trip of a request *)

Section RoundTrip.

Variable rt : Runtime.

Lemma request_sent_effects op message timeout pid st sid :
  send_error rt message st = None ->
  socket st = Some sid ->
  effects (request rt op message timeout pid st) = effects st ++ [WsSent sid message].
Proof.
  intros He Hs. unfold request.
  set (st1 := setTimeout _ _ (onMessage _ _ st)).
  assert (He1 : send_error rt message st1 = None) by exact He.
  destruct (send_resolved rt _ _ He1) as (sid' & Hs' & ->).
  change (socket st1) with (socket st) in Hs'.
  unfold promise_state. state_simpl.
  change (promises st1) with (promises st). rewrite lookup_snoc. cbn.
  congruence.
Qed.

(** A request on a connected service whose WebSocket is open. *)
Lemma request_pending r timeout st sid pre :
  valid_args r = true ->
  isConnected st = true ->
  socket st = Some sid ->
  state_of sid st = Some OPEN ->
  send_throws rt sid (message_of r) = None ->
  default [] (messageHandlers st !! reply_type (op_of r)) = pre ->
  let pid := length (promises st) in
  let timeoutId := next_timer st in
  let st1 := perform rt r timeout st in
  messageHandlers st1 !! reply_type (op_of r)
    = Some (pre ++ [HOneShot (op_of r) pid timeoutId]) /\
  timers st1 =
    <[timeoutId := {| t_delay := inject_Z (timeout_or timeout 5000);
                      t_callback := CbRequestTimeout (op_of r) pid |}]> (timers st) /\
  promises st1 !! pid = Some {| p_state := Pending; p_backoff := false |} /\
  state_of sid st1 = Some OPEN /\
  effects st1 = effects st ++ [WsSent sid (message_of r)].
Proof.
  intros Hv Hc Hsock Hopen Hsend Hpre pid timeoutId st1.
  assert (He : send_error rt (message_of r) (new_promise st) = None).
  { unfold send_error. state_simpl. rewrite Hc, Hsock. cbn [negb].
    change (state_of sid (new_promise st)) with (state_of sid st).
    by destruct (decide _). }
  assert (Hst1 : st1 = request rt (op_of r) (message_of r) timeout pid (new_promise st)).
  { subst st1. by apply perform_request. }
  destruct (request_sent rt (op_of r) _ timeout pid (new_promise st) He)
    as (Hm & Ht & Hp & Hss & _).
  { state_simpl. rewrite length_app. cbn. lia. }
  pose proof (request_sent_effects (op_of r) _ timeout pid (new_promise st) sid He Hsock)
    as Hef.
  rewrite <- Hst1 in Hm, Ht, Hp, Hss, Hef.
  state_simpl in Hm. state_simpl in Ht. state_simpl in Hp. state_simpl in Hss.
  state_simpl in Hef.
  rewrite Hpre in Hm. fold timeoutId in Hm, Ht.
  split; [rewrite Hm; apply lookup_insert_eq |].
  split; [exact Ht |].
  split.
  { rewrite Hp. rewrite lookup_app_l by (rewrite length_app; cbn; lia).
    apply lookup_snoc. }
  split; [unfold state_of; by rewrite Hss | exact Hef].
Qed.

End RoundTrip.



(** X6.  In the same situation, when the response timeout ([timeout || 5000]
    ms) fires before a frame of the reply type arrives, the promise rejects
    with ["Timeout waiting for <reply type> response"] and the one-shot
    handler of the call is taken out of the table, the handlers that were
    there before staying; a frame of the reply type that arrives later
    leaves the promise rejected. *)
Theorem request_timeout (rt : Runtime) (r : Request) (timeout : option Z)
    (st : State) (sid : nat) (pre : list Handler) :
  valid_args r = true ->
  isConnected st = true ->
  socket st = Some sid ->
  state_of sid st = Some OPEN ->
  send_throws rt sid (message_of r) = None ->
  default [] (messageHandlers st !! reply_type (op_of r)) = pre ->
  Forall stable pre ->
  let pid := length (promises st) in
  let timeoutId := next_timer st in
  let st1 := perform rt r timeout st in
  let timeout_error :=
    MkError ("Timeout waiting for " +:+ reply_type (op_of r) +:+ " response") in
  timers st1 !! timeoutId
    = Some {| t_delay := inject_Z (timeout_or timeout 5000);
              t_callback := CbRequestTimeout (op_of r) pid |} /\
  let st3 := timer_fires rt timeoutId st1 in
  promise_state pid st3 = Some (Rejected timeout_error) /\
  messageHandlers st3 !! reply_type (op_of r) = Some pre /\
  timers st3 !! timeoutId = None /\
  forall evs, promise_state pid (run rt evs st3) = Some (Rejected timeout_error).
Proof.
  intros Hv Hc Hsock Hopen Hsend Hpre Hst pid timeoutId st1 timeout_error.
  destruct (request_pending rt r timeout st sid pre Hv Hc Hsock Hopen Hsend Hpre)
    as (Hm1 & Ht & Hp1 & Ho1 & Hef).
  fold pid timeoutId st1 in Hm1, Ht, Hp1, Ho1, Hef.
  split; [rewrite Ht; apply lookup_insert_eq |].
  cbn zeta.
  assert (H3 : promise_state pid (timer_fires rt timeoutId st1)
               = Some (Rejected timeout_error) /\
               messageHandlers (timer_fires rt timeoutId st1) !! reply_type (op_of r)
               = Some pre /\
               timers (timer_fires rt timeoutId st1) !! timeoutId = None).
  { unfold timer_fires. rewrite Ht, lookup_insert_eq. cbn [t_callback].
    unfold requestTimeout_fired. state_simpl. rewrite Hm1.
    rewrite remove_registered_snoc by (by apply stable_not_one_shot).
    unfold reject, promise_state. state_simpl. rewrite Hp1. state_simpl.
    split; [| split].
    - rewrite list_lookup_insert_eq; [done | by eapply lookup_lt_Some].
    - apply lookup_insert_eq.
    - apply lookup_delete_eq. }
  destruct H3 as (Hrej & Hm3 & Ht3).
  split; [exact Hrej |]. split; [exact Hm3 |]. split; [exact Ht3 |].
  intros evs. by apply settled_state.
Qed.

Lemma request_timeout_witness :
  let rt := browser None in
  let r := ReqSavePreset (JStr "evening") in
  let st := connected_service rt in
  let st3 := timer_fires rt (next_timer st) (perform rt r None st) in
  promise_state (length (promises st)) (run rt [WsMessage 0 "late"] st3)
    = Some (Rejected
              (MkError ("Timeout waiting for " +:+ reply_type (op_of r) +:+ " response"))).
Proof.
  intros rt r st st3.
  assert (H1 : isConnected st = true) by (vm_compute; reflexivity).
  assert (H2 : socket st = Some 0) by (vm_compute; reflexivity).
  assert (H3 : state_of 0 st = Some OPEN) by (vm_compute; reflexivity).
  assert (H4 : default [] (messageHandlers st !! reply_type (op_of r)) = [])
    by (vm_compute; reflexivity).
  pose proof (request_timeout rt r None st 0 [] eq_refl H1 H2 H3 eq_refl H4
                (Forall_nil_2 _)) as (_ & _ & _ & _ & Hlater).
  exact (Hlater [WsMessage 0 "late"]).
Defined.

(** * Requests, frames and handlers at the edges *)

Section Edges.

Variable rt : Runtime.

Lemma reported_app es1 es2 : reported (es1 ++ es2) = reported es1 ++ reported es2.
Proof.
  induction es1 as [| e es1 IH]; [done |].
  destruct e as [[] | | | | |]; cbn; by rewrite ?IH.
Qed.

Lemma reported_notified ev d ls :
  reported (map (fun callback => Notified callback ev d) ls) = [].
Proof. by induction ls. Qed.

Lemma transmitted_app es1 es2 :
  transmitted (es1 ++ es2) = transmitted es1 ++ transmitted es2.
Proof.
  induction es1 as [| e es1 IH]; [done |].
  destruct e; cbn; by rewrite ?IH.
Qed.

Lemma transmitted_fired ev d st : transmitted (fired ev d st) = [].
Proof. unfold fired. cbn. by induction (eventListeners st ev). Qed.

Lemma triggerEvent_fired ev d st :
  triggerEvent ev d st = log (fired ev d st) st.
Proof. reflexivity. Qed.

Lemma log_nil st : log [] st = st.
Proof. unfold log. rewrite app_nil_r. by destruct st. Qed.

Lemma log_log es1 es2 st : log es2 (log es1 st) = log (es1 ++ es2) st.
Proof. unfold log. cbn. by rewrite <- app_assoc. Qed.

(** One visit of [forEach] at an index that holds a stable handler. *)
Lemma visit_stable_reports handler data messageType st :
  stable handler ->
  exists es,
    (match run_handler handler data (log [HandlerRan handler data] st) with
     | (Some error, st') =>
         triggerEvent EvError (DHandlerError error messageType data) st'
     | (None, st') => st'
     end) = log (HandlerRan handler data :: es) st /\
    handlers_run es = [] /\
    transmitted es = [] /\
    reported es
      = map (fun e => DHandlerError e messageType data) (thrown [handler]).
Proof.
  destruct handler as [| fid [| e |]]; try done; intros _; cbn.
  - exists []. done.
  - eexists. unfold triggerEvent, log. state_simpl. rewrite <- app_assoc.
    split; [reflexivity |]. cbn.
    split; [by apply handlers_run_notified |].
    split; [by induction (eventListeners st EvError) |].
    by rewrite reported_notified.
Qed.

Lemma thrown_app hs1 hs2 : thrown (hs1 ++ hs2) = thrown hs1 ++ thrown hs2.
Proof.
  induction hs1 as [| h hs1 IH]; [done |].
  destruct h as [| fid []]; cbn; by rewrite ?IH.
Qed.

Lemma forEach_stable_reports n : forall k messageType data st hs,
  messageHandlers st !! messageType = Some hs ->
  (forall i h, k <= i < k + n -> hs !! i = Some h -> stable h) ->
  exists es,
    forEach_handler n k messageType data st = log es st /\
    handlers_run es = take n (drop k hs) /\
    transmitted es = [] /\
    reported es
      = map (fun e => DHandlerError e messageType data) (thrown (take n (drop k hs))).
Proof.
  induction n as [| n IH]; intros k messageType data st hs Hm Hst.
  { exists []. cbn. by rewrite log_nil. }
  cbn [forEach_handler]. rewrite Hm. cbn [mbind option_bind].
  destruct (hs !! k) as [h|] eqn:Hk.
  - destruct (visit_stable_reports h data messageType st) as (es1 & -> & Hr1 & Ht1 & He1);
      [by apply (Hst k); [lia |] |].
    destruct (IH (S k) messageType data (log (HandlerRan h data :: es1) st) hs)
      as (es2 & -> & Hr2 & Ht2 & He2); [done | intros i h' Hi; apply Hst; lia |].
    exists ((HandlerRan h data :: es1) ++ es2). split; [by rewrite log_log |].
    rewrite (drop_S _ _ _ Hk). cbn [take].
    split; [| split].
    + rewrite handlers_run_app. cbn. by rewrite Hr1, Hr2.
    + rewrite transmitted_app. cbn. by rewrite Ht1, Ht2.
    + rewrite reported_app. cbn [reported]. rewrite He1, He2.
      change (h :: take n (drop (S k) hs)) with ([h] ++ take n (drop (S k) hs)).
      by rewrite thrown_app, map_app.
  - destruct (IH (S k) messageType data st hs) as (es2 & -> & Hr2 & Ht2 & He2);
      [done | intros i h' Hi; apply Hst; lia |].
    exists es2. split; [done |].
    apply lookup_ge_None in Hk.
    rewrite drop_ge in * by lia. rewrite take_nil in *. done.
Qed.

Lemma remove_registered_elem {A} `{EqDecision A} (x : A) (l : list A) :
  x ∈ l ->
  exists l1 l2, l = l1 ++ x :: l2 /\ (x ∉ l1) /\ remove_registered x l = l1 ++ l2.
Proof.
  unfold remove_registered. induction l as [| y l IH]; intros Hx.
  { by apply elem_of_nil in Hx. }
  cbn. destruct (decide (y = x)) as [-> | Hne].
  - exists [], l. split; [done |]. split; [apply not_elem_of_nil | done].
  - apply elem_of_cons in Hx as [-> | Hx]; [done |].
    destruct (IH Hx) as (l1 & l2 & Hl & Hn & Hr).
    exists (y :: l1), l2. split; [by rewrite Hl |].
    split; [apply not_elem_of_cons; split; [congruence | done] |].
    destruct (indexOf x l) as [i|]; cbn; f_equal; exact Hr.
Qed.

Lemma remove_registered_absent {A} `{EqDecision A} (x : A) (l : list A) :
  x ∉ l -> remove_registered x l = l.
Proof.
  unfold remove_registered. induction l as [| y l IH]; intros Hx; [done |].
  apply not_elem_of_cons in Hx as [Hne Hx]. cbn.
  destruct (decide (y = x)); [congruence |].
  specialize (IH Hx). destruct (indexOf x l); cbn; [f_equal; exact IH | done].
Qed.

Lemma set_messageHandlers_same st : set_messageHandlers (messageHandlers st) st = st.
Proof. by destruct st. Qed.

End Edges.

(** X7.  [updateDisplay], [savePreset] and [loadPreset] validate their
    arguments before anything else, connected or not: when the client ids
    are not a non-empty array, the display data is falsy or not an object,
    or the preset name is not a non-empty string, the call returns a
    promise that is already rejected with the message of the failed check
    (the client ids are checked first) and changes nothing else: no handler
    is registered, no timeout armed, nothing sent and no event fired. *)
Theorem invalid_arguments_rejected (rt : Runtime) (r : Request)
    (timeout : option Z) (st : State) :
  valid_args r = false ->
  perform rt r timeout st =
  set_promises
    (promises st ++ [{| p_state := Rejected (MkError (validation_error r));
                        p_backoff := false |}]) st.
Proof.
  intros Hv. destruct r; cbn in Hv |- *; try done.
  - unfold updateDisplay, Promise_reject.
    destruct (nonempty_array clientIds); cbn in Hv |- *.
    + rewrite Hv. cbn. apply reject_new_promise.
    + apply reject_new_promise.
  - unfold savePreset, Promise_reject. rewrite Hv. cbn. apply reject_new_promise.
  - unfold loadPreset, Promise_reject. rewrite Hv. cbn. apply reject_new_promise.
Qed.

(** An empty list of client ids, on a connected service. *)
Lemma invalid_arguments_rejected_witness :
  let rt := browser None in
  let st := connected_service rt in
  let st' := perform rt (ReqUpdateDisplay (JArr []) (JObj [])) None st in
  st' =
    set_promises
      (promises st
       ++ [{| p_state := Rejected (MkError "Client IDs must be a non-empty array");
              p_backoff := false |}]) st.
Proof.
  intros rt st st'.
  exact (invalid_arguments_rejected rt (ReqUpdateDisplay (JArr []) (JObj [])) None st
           eq_refl).
Defined.

(** X8.  [send] settles its promise before it returns, and hands a frame to
    the transport exactly when it resolves: either the service is connected,
    its WebSocket is open, the frame is transmitted and the promise resolved,
    without any event; or the promise is rejected, nothing is transmitted
    and one [error] event is fired. In both cases the connection state is
    left as it was. *)
Theorem send_settles_at_once (rt : Runtime) (message : json) (st : State) :
  let pid := length (promises st) in
  let st' := send rt message st in
  ((exists sid,
      isConnected st = true /\ socket st = Some sid /\ state_of sid st = Some OPEN /\
      promise_state pid st' = Some (Fulfilled None) /\
      effects st' = effects st ++ [WsSent sid message]) \/
   (exists e d,
      promise_state pid st' = Some (Rejected e) /\
      effects st' = effects st ++ fired EvError d st /\
      transmitted (effects st') = transmitted (effects st))) /\
  same_conn st st' /\ timers st' = timers st /\
  messageHandlers st' = messageHandlers st.
Proof.
  intros pid st'. subst pid st'.
  destruct (send_error rt message st) as [e|] eqn:He.
  - rewrite (send_rejected rt _ _ _ He). split; [| done]. right.
    exists e, (send_error_event message e st).
    unfold promise_state. state_simpl. rewrite lookup_snoc.
    split; [done |]. split; [done |].
    rewrite transmitted_app.
    change (Emitted EvError ?d :: map _ _) with (fired EvError d st).
    by rewrite transmitted_fired, app_nil_r.
  - destruct (send_resolved rt _ _ He) as (sid & Hs & ->). split; [| done]. left.
    exists sid. unfold send_error in He. rewrite Hs in He.
    destruct (isConnected st); cbn in He; [| done].
    destruct (decide (state_of sid st = Some OPEN)) as [Ho |]; [| done].
    unfold promise_state. state_simpl. by rewrite lookup_snoc.
Qed.

(** X9.  A frame whose [type] has handlers that leave the table alone (they
    return or throw): every handler registered for the type is invoked once,
    in registration order; each exception a handler raises is reported by an
    [error] event of type handler_error, in order, and stops no other
    handler; the [message] event is fired after the handlers, with the
    decoded frame; nothing is transmitted and only the log changes. *)
Theorem dispatch_invokes_all (rt : Runtime) (sid : nat) (rawData : string)
    (data : json) (messageType : string) (hs : list Handler) (st : State) :
  state_of sid st = Some OPEN ->
  JSON_parse rt rawData = Some data ->
  get_field "type" data = Some (JStr messageType) ->
  messageHandlers st !! messageType = Some hs ->
  Forall stable hs ->
  exists es,
    ws_message rt sid rawData st
      = log (es ++ fired EvMessage (DMessage data) st) st /\
    handlers_run es = hs /\
    reported es = map (fun e => DHandlerError e messageType data) (thrown hs) /\
    transmitted es = [].
Proof.
  intros Ho Hparse Htype Hm Hst.
  unfold ws_message. rewrite decide_True by done.
  unfold onmessage. rewrite Hparse. unfold handleMessage.
  destruct data; try done. rewrite Htype, Hm.
  destruct (forEach_stable_reports (length hs) 0 messageType (JObj fields) st hs Hm)
    as (es & -> & Hr & Ht & He).
  { intros i h _ Hi. eapply Forall_lookup_1; eauto. }
  rewrite drop_0, firstn_all in Hr, He.
  exists es. rewrite triggerEvent_fired, log_log. done.
Qed.

Lemma dispatch_invokes_all_witness :
  let data := JObj [("type", JStr "client_list")] in
  let rt := browser (Some data) in
  let boom := MkError "boom" in
  let hs := [HUser 1 (UThrow boom); HUser 2 UReturn] in
  let st :=
    run rt [CallOnMessage "client_list" 1 (UThrow boom);
            CallOnMessage "client_list" 2 UReturn] (connected_service rt) in
  exists es,
    ws_message rt 0 "frame" st = log (es ++ fired EvMessage (DMessage data) st) st /\
    handlers_run es = hs /\
    reported es = map (fun e => DHandlerError e "client_list" data) (thrown hs) /\
    transmitted es = [].
Proof.
  intros data rt boom hs st.
  assert (H1 : state_of 0 st = Some OPEN) by (vm_compute; reflexivity).
  assert (H2 : messageHandlers st !! "client_list" = Some hs) by (vm_compute; reflexivity).
  apply (dispatch_invokes_all rt 0 "frame" data "client_list" hs st H1 eq_refl eq_refl H2).
  repeat constructor.
Defined.



(** X11.  [offMessage] takes out one registration of the handler, the
    earliest, and keeps the order of the others; it changes nothing when the
    handler is not registered for the type, or the type is unknown; the
    handlers of the other types stay.  After [onMessage] then [offMessage]
    of a handler that was not registered, the type has the handlers it had:
    an empty array if it had none. *)
Theorem offMessage_removes_one (messageType : string) (handler : Handler)
    (st : State) :
  let hs := default [] (messageHandlers st !! messageType) in
  let st' := offMessage messageType handler st in
  ((handler ∉ hs) -> st' = st) /\
  ((handler ∈ hs) ->
   exists l1 l2,
     hs = l1 ++ handler :: l2 /\ (handler ∉ l1) /\
     messageHandlers st' !! messageType = Some (l1 ++ l2)) /\
  (forall t, t <> messageType -> messageHandlers st' !! t = messageHandlers st !! t) /\
  ((handler ∉ hs) ->
   messageHandlers (offMessage messageType handler (onMessage messageType handler st))
     !! messageType = Some hs).
Proof.
  intros hs st'. subst hs st'. unfold offMessage.
  split; [| split; [| split]].
  - destruct (messageHandlers st !! messageType) as [hs|] eqn:Hm; [| done].
    cbn. intros Hn. rewrite remove_registered_absent by done.
    rewrite insert_id by done. apply set_messageHandlers_same.
  - destruct (messageHandlers st !! messageType) as [hs|] eqn:Hm; cbn.
    + intros Hin. destruct (remove_registered_elem handler hs Hin)
        as (l1 & l2 & -> & Hn & ->).
      exists l1, l2. split; [done |]. split; [done |]. apply lookup_insert_eq.
    + intros Hin. by apply elem_of_nil in Hin.
  - intros t Hne. destruct (messageHandlers st !! messageType); [| done].
    cbn. by rewrite lookup_insert_ne.
  - intros Hn. unfold onMessage. state_simpl. rewrite lookup_insert_eq.
    state_simpl. rewrite lookup_insert_eq, remove_registered_snoc; done.
Qed.

(** * Events of WebSockets the service has let go *)

Section Stale.

Variable rt : Runtime.

(** What [connect] with a well-formed URL creates. *)
Lemma connect_created serverUrl options st :
  valid_url serverUrl = true ->
  ctor_throws rt serverUrl = None ->
  let st' := connect rt serverUrl options st in
  let sid := length (sockets st) in
  let ws :=
    {| ws_url := serverUrl; readyState := CONNECTING; ws_options := options;
       ws_timer := next_timer st; ws_promise := length (promises st) |} in
  socket st' = Some sid /\
  sockets st' !! sid = Some ws /\
  timers st' !! next_timer st
    = Some {| t_delay := inject_Z (timeout_or (co_timeout options) 10000);
              t_callback := CbConnectionTimeout (length (promises st)) |} /\
  url st' = serverUrl /\
  (exists es, effects st' = effects st ++ es ++ [WsCreated sid serverUrl]).
Proof.
  intros Hv Hc st' sid ws. subst st' sid ws. rewrite connect_valid by done.
  destruct (torn_down_facts rt (new_promise st))
    as (_ & _ & _ & _ & _ & _ & Hn & Hl & _).
  assert (He : exists es, effects (torn_down rt (new_promise st)) = effects st ++ es).
  { unfold torn_down. destruct (socket (new_promise st)).
    - destruct (disconnect_effects rt (new_promise st)) as (es & He & _). eauto.
    - exists []. cbn. by rewrite app_nil_r. }
  cbn [new_promise set_promises promises next_timer sockets] in Hn, Hl.
  set (T := torn_down rt (new_promise st)) in *.
  cbn zeta. state_simpl. rewrite Hn, Hl.
  split; [done |]. split; [rewrite <- Hl; apply lookup_snoc |].
  split; [apply lookup_insert_eq |]. split; [done |].
  destruct He as (es & ->). exists es. by rewrite <- app_assoc.
Qed.

Lemma catch_backoff_effects p x : effects (catch_backoff p x) = effects x.
Proof. unfold catch_backoff. by repeat case_match. Qed.

Lemma catch_backoff_timers p x : timers (catch_backoff p x) = timers x.
Proof. unfold catch_backoff. by repeat case_match. Qed.

Lemma catch_backoff_conn p x :
  socket (catch_backoff p x) = socket x /\ sockets (catch_backoff p x) = sockets x.
Proof. unfold catch_backoff. by repeat case_match. Qed.

(** The callback of [scheduleReconnect]. *)
Lemma reconnect_fired_created x :
  valid_url (url x) = true ->
  ctor_throws rt (url x) = None ->
  let x' := reconnect_fired rt x in
  let sid := length (sockets x) in
  let ws :=
    {| ws_url := url x; readyState := CONNECTING; ws_options := no_options;
       ws_timer := next_timer x; ws_promise := length (promises x) |} in
  socket x' = Some sid /\
  sockets x' !! sid = Some ws /\
  timers x' !! next_timer x
    = Some {| t_delay := 10000; t_callback := CbConnectionTimeout (length (promises x)) |} /\
  (exists es,
     effects x' =
       effects x
       ++ fired EvReconnect
            (DReconnect (connectionAttempts x) (reconnectDelay x) (url x)) x
       ++ es ++ [WsCreated sid (url x)]).
Proof.
  intros Hv Hc x' sid ws. subst x' sid ws. unfold reconnect_fired.
  set (y := triggerEvent _ _ x).
  change (url y) with (url x). change (length (promises y)) with (length (promises x)).
  destruct (connect_created (url x) no_options y Hv Hc) as (H1 & H2 & H3 & _ & es & H5).
  destruct (catch_backoff_conn (length (promises x)) (connect rt (url x) no_options y))
    as [-> ->].
  rewrite catch_backoff_timers, catch_backoff_effects.
  split; [exact H1 |]. split; [exact H2 |]. split; [exact H3 |].
  exists es. rewrite H5. subst y. rewrite triggerEvent_fired. cbn [log effects set_effects].
  by rewrite <- app_assoc.
Qed.

End Stale.

(** X12.  [onclose] does not look at which WebSocket closed.  When the close
    event of a WebSocket the service no longer holds comes while the service
    is connected on another, open, WebSocket, the service is marked not
    connected although it still holds the open WebSocket:
    [getConnectionStatus()] reports not connected with an open socket,
    [getClients] rejects with the not-connected error and [send] rejects
    without transmitting. *)
Theorem stale_close_marks_disconnected (rt : Runtime) (i j : nat) (ws : WebSocket)
    (code : Z) (reason : string) (wasClean : bool) (st : State) :
  socket st = Some j ->
  i <> j ->
  isConnected st = true ->
  state_of j st = Some OPEN ->
  sockets st !! i = Some ws ->
  readyState ws <> CLOSED ->
  let st' := ws_closed i code reason wasClean st in
  let not_connected := MkError (system rt +:+ " WebSocket not connected") in
  isConnected st' = false /\ socket st' = Some j /\ state_of j st' = Some OPEN /\
  connected (getConnectionStatus rt st') = false /\
  socketState (getConnectionStatus rt st') = Some OPEN /\
  (forall timeout,
     promise_state (length (promises st')) (getClients rt timeout st')
     = Some (Rejected not_connected)) /\
  (forall message,
     promise_state (length (promises st')) (send rt message st')
     = Some (Rejected not_connected) /\
     transmitted (effects (send rt message st')) = transmitted (effects st')).
Proof.
  intros Hs Hij Hc Ho Hl Hr st' not_connected.
  assert (H : isConnected st' = false /\ socket st' = Some j /\ state_of j st' = Some OPEN).
  { subst st'. unfold ws_closed. rewrite Hl. rewrite decide_False by done.
    destruct (onclose_conn ws code reason wasClean
                (set_sockets (<[i := set_readyState CLOSED ws]> (sockets st)) st))
      as (Hso & Hio & Hsso).
    split; [exact Hio |]. split; [by rewrite Hso |].
    unfold state_of. rewrite Hsso. cbn. by rewrite list_lookup_insert_ne. }
  destruct H as (Hi' & Hs' & Ho').
  split; [exact Hi' |]. split; [exact Hs' |]. split; [exact Ho' |].
  split; [exact Hi' |].
  split; [cbn; rewrite Hs'; exact Ho' |].
  split.
  - intros timeout. unfold getClients. state_simpl. rewrite Hi'. cbn [negb].
    rewrite reject_new_promise. unfold promise_state. cbn. by rewrite lookup_snoc.
  - intros message.
    assert (He : send_error rt message st' = Some not_connected).
    { unfold send_error. by rewrite Hi'. }
    rewrite (send_rejected rt _ _ _ He). unfold promise_state. state_simpl.
    rewrite lookup_snoc. split; [done |].
    rewrite transmitted_app.
    change (Emitted EvError ?d :: map _ _) with (fired EvError d st').
    by rewrite transmitted_fired, app_nil_r.
Qed.

Lemma stale_close_marks_disconnected_witness :
  let rt := browser None in
  let st := reconnected_service rt in
  let st' := ws_closed 0 1000%Z "Disconnected by client" true st in
  isConnected st' = false /\ socket st' = Some 1 /\ state_of 1 st' = Some OPEN.
Proof.
  intros rt st st'.
  assert (H1 : socket st = Some 1) by (vm_compute; reflexivity).
  assert (H2 : isConnected st = true) by (vm_compute; reflexivity).
  assert (H3 : state_of 1 st = Some OPEN) by (vm_compute; reflexivity).
  assert (H4 : sockets st !! 0
               = Some {| ws_url := "ws://a"; readyState := CLOSING;
                         ws_options := no_options; ws_timer := 1; ws_promise := 0 |})
    by (vm_compute; reflexivity).
  destruct (stale_close_marks_disconnected rt 0 1 _ 1000%Z "Disconnected by client"
              true st H1 ltac:(discriminate) H2 H3 H4 ltac:(discriminate))
    as (Ha & Hb & Hc & _).
  split; [exact Ha |]. split; [exact Hb | exact Hc].
Defined.

(** X13.  [disconnect()] closes the WebSocket but leaves its [onclose] in
    place.  When the close event that follows carries a code other than 1000
    (as for a WebSocket closed while connecting), the socket was not opened
    with [noReconnect] and the attempt counter is below 5, the reconnection
    policy applies as for any loss of connection: a reconnection is scheduled
    after [reconnectDelay], and when it fires the service opens a new
    WebSocket to the same URL, although the caller has disconnected. *)
Theorem disconnect_then_abnormal_close_reconnects (rt : Runtime) (i : nat)
    (ws : WebSocket) (code : Z) (reason : string) (wasClean : bool) (st : State) :
  (forall sid, close_throws rt sid = None) ->
  socket st = Some i ->
  sockets st !! i = Some ws ->
  readyState ws = OPEN \/ readyState ws = CONNECTING ->
  code <> 1000%Z ->
  noReconnect (ws_options ws) = false ->
  connectionAttempts st < 5 ->
  valid_url (url st) = true ->
  ctor_throws rt (url st) = None ->
  let st1 := disconnect rt st in
  let st2 := ws_closed i code reason wasClean st1 in
  let t := next_timer st in
  let st3 := timer_fires rt t st2 in
  let sid := length (sockets st) in
  (socket st1 = None /\ isConnected st1 = false /\ state_of i st1 = Some CLOSING) /\
  (reconnectTimeout st2 = Some t /\
   timers st2 !! t = Some {| t_delay := reconnectDelay st; t_callback := CbReconnect |}) /\
  (socket st3 = Some sid /\ state_of sid st3 = Some CONNECTING /\
   exists es, effects st3 = effects st2 ++ es ++ [WsCreated sid (url st)]).
Proof.
  intros Hclose Hs Hl Hr Hcode Hn Ha Hv Hctor st1 st2 t st3 sid.
  destruct (disconnect_unchanged rt st) as (_ & _ & Hu & Hat & Hd & Hnt & _ & _ & Hlen).
  fold st1 in Hu, Hat, Hd, Hnt, Hlen.
  assert (Hss : sockets st1 = alter closing i (sockets st)).
  { subst st1. rewrite disconnect_sockets, Hs by done.
    rewrite decide_True; [done |]. unfold state_of. rewrite Hl. cbn.
    destruct Hr as [-> | ->]; auto. }
  assert (Hl1 : sockets st1 !! i = Some (set_readyState CLOSING ws)).
  { rewrite Hss, list_lookup_alter_eq, Hl. cbn. unfold closing.
    by destruct Hr as [-> | ->]. }
  split.
  { split; [apply disconnect_socket |].
    split; [subst st1; by rewrite disconnect_isConnected, Hs |].
    unfold state_of. by rewrite Hl1. }
  assert (H2 : st2 = scheduleReconnect
                       (closed i (set_readyState CLOSING ws) code reason wasClean st1)).
  { subst st2. rewrite (ws_closed_unfold _ _ _ _ _ _ Hl1) by done. cbn zeta.
    cbn [ws_options set_readyState]. rewrite Hn, Hat.
    apply Z.eqb_neq in Hcode. rewrite Hcode. cbn [negb andb].
    apply Nat.ltb_lt in Ha. change MAX_RECONNECT_ATTEMPTS with 5. by rewrite Ha. }
  set (c := closed i (set_readyState CLOSING ws) code reason wasClean st1) in *.
  destruct (scheduleReconnect_timer c) as (Hrt & Htm & _).
  rewrite <- H2 in Hrt, Htm.
  change (next_timer c) with (next_timer st1) in Hrt, Htm.
  change (reconnectDelay c) with (reconnectDelay st1) in Htm.
  rewrite Hnt in Hrt, Htm. rewrite Hd in Htm. fold t in Hrt, Htm.
  split; [done |].
  subst st3. unfold timer_fires. rewrite Htm. cbn [t_callback].
  set (x := clearTimeout t st2).
  assert (Hux : url x = url st).
  { subst x. rewrite H2. unfold scheduleReconnect. by repeat case_match. }
  assert (Hlx : length (sockets x) = length (sockets st)).
  { subst x. rewrite H2. unfold scheduleReconnect.
    repeat case_match; cbn; by rewrite length_insert. }
  destruct (reconnect_fired_created rt x) as (H1 & H2' & _ & es & He);
    [by rewrite Hux | by rewrite Hux |].
  rewrite Hlx, Hux in *. fold sid in H1, H2', He.
  split; [exact H1 |]. split; [unfold state_of; by rewrite H2' |].
  exists (fired EvReconnect
            (DReconnect (connectionAttempts x) (reconnectDelay x) (url st)) x ++ es).
  rewrite He. change (effects x) with (effects st2). by rewrite <- app_assoc.
Qed.

(** [disconnect()] while the first attempt is connecting, then the close
    event with code 1006: the service connects again. *)
Lemma disconnect_then_abnormal_close_reconnects_witness :
  let rt := browser None in
  let st := connect rt "ws://host" no_options createWebSocketService in
  let st3 := run rt [CallDisconnect; WsClose 0 1006%Z "" false; TimerFires 2] st in
  socket st3 = Some 1 /\ state_of 1 st3 = Some CONNECTING.
Proof.
  intros rt st st3.
  assert (H1 : forall sid, close_throws rt sid = None) by reflexivity.
  assert (H2 : sockets st !! 0
               = Some {| ws_url := "ws://host"; readyState := CONNECTING;
                         ws_options := no_options; ws_timer := 1; ws_promise := 0 |})
    by (vm_compute; reflexivity).
  assert (H3 : socket st = Some 0) by (vm_compute; reflexivity).
  assert (H4 : connectionAttempts st < 5) by (vm_compute; lia).
  assert (H5 : valid_url (url st) = true) by (vm_compute; reflexivity).
  assert (H6 : ctor_throws rt (url st) = None) by reflexivity.
  destruct (disconnect_then_abnormal_close_reconnects rt 0 _ 1006%Z "" false st
              H1 H3 H2 (or_intror eq_refl) ltac:(discriminate) eq_refl H4 H5 H6)
    as (_ & _ & Ha & Hb & _).
  split; [exact Ha | exact Hb].
Defined.

(** * The options of [connect] and the attempts the service starts itself *)

Section Options.

Variable rt : Runtime.

Lemma connect_created_more serverUrl options st :
  valid_url serverUrl = true ->
  ctor_throws rt serverUrl = None ->
  let st' := connect rt serverUrl options st in
  length (sockets st') = S (length (sockets st)) /\
  promises st' = promises st ++ [{| p_state := Pending; p_backoff := false |}] /\
  isConnected st' = match socket st with Some _ => false | None => isConnected st end.
Proof.
  intros Hv Hc st'. subst st'. rewrite connect_valid by done.
  destruct (torn_down_facts rt (new_promise st))
    as (_ & Hi & Hp & _ & _ & _ & _ & Hl & _).
  cbn [new_promise set_promises promises sockets socket isConnected] in Hi, Hp, Hl.
  set (T := torn_down rt (new_promise st)) in *.
  cbn zeta. state_simpl. rewrite length_app, Hl. cbn.
  split; [lia |]. done.
Qed.

(** A connection timeout that fires while the service is not connected and
    the WebSocket it holds is connecting. *)
Lemma timeout_closes_current t T p b j x :
  (forall sid, close_throws rt sid = None) ->
  timers x !! t = Some T ->
  t_callback T = CbConnectionTimeout p ->
  promises x !! p = Some {| p_state := Pending; p_backoff := b |} ->
  isConnected x = false ->
  socket x = Some j ->
  state_of j x = Some CONNECTING ->
  let x' := timer_fires rt t x in
  promise_state p x' = Some (Rejected (MkError ("Connection timeout for " +:+ url x))) /\
  state_of j x' = Some CLOSING /\
  socket x' = None /\
  (forall q, q <> p -> promises x' !! q = promises x !! q).
Proof.
  intros Hclose HT Hcb Hp Hi Hs Hc x'. subst x'.
  unfold timer_fires. rewrite HT, Hcb.
  unfold connectionTimeout_fired. state_simpl. rewrite Hi, Hs.
  rewrite decide_True by exact Hc.
  unfold ws_close. rewrite Hclose.
  unfold state_of in Hc. destruct (sockets x !! j) as [ws|] eqn:Hl; [| done].
  cbn in Hc. injection Hc as Hc.
  unfold reject, promise_state, state_of. state_simpl. rewrite Hp.
  assert (Hlt : p < length (promises x)) by (by eapply lookup_lt_Some).
  destruct b; state_simpl.
  all: rewrite list_lookup_insert_eq by done.
  all: rewrite list_lookup_alter_eq, Hl; cbn; unfold closing; rewrite Hc; cbn.
  all: repeat split; try done.
  all: intros q Hq; by rewrite list_lookup_insert_ne.
Qed.

End Options.

(** X14.  [unlimitedReconnect] is read from the options of the [connect]
    call that created the WebSocket that closes, and the attempts the
    service starts itself are made without options.  So the option does not
    lift the ceiling for a first [connect]: whatever its value, the caller's
    attempt and the reconnection attempts failing five times in a row, the
    fifth failure schedules no reconnection and fires the max-attempts
    [error] event once. *)
Theorem ceiling_despite_unlimited (rt : Runtime) (serverUrl : string)
    (options : ConnectOptions) (st : State) (f : Failure) (fs : list Failure) :
  valid_url serverUrl = true ->
  ctor_throws rt serverUrl = None ->
  noReconnect options = false ->
  connectionAttempts st = 0 ->
  scheduled_reconnections st = ∅ ->
  length (f :: fs) = 5 ->
  Forall (fun f => close_code f <> 1000%Z) (f :: fs) ->
  let st' := retries rt fs (attempt_fails rt f (connect rt serverUrl options st)) in
  connectionAttempts st' = 5 /\
  scheduled_reconnections st' = ∅ /\
  count_max_errors st' = S (count_max_errors st).
Proof.
  intros Hv Hc Hn Ha Hf Hlen Hfs st'. subst st'.
  apply Forall_cons in Hfs as [Hcf Hfs]. cbn [length] in Hlen.
  destruct (connect_in_flight rt serverUrl options st Hv Hc Hf)
    as (Hin & Ha1 & Hu1 & _ & _ & _ & Hm1).
  destruct (attempt_outcome rt _ _ false f _ Hin Hcf Hn) as (Ha2 & Hu2 & _ & Hpol).
  cbn [ws_options] in Hpol. rewrite Ha1, Ha in Hpol. cbn in Hpol.
  destruct Hpol as [[t Hsch] Hm2].
  set (st2 := attempt_fails rt f (connect rt serverUrl options st)) in *.
  destruct (retries_outcome rt fs t st2 Hsch) as (Ha3 & _ & Hat);
    [by rewrite Hu2, Hu1 | by rewrite Hu2, Hu1 | done | rewrite Ha2, Ha1, Ha; lia |].
  rewrite Ha2, Ha1, Ha in Ha3, Hat. rewrite Hm2, Hm1 in Hat.
  split; [lia |].
  apply Hat; [lia |]. intros ->. cbn in Hlen. lia.
Qed.

Lemma ceiling_despite_unlimited_witness :
  let rt := browser None in
  let st' :=
    retries rt [closes_early; times_out; closes_early; closes_early]
      (attempt_fails rt closes_early
         (connect rt "ws://host" unlimited createWebSocketService)) in
  connectionAttempts st' = 5 /\
  scheduled_reconnections st' = ∅ /\
  count_max_errors st' = 1.
Proof.
  apply (ceiling_despite_unlimited (browser None) "ws://host" unlimited
           createWebSocketService closes_early
           [closes_early; times_out; closes_early; closes_early]).
  - reflexivity.
  - reflexivity.
  - reflexivity.
  - reflexivity.
  - reflexivity.
  - reflexivity.
  - repeat constructor; discriminate.
Defined.

(** X15.  The reconnection that [scheduleReconnect] arms calls
    [connect(url)] with the URL of the last attempt and no options: when it
    fires (the URL being still well formed), the [reconnect] event is fired
    with the attempt counter, the delay and the URL, and a WebSocket is opened
    to that URL whose connection timeout is the default of 10000 ms and whose
    close is subject to the reconnection policy and the ceiling, whatever
    [timeout], [noReconnect] or [unlimitedReconnect] the caller had passed. *)
Theorem reconnection_uses_defaults (rt : Runtime) (t : nat) (st : State) :
  scheduled t st ->
  valid_url (url st) = true ->
  ctor_throws rt (url st) = None ->
  let st' := reconnection_fires rt st in
  let sid := length (sockets st) in
  exists ws es,
    socket st' = Some sid /\
    sockets st' !! sid = Some ws /\
    readyState ws = CONNECTING /\
    ws_url ws = url st /\
    ws_options ws = no_options /\
    timers st' !! ws_timer ws
      = Some {| t_delay := 10000; t_callback := CbConnectionTimeout (ws_promise ws) |} /\
    effects st' =
      effects st
      ++ fired EvReconnect
           (DReconnect (connectionAttempts st) (reconnectDelay st) (url st)) st
      ++ es ++ [WsCreated sid (url st)].
Proof.
  intros (Hrt & Hi & Hf) Hv Hc st' sid. subst st' sid.
  unfold reconnection_fires. rewrite Hrt. unfold timer_fires.
  assert (HT : timers st !! t =
               Some {| t_delay := reconnectDelay st; t_callback := CbReconnect |}).
  { assert (H : scheduled_reconnections st !! t =
                Some {| t_delay := reconnectDelay st; t_callback := CbReconnect |})
      by (rewrite Hf; apply lookup_singleton_eq).
    unfold scheduled_reconnections, reconnections in H.
    by apply map_lookup_filter_Some in H as [H _]. }
  rewrite HT. cbn [t_callback].
  destruct (reconnect_fired_created rt (clearTimeout t st) Hv Hc)
    as (H1 & H2 & H3 & es & H4).
  eexists _, es. split; [exact H1 |]. split; [exact H2 |].
  repeat split; try done.
Qed.

Lemma reconnection_uses_defaults_witness :
  let rt := browser None in
  let caller := {| co_timeout := Some 5000%Z; noReconnect := false;
                   unlimitedReconnect := true |} in
  let st :=
    run rt [CallConnect "ws://host" caller; WsOpen 0; WsClose 0 1006%Z "" false]
      createWebSocketService in
  exists ws es,
    socket (reconnection_fires rt st) = Some (length (sockets st)) /\
    sockets (reconnection_fires rt st) !! length (sockets st) = Some ws /\
    readyState ws = CONNECTING /\
    ws_url ws = url st /\
    ws_options ws = no_options /\
    timers (reconnection_fires rt st) !! ws_timer ws
      = Some {| t_delay := 10000; t_callback := CbConnectionTimeout (ws_promise ws) |} /\
    effects (reconnection_fires rt st) =
      effects st
      ++ fired EvReconnect
           (DReconnect (connectionAttempts st) (reconnectDelay st) (url st)) st
      ++ es ++ [WsCreated (length (sockets st)) (url st)].
Proof.
  intros rt caller st.
  assert (H1 : scheduled 2 st).
  { split; [vm_compute; reflexivity |]. split; [vm_compute; reflexivity |].
    vm_compute. reflexivity. }
  assert (H2 : valid_url (url st) = true) by (vm_compute; reflexivity).
  assert (H3 : ctor_throws rt (url st) = None) by reflexivity.
  exact (reconnection_uses_defaults rt 2 st H1 H2 H3).
Defined.

(** X16.  The connection timeout of an attempt acts on the WebSocket the
    service holds when it fires.  A second [connect], made while the first
    attempt is connecting, closes the first WebSocket but does not clear its
    timeout; if that timeout fires before the close event of the first
    WebSocket has come and before the second WebSocket has opened, it rejects
    the promise of the first call with a timeout error that names the URL of
    the second, closes the second WebSocket and drops the socket handle; the
    promise of the second call stays pending. *)
Theorem superseded_timeout_closes_current (rt : Runtime) (u1 u2 : string)
    (o1 o2 : ConnectOptions) (st : State) :
  (forall i, close_throws rt i = None) ->
  valid_url u1 = true -> ctor_throws rt u1 = None ->
  valid_url u2 = true -> ctor_throws rt u2 = None ->
  conn_inv st ->
  unused (length (promises st)) (next_timer st) st ->
  let p1 := length (promises st) in
  let t1 := next_timer st in
  let s2 := S (length (sockets st)) in
  let st2 := connect rt u2 o2 (connect rt u1 o1 st) in
  let st3 := timer_fires rt t1 st2 in
  (t_callback <$> timers st2 !! t1 = Some (CbConnectionTimeout p1) /\
   socket st2 = Some s2 /\ state_of s2 st2 = Some CONNECTING /\
   promise_state p1 st2 = Some Pending) /\
  promise_state p1 st3 = Some (Rejected (MkError ("Connection timeout for " +:+ u2))) /\
  state_of s2 st3 = Some CLOSING /\
  socket st3 = None /\
  promise_state (S p1) st3 = Some Pending.
Proof.
  intros Hclose Hv1 Hc1 Hv2 Hc2 Hconn Hun p1 t1 s2 st2 st3.
  destruct (connect_attempt rt Hclose u1 o1 st Hv1 Hc1 Hconn Hun)
    as ((Hr & _ & _) & Htm & Hpr & Hst).
  set (st1 := connect rt u1 o1 st) in *. fold p1 t1 in Hr, Htm, Hpr.
  assert (Ha1 : alive p1 t1 (length (sockets st)) st1).
  { split; [done |]. split; [by rewrite Htm | eauto]. }
  pose proof (alive_step rt _ _ _ (CallConnect u2 o2) st1 Ha1 (fun H => H))
    as (Hr2 & [T HT] & [b Hp2]).
  cbn [step] in Hr2, HT, Hp2. fold st2 in Hr2, HT, Hp2.
  assert (Hcb : t_callback T = CbConnectionTimeout p1).
  { destruct Hr2 as (_ & _ & Hti & _). specialize (Hti _ _ HT).
    unfold good_timer in Hti. by rewrite decide_True in Hti. }
  destruct (connect_created_more rt u1 o1 st Hv1 Hc1) as (Hl1 & Hp1 & _).
  fold st1 in Hl1, Hp1.
  destruct (connect_created rt u2 o2 st1 Hv2 Hc2) as (Hs2 & Hw2 & _ & Hu2 & _).
  destruct (connect_created_more rt u2 o2 st1 Hv2 Hc2) as (_ & Hpp2 & Hi2).
  fold st2 in Hs2, Hw2, Hu2, Hpp2, Hi2.
  rewrite Hl1 in Hs2, Hw2. fold s2 in Hs2, Hw2.
  assert (Hsock1 : socket st1 = Some (length (sockets st))).
  { by destruct (connect_created rt u1 o1 st Hv1 Hc1) as (H & _). }
  rewrite Hsock1 in Hi2.
  assert (Hc : state_of s2 st2 = Some CONNECTING).
  { unfold state_of. by rewrite Hw2. }
  destruct (timeout_closes_current rt t1 T p1 b s2 st2 Hclose HT Hcb Hp2 Hi2 Hs2 Hc)
    as (Hrej & Hcl & Hno & Hoth).
  fold st3 in Hrej, Hcl, Hno, Hoth. rewrite Hu2 in Hrej.
  split.
  { split; [by rewrite HT; cbn; rewrite Hcb |]. split; [done |]. split; [done |].
    unfold promise_state. by rewrite Hp2. }
  split; [done |]. split; [done |]. split; [done |].
  unfold promise_state. rewrite Hoth by lia. rewrite Hpp2, Hp1.
  replace (S p1) with (length (promises st ++ [{| p_state := Pending; p_backoff := false |}]))
    by (rewrite length_app; cbn; subst p1; lia).
  by rewrite lookup_snoc.
Qed.

Lemma superseded_timeout_closes_current_witness :
  let rt := browser None in
  let st2 :=
    connect rt "ws://b" no_options
      (connect rt "ws://a" no_options createWebSocketService) in
  promise_state 0 (timer_fires rt 1 st2)
    = Some (Rejected (MkError ("Connection timeout for " +:+ "ws://b"))) /\
  state_of 1 (timer_fires rt 1 st2) = Some CLOSING.
Proof.
  intros rt st2.
  assert (H1 : forall i, close_throws rt i = None) by reflexivity.
  assert (H4 : conn_inv createWebSocketService).
  { split; [discriminate | intros sid ws; cbn; discriminate]. }
  assert (H5 : unused (length (promises createWebSocketService))
                 (next_timer createWebSocketService) createWebSocketService).
  { repeat split; cbn in *; try discriminate;
      rewrite ?lookup_empty in *; discriminate. }
  destruct (superseded_timeout_closes_current rt "ws://a" "ws://b" no_options no_options
              createWebSocketService H1 eq_refl eq_refl eq_refl eq_refl H4 H5)
    as (_ & Ha & Hb & _).
  split; [exact Ha | exact Hb].
Defined.

(** * The backoff delay stays within its bounds *)

Create HintDb delay.

Section Delay.

Lemma delay_frame (f : State -> State) x :
  (forall y, reconnectDelay (f y) = reconnectDelay y /\ timers (f y) = timers y) ->
  delay_ok x -> delay_ok (f x).
Proof. intros Hf H. unfold delay_ok. destruct (Hf x) as [-> ->]. exact H. Qed.

Lemma delay_backoff x : delay_ok x -> delay_ok (backoff x).
Proof.
  intros [[H1 H2] Ht]. split; [| exact Ht].
  cbn [backoff reconnectDelay set_reconnectDelay]. unfold MAX_RECONNECT_DELAY.
  split; [| apply Q.le_min_r].
  apply Q.min_glb; [| lra].
  assert (H15 : (1.5 == 3 # 2)%Q) by reflexivity. rewrite H15. lra.
Qed.

Lemma delay_reset x : delay_ok x -> delay_ok (set_reconnectDelay 1000 x).
Proof. intros [_ Ht]. split; [cbn; lra | exact Ht]. Qed.

Lemma delay_resolve x p v : delay_ok x -> delay_ok (resolve p v x).
Proof. intros H. unfold resolve. repeat case_match; exact H. Qed.

Lemma delay_reject x p e : delay_ok x -> delay_ok (reject p e x).
Proof.
  intros H. unfold reject. repeat case_match; try done.
  all: try apply delay_backoff; exact H.
Qed.

Lemma delay_catch_backoff x p : delay_ok x -> delay_ok (catch_backoff p x).
Proof.
  intros H. unfold catch_backoff.
  repeat case_match; try apply delay_backoff; exact H.
Qed.

Lemma delay_setTimeout x cb d :
  cb <> CbReconnect -> delay_ok x -> delay_ok (setTimeout cb d x).
Proof.
  intros Hcb [Hd H]. split; [exact Hd |]. intros t T. cbn. intros Hl Ht.
  apply lookup_insert_Some in Hl as [[_ <-] | [_ Hl]]; [done |]. by eapply H.
Qed.

Lemma delay_clearTimeout x t : delay_ok x -> delay_ok (clearTimeout t x).
Proof.
  intros [Hd H]. split; [exact Hd |]. intros t' T. cbn. intros Hl Ht.
  apply lookup_delete_Some in Hl as [_ Hl]. by eapply H.
Qed.

(** [scheduleReconnect] arms the reconnection with the current delay. *)
Lemma delay_scheduleReconnect x : delay_ok x -> delay_ok (scheduleReconnect x).
Proof.
  intros [Hd H]. split.
  { unfold scheduleReconnect. by destruct (reconnectTimeout x). }
  intros t T. unfold scheduleReconnect.
  destruct (reconnectTimeout x) as [t0|]; cbn; intros Hl Ht.
  - apply lookup_insert_Some in Hl as [[_ <-] | [_ Hl]]; [done |].
    apply lookup_delete_Some in Hl as [_ Hl]. by eapply H.
  - apply lookup_insert_Some in Hl as [[_ <-] | [_ Hl]]; [done |]. by eapply H.
Qed.

End Delay.

#[export] Hint Resolve delay_backoff delay_reset delay_resolve delay_reject
  delay_catch_backoff delay_clearTimeout delay_scheduleReconnect : delay.
#[export] Hint Extern 2 (delay_ok (setTimeout _ _ _)) =>
  apply delay_setTimeout; [discriminate |] : delay.
#[export] Hint Extern 3 (delay_ok (?f ?x)) =>
  apply (delay_frame f); [intros; split; reflexivity |] : delay.

Ltac delay :=
  cbn zeta; repeat case_match; simplify_eq; cbn [fst snd]; eauto 40 with delay.

Section DelayOps.

Variable rt : Runtime.

Lemma delay_offMessage x messageType handler :
  delay_ok x -> delay_ok (offMessage messageType handler x).
Proof. intros H. unfold offMessage. delay. Qed.

Lemma delay_ws_close x i args : delay_ok x -> delay_ok (ws_close rt i args x).2.
Proof. intros H. unfold ws_close. delay. Qed.

Lemma delay_disconnect x : delay_ok x -> delay_ok (disconnect rt x).
Proof.
  intros H. unfold disconnect.
  pose proof (delay_ws_close x) as Hc.
  destruct (socket x) as [c|]; [| delay].
  destruct (decide _); [| delay].
  specialize (Hc c (Some (1000%Z, "Disconnected by client")) H).
  destruct (ws_close rt c _ x) as [[e|] x']; cbn [snd] in Hc; delay.
Qed.

Lemma delay_send x message : delay_ok x -> delay_ok (send rt message x).
Proof. intros H. unfold send. delay. Qed.

Lemma delay_run_handler x handler data :
  delay_ok x -> delay_ok (run_handler handler data x).2.
Proof.
  intros H. unfold run_handler.
  pose proof (delay_offMessage x) as Ho. delay.
Qed.

Lemma delay_forEach_handler n : forall k messageType data x,
  delay_ok x -> delay_ok (forEach_handler n k messageType data x).
Proof.
  induction n as [| n IH]; intros k messageType data x H; [done |].
  cbn [forEach_handler]. apply IH.
  destruct (messageHandlers x !! messageType ≫= _) as [h|]; [| done].
  pose proof (delay_run_handler (log [HandlerRan h data] x) h data) as Hr.
  destruct (run_handler h data _) as [[e|] x']; cbn [snd] in Hr; delay.
Qed.

Lemma delay_handleMessage x data : delay_ok x -> delay_ok (handleMessage data x).2.
Proof.
  intros H. unfold handleMessage.
  repeat case_match; simplify_eq; cbn [snd]; try done.
  by apply delay_forEach_handler.
Qed.

End DelayOps.

#[export] Hint Resolve delay_offMessage delay_disconnect delay_send : delay.

Section DelayStep.

Variable rt : Runtime.

Lemma delay_connect x serverUrl options :
  delay_ok x -> delay_ok (connect rt serverUrl options x).
Proof. intros H. unfold connect. delay. Qed.

Lemma delay_connectionTimeout_fired x p :
  delay_ok x -> delay_ok (connectionTimeout_fired rt p x).
Proof. intros H. unfold connectionTimeout_fired, ws_close. delay. Qed.

Lemma delay_onopen x ws : delay_ok x -> delay_ok (onopen ws x).
Proof. intros H. unfold onopen. delay. Qed.

Lemma delay_onmessage x rawData : delay_ok x -> delay_ok (onmessage rt rawData x).
Proof.
  intros H. unfold onmessage.
  destruct (JSON_parse rt rawData) as [data|]; [| delay].
  pose proof (delay_handleMessage x data H) as Hh.
  destruct (handleMessage data x) as [[e|] x']; cbn [snd] in Hh; delay.
Qed.

Lemma delay_onclose x ws code reason wasClean :
  delay_ok x -> delay_ok (onclose ws code reason wasClean x).
Proof. intros H. unfold onclose. delay. Qed.

Lemma delay_onerror x : delay_ok x -> delay_ok (onerror x).
Proof. intros H. unfold onerror. delay. Qed.

Lemma delay_reconnect_fired x : delay_ok x -> delay_ok (reconnect_fired rt x).
Proof.
  intros H. unfold reconnect_fired. apply delay_catch_backoff, delay_connect. delay.
Qed.

Lemma delay_requestTimeout_fired x op p t :
  delay_ok x -> delay_ok (requestTimeout_fired op p t x).
Proof. intros H. unfold requestTimeout_fired. delay. Qed.

Lemma delay_request x op message timeout p :
  delay_ok x -> delay_ok (request rt op message timeout p x).
Proof.
  intros H. unfold request.
  set (y := send rt message _).
  assert (Hy : delay_ok y) by (subst y; delay).
  clearbody y. delay.
Qed.

End DelayStep.

#[export] Hint Resolve delay_connect delay_connectionTimeout_fired delay_onopen
  delay_onmessage delay_onclose delay_onerror delay_reconnect_fired
  delay_requestTimeout_fired delay_request : delay.

Section DelayRun.

Variable rt : Runtime.

Lemma delay_step ev x : delay_ok x -> delay_ok (step rt ev x).
Proof.
  intros H. destruct ev; cbn [step].
  all: unfold getClients, getPresets, updateDisplay, savePreset, loadPreset,
         Promise_reject, ws_open, ws_message, ws_error, ws_closed, timer_fires,
         addEventListener, removeEventListener.
  all: delay.
Qed.

Lemma delay_run evs : forall x, delay_ok x -> delay_ok (run rt evs x).
Proof.
  induction evs as [| ev evs IH]; intros x H; [done |].
  cbn. apply IH. by apply delay_step.
Qed.

End DelayRun.

(** X17.  In every state the service reaches from its creation, the backoff
    delay is at least 1000 ms and at most 30000 ms, and so is the delay of
    the reconnection that is pending: the delay starts at 1000, is only ever
    multiplied by 1.5 under the cap of 30000, and is reset to 1000 by an
    open event. *)
Theorem delay_within_bounds (rt : Runtime) (evs : list Event) :
  let st := run rt evs createWebSocketService in
  (1000 <= reconnectDelay st <= 30000)%Q /\
  forall t T, scheduled_reconnections st !! t = Some T ->
              (1000 <= t_delay T <= 30000)%Q.
Proof.
  intros st.
  assert (H : delay_ok st).
  { apply delay_run. split; [cbn; lra |]. intros t T. cbn. by rewrite lookup_empty. }
  destruct H as [Hd Ht]. split; [exact Hd |].
  intros t T Hl. unfold scheduled_reconnections, reconnections in Hl.
  apply map_lookup_filter_Some in Hl as [Hl Hc]. by eapply Ht.
Qed.

(** * Calls that overlap *)

Section Overlap.

Variable rt : Runtime.

(** [disconnect] on a service that holds an open or connecting WebSocket
    whose [close] returns. *)
Lemma disconnect_closes i st :
  close_throws rt i = None ->
  socket st = Some i ->
  state_of i st = Some OPEN \/ state_of i st = Some CONNECTING ->
  effects (disconnect rt st)
    = effects st ++ [WsCloseCalled i (Some (1000%Z, "Disconnected by client"))] /\
  sockets (disconnect rt st) = alter closing i (sockets st).
Proof.
  intros Hc Hs Ho. unfold disconnect, ws_close. rewrite Hs, Hc.
  rewrite decide_True by done.
  repeat case_match; done.
Qed.

Lemma remove_registered_head {A} `{EqDecision A} (x : A) (l : list A) :
  remove_registered x (x :: l) = l.
Proof. unfold remove_registered. cbn. by rewrite decide_True. Qed.

Lemma remove_registered_middle {A} `{EqDecision A} (x : A) (pre l : list A) :
  x ∉ pre -> remove_registered x (pre ++ x :: l) = pre ++ l.
Proof.
  intros Hx. induction pre as [| y pre IH]; [apply remove_registered_head |].
  apply not_elem_of_cons in Hx as [Hne Hx]. specialize (IH Hx).
  unfold remove_registered in *. cbn. rewrite decide_False by congruence.
  destruct (indexOf x (pre ++ x :: l)); cbn; [f_equal; exact IH | by rewrite <- IH].
Qed.

Lemma onmessage_sockets rawData x : sockets (onmessage rt rawData x) = sockets x.
Proof.
  pose proof (same_conn_onmessage rt x x rawData (same_conn_refl x)) as (_ & _ & H).
  exact H.
Qed.

End Overlap.

(** X18.  [connect] with a well-formed URL on a service that holds an open
    or connecting WebSocket replaces the connection: it closes that
    WebSocket with code 1000 and reason ["Disconnected by client"], then
    opens the new one; the service is not connected until the new one opens;
    the scheduled reconnection, if any, is dropped; and the attempt counter
    is incremented, not reset. *)
Theorem connect_replaces_connection (rt : Runtime) (serverUrl : string)
    (options : ConnectOptions) (i : nat) (st : State) :
  close_throws rt i = None ->
  valid_url serverUrl = true ->
  ctor_throws rt serverUrl = None ->
  socket st = Some i ->
  state_of i st = Some OPEN \/ state_of i st = Some CONNECTING ->
  let st' := connect rt serverUrl options st in
  let sid := length (sockets st) in
  effects st' =
    effects st ++ [WsCloseCalled i (Some (1000%Z, "Disconnected by client"));
                   WsCreated sid serverUrl] /\
  state_of i st' = Some CLOSING /\
  socket st' = Some sid /\
  state_of sid st' = Some CONNECTING /\
  isConnected st' = false /\
  reconnectTimeout st' = None /\
  connectionAttempts st' = S (connectionAttempts st) /\
  url st' = serverUrl.
Proof.
  intros Hc Hv Hctor Hs Ho st' sid. subst st' sid.
  rewrite connect_valid by done. unfold torn_down.
  cbn [socket new_promise set_promises]. rewrite Hs.
  destruct (disconnect_closes rt i (new_promise st) Hc Hs Ho) as (He & Hss).
  destruct (disconnect_unchanged rt (new_promise st)) as (_ & _ & _ & Ha & _ & _ & _ & _ & Hl).
  pose proof (disconnect_isConnected rt (new_promise st)) as Hi.
  pose proof (disconnect_reconnectTimeout rt (new_promise st)) as Hr.
  cbn [socket new_promise set_promises] in Hi. rewrite Hs in Hi.
  set (T := disconnect rt (new_promise st)) in *.
  cbn [effects sockets connectionAttempts new_promise set_promises] in He, Hss, Ha, Hl.
  cbn zeta. unfold state_of. state_simpl. rewrite He, Hl, Ha.
  assert (Hlt : i < length (sockets st)).
  { unfold state_of in Ho.
    destruct (sockets st !! i) eqn:E; [by eapply lookup_lt_Some | by destruct Ho]. }
  split; [by rewrite <- app_assoc |].
  split.
  { rewrite lookup_app_l by (rewrite Hl; lia). rewrite Hss, list_lookup_alter_eq.
    unfold state_of in Ho. destruct (sockets st !! i) as [ws|]; [| by destruct Ho].
    cbn in *. unfold closing. by destruct Ho as [[= ->] | [= ->]]. }
  split; [done |].
  split; [by rewrite <- Hl, lookup_snoc |].
  done.
Qed.

Lemma connect_replaces_connection_witness :
  let rt := browser None in
  let st := connected_service rt in
  let st' := connect rt "ws://other" no_options st in
  effects st' =
    effects st ++ [WsCloseCalled 0 (Some (1000%Z, "Disconnected by client"));
                   WsCreated (length (sockets st)) "ws://other"] /\
  state_of 0 st' = Some CLOSING.
Proof.
  intros rt st st'.
  assert (H1 : socket st = Some 0) by (vm_compute; reflexivity).
  assert (H2 : state_of 0 st = Some OPEN) by (vm_compute; reflexivity).
  destruct (connect_replaces_connection rt "ws://other" no_options 0 st
              eq_refl eq_refl eq_refl H1 (or_introl H2)) as (Ha & Hb & _).
  split; [exact Ha | exact Hb].
Defined.

(** X19.  Two requests of the same kind are pending together, their one-shot
    handlers being the last two in the array of the reply type, and the
    handlers registered before them leave the table alone (they return or
    throw).  The requests are then answered one frame each.  The one-shot
    handler of the first takes itself out of the array while [forEach]
    iterates over it, so the handler of the second is not invoked for the
    first reply frame: that frame runs the earlier handlers, resolves the
    first promise only and leaves the second pending with its handler
    registered; the next frame of the type resolves the second. *)
Theorem overlapping_requests_one_frame_each (rt : Runtime) (op : ReqOp)
    (p1 t1 p2 t2 sid : nat) (rawData : string) (data : json)
    (pre : list Handler) (st : State) :
  state_of sid st = Some OPEN ->
  JSON_parse rt rawData = Some data ->
  get_field "type" data = Some (JStr (reply_type op)) ->
  messageHandlers st !! reply_type op
    = Some (pre ++ [HOneShot op p1 t1; HOneShot op p2 t2]) ->
  Forall stable pre ->
  p1 <> p2 ->
  promises st !! p1 = Some {| p_state := Pending; p_backoff := false |} ->
  promises st !! p2 = Some {| p_state := Pending; p_backoff := false |} ->
  let st1 := ws_message rt sid rawData st in
  let st2 := ws_message rt sid rawData st1 in
  (promise_state p1 st1 = Some (Fulfilled (Some (reply_value op data))) /\
   promise_state p2 st1 = Some Pending /\
   messageHandlers st1 !! reply_type op = Some (pre ++ [HOneShot op p2 t2]) /\
   handlers_run (effects st1)
     = handlers_run (effects st) ++ pre ++ [HOneShot op p1 t1]) /\
  (promise_state p2 st2 = Some (Fulfilled (Some (reply_value op data))) /\
   messageHandlers st2 !! reply_type op = Some pre).
Proof.
  intros Ho Hparse Htype Hm Hst Hne Hp1 Hp2 st1 st2.
  assert (Hlt1 : p1 < length (promises st)) by (by eapply lookup_lt_Some).
  assert (H1 : promise_state p1 st1 = Some (Fulfilled (Some (reply_value op data))) /\
               promises st1 !! p2 = Some {| p_state := Pending; p_backoff := false |} /\
               messageHandlers st1 !! reply_type op = Some (pre ++ [HOneShot op p2 t2]) /\
               handlers_run (effects st1)
               = handlers_run (effects st) ++ pre ++ [HOneShot op p1 t1]).
  { subst st1 st2. unfold ws_message. rewrite decide_True by done.
    unfold onmessage. rewrite Hparse. unfold handleMessage.
    destruct data; try done. rewrite Htype, Hm.
    set (data := JObj fields) in *.
    set (hs := pre ++ [HOneShot op p1 t1; HOneShot op p2 t2]) in *.
    assert (Hlen : length hs = length pre + 2).
    { subst hs. rewrite length_app. cbn. lia. }
    rewrite Hlen, forEach_handler_split.
    destruct (forEach_stable (length pre) 0 (reply_type op) data st hs Hm)
      as (es & -> & Hes).
    { intros i h Hi Hl. subst hs. rewrite lookup_app_l in Hl by lia.
      eapply Forall_lookup_1; eauto. }
    assert (Hpre : take (length pre) (drop 0 hs) = pre).
    { subst hs. by rewrite drop_0, take_app_length. }
    rewrite Hpre in Hes.
    set (x0 := log es st).
    set (x1 :=
           set_promises
             (<[p1 := {| p_state := Fulfilled (Some (reply_value op data));
                         p_backoff := false |}]> (promises st))
             (clearTimeout t1
                (set_messageHandlers
                   (<[reply_type op := pre ++ [HOneShot op p2 t2]]> (messageHandlers st))
                   (log [HandlerRan (HOneShot op p1 t1) data] x0)))).
    assert (Hv : run_handler (HOneShot op p1 t1) data
                   (log [HandlerRan (HOneShot op p1 t1) data] x0) = (None, x1)).
    { unfold run_handler. subst x1 x0. state_simpl. rewrite Hm. subst hs.
      rewrite remove_registered_middle by (by apply stable_not_one_shot).
      unfold resolve. state_simpl. by rewrite Hp1. }
    assert (Hx : messageHandlers x1 !! reply_type op = Some (pre ++ [HOneShot op p2 t2])).
    { subst x1. state_simpl. apply lookup_insert_eq. }
    assert (Hk : hs !! (0 + length pre) = Some (HOneShot op p1 t1)).
    { subst hs. rewrite lookup_app_r by (cbn; lia).
      by replace (0 + length pre - length pre) with 0 by lia. }
    assert (Hk' : (pre ++ [HOneShot op p2 t2]) !! S (0 + length pre) = None).
    { apply lookup_ge_None. rewrite length_app. cbn. lia. }
    cbn [forEach_handler].
    change (messageHandlers x0) with (messageHandlers st).
    rewrite Hm. cbn [mbind option_bind]. rewrite Hk. rewrite Hv. rewrite Hx.
    cbn [mbind option_bind]. rewrite Hk'.
    unfold promise_state. state_simpl. rewrite Hx.
    subst x1 x0. state_simpl.
    rewrite list_lookup_insert_eq by done.
    rewrite list_lookup_insert_ne by done.
    split; [done |]. split; [done |]. split; [done |].
    rewrite !handlers_run_app. cbn. rewrite Hes.
    rewrite handlers_run_notified by done. by rewrite app_nil_r, <- app_assoc. }
  destruct H1 as (Hf1 & Hp2' & Hm1 & Hrun).
  split.
  { split; [exact Hf1 |]. split; [unfold promise_state; by rewrite Hp2' |]. done. }
  assert (Ho1 : state_of sid st1 = Some OPEN).
  { subst st1. unfold ws_message. rewrite decide_True by done.
    unfold state_of. by rewrite onmessage_sockets. }
  subst st2. unfold ws_message. rewrite decide_True by done.
  unfold onmessage. rewrite Hparse. unfold handleMessage.
  destruct data; try done. rewrite Htype, Hm1.
  destruct (dispatch_reaches_last op p2 t2 pre (JObj fields) st1 Hm1 Hst Hp2')
    as (Hm2 & _ & Hpp2 & _).
  unfold promise_state. state_simpl. rewrite Hm2, Hpp2.
  rewrite list_lookup_insert_eq by (by eapply lookup_lt_Some).
  split; [done |]. apply lookup_insert_eq.
Qed.

(** A handler of the caller for [client_list], then two [getClients] calls
    in a row on a connected service, then two [client_list] frames. *)
Lemma overlapping_requests_one_frame_each_witness :
  let data := client_list_frame (JObj []) in
  let rt := browser (Some data) in
  let st :=
    run rt [CallOnMessage "client_list" 7 UReturn; CallGetClients None;
            CallGetClients None] (connected_service rt) in
  let st1 := ws_message rt 0 "frame" st in
  promise_state 1 st1 = Some (Fulfilled (Some (reply_value GetClients data))) /\
  promise_state 3 st1 = Some Pending /\
  promise_state 3 (ws_message rt 0 "frame" st1)
    = Some (Fulfilled (Some (reply_value GetClients data))).
Proof.
  intros data rt st st1.
  assert (H1 : state_of 0 st = Some OPEN) by (vm_compute; reflexivity).
  assert (H2 : messageHandlers st !! reply_type GetClients
               = Some ([HUser 7 UReturn]
                       ++ [HOneShot GetClients 1 2; HOneShot GetClients 3 3]))
    by (vm_compute; reflexivity).
  assert (H3 : promises st !! 1 = Some {| p_state := Pending; p_backoff := false |})
    by (vm_compute; reflexivity).
  assert (H4 : promises st !! 3 = Some {| p_state := Pending; p_backoff := false |})
    by (vm_compute; reflexivity).
  assert (H5 : Forall stable [HUser 7 UReturn]) by (repeat constructor).
  destruct (overlapping_requests_one_frame_each rt GetClients 1 2 3 3 0 "frame" data
              [HUser 7 UReturn] st H1 eq_refl eq_refl H2 H5 ltac:(discriminate) H3 H4)
    as ((Ha & Hb & _) & Hc & _).
  split; [exact Ha |]. split; [exact Hb | exact Hc].
Defined.

(** * The dashboard: selection and probe *)

Section Selection.

Lemma handleClientSelect_spec clientId isSelected prev :
  NoDup prev ->
  NoDup (handleClientSelect clientId isSelected prev) /\
  forall id,
    id ∈ handleClientSelect clientId isSelected prev <->
    if decide (id = clientId) then isSelected = true else id ∈ prev.
Proof.
  intros Hnd. unfold handleClientSelect.
  destruct isSelected; cbn [andb negb]; case_bool_decide as Hin; cbn [negb].
  - split; [done |]. intros id. case_decide; [subst; by split | done].
  - split.
    + apply NoDup_app. split; [done |]. split; [| apply NoDup_singleton].
      intros x Hx Hx'. apply list_elem_of_singleton in Hx'. by subst.
    + intros id. rewrite elem_of_app, list_elem_of_singleton.
      case_decide; [subst; by intuition | by intuition].
  - split; [by apply NoDup_filter |].
    intros id. rewrite list_elem_of_filter.
    case_decide; [subst; by intuition | by intuition].
  - split; [done |]. intros id. case_decide; [subst; by split | done].
Qed.

Lemma selectedClients_snoc calls call :
  selectedClients (calls ++ [call])
  = handleClientSelect call.1 call.2 (selectedClients calls).
Proof. unfold selectedClients. by rewrite foldl_app. Qed.

Lemma last_choice_snoc clientId calls call :
  last_choice clientId (calls ++ [call])
  = if decide (call.1 = clientId) then call.2 else last_choice clientId calls.
Proof. unfold last_choice. by rewrite foldl_app. Qed.

End Selection.

(** X20.  Whatever sequence of [handleClientSelect] calls the dashboard
    makes, starting from the empty selection, [selectedClients] lists no
    client twice and lists exactly the clients whose last call selected
    them; so the number shown in the bulk controls is the number of selected
    clients, and a bulk update names each of them once. *)
Theorem selection_is_a_set (calls : list (string * bool)) :
  NoDup (selectedClients calls) /\
  forall clientId,
    clientId ∈ selectedClients calls <-> last_choice clientId calls = true.
Proof.
  induction calls as [| call calls IH] using rev_ind.
  { split; [apply NoDup_nil_2 |]. intros clientId. cbn. split; [| done].
    intros H. by apply elem_of_nil in H. }
  destruct IH as [Hnd Hin].
  rewrite selectedClients_snoc.
  destruct (handleClientSelect_spec call.1 call.2 _ Hnd) as [Hnd' Hin'].
  split; [exact Hnd' |].
  intros clientId. rewrite Hin', last_choice_snoc.
  destruct (decide (clientId = call.1)) as [-> | Hne].
  - by rewrite decide_True.
  - rewrite decide_False by congruence. apply Hin.
Qed.

(** X21.  The probe [checkWebSocketServer] answers once, by whichever of the
    open event, the error event and its timeout comes first.  For a URL that
    is empty or starts with neither [ws://] nor [wss://] (exactly the URLs
    that [connect] rejects as invalid) it resolves false at once and opens
    nothing.  Otherwise, when [new WebSocket] returns, it opens a WebSocket
    and arms a timeout of [timeout] ms, 3000 when the argument is absent;
    the promise is pending until the first event, which resolves it, true
    for the open event and false for the error event and for the timeout;
    no later event changes the answer, and no timeout is left pending.  When
    [new WebSocket] raises, the promise is rejected with the exception. *)
Theorem probe_answers_once (rt : Runtime) (url : string) (timeout : option Z) :
  let p := checkWebSocketServer rt url timeout in
  truthy (Some (isValidWebSocketUrl url)) = valid_url url /\
  (valid_url url = false ->
   p = {| probe_result := ProbeResolved false; probe_ws := None; probe_timer := None |}) /\
  (forall e,
     valid_url url = true -> ctor_throws rt url = Some e ->
     p = {| probe_result := ProbeRejected e; probe_ws := None; probe_timer := None |}) /\
  (valid_url url = true -> ctor_throws rt url = None ->
   p = {| probe_result := ProbePending; probe_ws := Some CONNECTING;
          probe_timer := Some (default 3000%Z timeout) |} /\
   forall ev evs,
     probe_result (probe_run (ev :: evs) p)
       = ProbeResolved (match ev with ProbeOpen => true | _ => false end) /\
     probe_timer (probe_run (ev :: evs) p) = None).
Proof.
  intros p.
  assert (Hv : truthy (Some (isValidWebSocketUrl url)) = valid_url url).
  { unfold isValidWebSocketUrl, valid_url.
    destruct (String.eqb url "") eqn:He; cbn; [| done].
    rewrite He. cbn. apply String.eqb_eq in He. by subst. }
  split; [exact Hv |]. subst p. unfold checkWebSocketServer. rewrite Hv.
  split; [by intros -> |]. split; [by intros e -> -> |].
  intros -> ->. cbn [negb]. split; [done |].
  intros ev evs.
  set (p0 := {| probe_result := ProbePending; probe_ws := Some CONNECTING;
                probe_timer := Some (default 3000%Z timeout) |}).
  set (b := match ev with ProbeOpen => true | _ => false end).
  assert (H1 : probe_result (probe_step ev p0) = ProbeResolved b /\
               probe_timer (probe_step ev p0) = None).
  { subst b p0. by destruct ev. }
  change (probe_run (ev :: evs) p0) with (probe_run evs (probe_step ev p0)).
  generalize dependent (probe_step ev p0). clear p0.
  induction evs as [| ev' evs IH]; intros q Hq; [exact Hq |].
  change (probe_run (ev' :: evs) q) with (probe_run evs (probe_step ev' q)).
  apply IH. destruct Hq as (Hr & Ht).
  destruct q as [r w t]. cbn in Hr, Ht. subst r t.
  destruct ev'; cbn; unfold probe_resolve; cbn.
  - destruct w as [[]|]; done.
  - destruct w as [[]|]; done.
  - done.
Qed.

Lemma probe_answers_once_witness :
  let p := checkWebSocketServer (browser None) "ws://localhost:8765" None in
  probe_result (probe_run [ProbeTimeout; ProbeError; ProbeOpen] p) = ProbeResolved false /\
  probe_timer p = Some 3000%Z.
Proof.
  intros p.
  destruct (probe_answers_once (browser None) "ws://localhost:8765" None)
    as (_ & _ & _ & H).
  destruct (H eq_refl eq_refl) as (Hp & Hev).
  destruct (Hev ProbeTimeout [ProbeError; ProbeOpen]) as (Hr & _).
  split; [exact Hr |]. fold p in Hp. by rewrite Hp.
Defined.

(** * Requests across a disconnection, and a reconnection that succeeds *)

(** X22.  [disconnect()] does not touch the requests that are pending: it
    rejects none of them, their one-shot handlers stay registered, their
    timeouts stay armed and their promises stay pending.  When the timeout
    of such a request fires next, it rejects the request with the timeout
    error and takes its handler out of the table. *)
Theorem disconnect_leaves_requests_pending (rt : Runtime) (op : ReqOp)
    (pid tid : nat) (T : Timer) (hs : list Handler) (st : State) :
  messageHandlers st !! reply_type op = Some hs ->
  HOneShot op pid tid ∈ hs ->
  timers st !! tid = Some T ->
  t_callback T = CbRequestTimeout op pid ->
  promises st !! pid = Some {| p_state := Pending; p_backoff := false |} ->
  reconnectTimeout st <> Some tid ->
  let st1 := disconnect rt st in
  let st2 := timer_fires rt tid st1 in
  (messageHandlers st1 = messageHandlers st /\
   timers st1 !! tid = Some T /\
   promise_state pid st1 = Some Pending) /\
  (promise_state pid st2
     = Some (Rejected (MkError ("Timeout waiting for " +:+ reply_type op +:+ " response"))) /\
   messageHandlers st2 !! reply_type op
     = Some (remove_registered (HOneShot op pid tid) hs) /\
   timers st2 !! tid = None).
Proof.
  intros Hm Hin HT Hcb Hp Hr st1 st2.
  destruct (disconnect_unchanged rt st) as (Hm1 & Hp1 & _).
  fold st1 in Hm1, Hp1.
  assert (HT1 : timers st1 !! tid = Some T).
  { subst st1. rewrite disconnect_timers.
    destruct (reconnectTimeout st) as [t|]; [| done].
    rewrite lookup_delete_ne by congruence. done. }
  split.
  { split; [done |]. split; [done |]. unfold promise_state. by rewrite Hp1, Hp. }
  subst st2. unfold timer_fires. rewrite HT1, Hcb.
  unfold requestTimeout_fired. state_simpl. rewrite Hm1, Hm.
  unfold reject, promise_state. state_simpl. rewrite Hp1, Hp. state_simpl.
  rewrite list_lookup_insert_eq by (by eapply lookup_lt_Some).
  split; [done |]. split; [apply lookup_insert_eq | apply lookup_delete_eq].
Qed.

Lemma disconnect_leaves_requests_pending_witness :
  let rt := browser None in
  let st := getClients rt None (connected_service rt) in
  promise_state 1 (disconnect rt st) = Some Pending /\
  promise_state 1 (timer_fires rt 2 (disconnect rt st))
    = Some (Rejected
              (MkError ("Timeout waiting for " +:+ reply_type GetClients +:+ " response"))).
Proof.
  intros rt st.
  assert (H1 : messageHandlers st !! reply_type GetClients = Some [HOneShot GetClients 1 2])
    by (vm_compute; reflexivity).
  assert (H2 : timers st !! 2
               = Some {| t_delay := 5000; t_callback := CbRequestTimeout GetClients 1 |})
    by (vm_compute; reflexivity).
  assert (H3 : promises st !! 1 = Some {| p_state := Pending; p_backoff := false |})
    by (vm_compute; reflexivity).
  assert (H4 : reconnectTimeout st <> Some 2) by (vm_compute; discriminate).
  destruct (disconnect_leaves_requests_pending rt GetClients 1 2 _ _ st H1
              ltac:(apply list_elem_of_singleton; reflexivity) H2 eq_refl H3 H4)
    as ((_ & _ & Ha) & Hb & _).
  split; [exact Ha | exact Hb].
Defined.

(** X23.  A reconnection that succeeds.  When the scheduled reconnection
    fires and the WebSocket it opens reports open, the service is connected
    again on that WebSocket, the attempt counter is back to 0 and the backoff
    delay back to 1000 ms, the [connect] event is fired with the URL, the
    connection timeout of the attempt is cleared and no reconnection is
    pending. *)
Theorem reconnection_succeeds (rt : Runtime) (t : nat) (st : State) :
  scheduled t st ->
  valid_url (url st) = true ->
  ctor_throws rt (url st) = None ->
  let sid := length (sockets st) in
  let st1 := reconnection_fires rt st in
  let st2 := ws_open sid st1 in
  state_of sid st1 = Some CONNECTING /\
  isConnected st2 = true /\
  socket st2 = Some sid /\
  state_of sid st2 = Some OPEN /\
  connectionAttempts st2 = 0 /\
  reconnectDelay st2 = 1000%Q /\
  timers st2 !! next_timer st = None /\
  scheduled_reconnections st2 = ∅ /\
  effects st2 = effects st1 ++ fired EvConnect (DConnect (url st)) st.
Proof.
  intros (Hrt & Hi & Hf) Hv Hc sid st1 st2.
  destruct (reconnection_outcome rt t st (conj Hrt (conj Hi Hf)) Hv Hc)
    as ((sid' & ws & Hin & Hopt) & _ & Hu & _).
  fold st1 in Hin, Hu.
  destruct Hin as (Hsock & Hl & Hr & Htm & Hp & Hnone).
  assert (HT : timers st !! t =
               Some {| t_delay := reconnectDelay st; t_callback := CbReconnect |}).
  { assert (H : scheduled_reconnections st !! t =
                Some {| t_delay := reconnectDelay st; t_callback := CbReconnect |})
      by (rewrite Hf; apply lookup_singleton_eq).
    unfold scheduled_reconnections, reconnections in H.
    by apply map_lookup_filter_Some in H as [H _]. }
  assert (Hcr : socket st1 = Some sid /\
                sockets st1 !! sid
                = Some {| ws_url := url st; readyState := CONNECTING;
                          ws_options := no_options; ws_timer := next_timer st;
                          ws_promise := length (promises st) |} /\
                eventListeners st1 = eventListeners st).
  { subst st1. unfold reconnection_fires. rewrite Hrt. unfold timer_fires.
    rewrite HT. cbn [t_callback].
    destruct (reconnect_fired_created rt (clearTimeout t st) Hv Hc) as (H1 & H2 & _).
    split; [exact H1 |]. split; [exact H2 |].
    unfold reconnect_fired.
    set (y := triggerEvent _ _ _).
    assert (He : eventListeners (connect rt (url (clearTimeout t st)) no_options y)
                 = eventListeners st).
    { rewrite connect_valid by done. cbn zeta. state_simpl.
      unfold torn_down. destruct (socket (new_promise y)); [| done].
      by destruct (disconnect_unchanged rt (new_promise y)) as (_ & _ & _ & _ & _ & _ & -> & _). }
    unfold catch_backoff. by repeat case_match. }
  destruct Hcr as (Hs1 & Hl1 & Hev).
  split; [unfold state_of; by rewrite Hl1 |].
  subst st2. unfold ws_open. rewrite Hl1. cbn [readyState]. rewrite decide_True by done.
  set (ws1 := {| ws_url := url st; readyState := CONNECTING; ws_options := no_options;
                 ws_timer := next_timer st; ws_promise := length (promises st) |}) in *.
  set (y := set_sockets (<[sid := set_readyState OPEN ws1]> (sockets st1)) st1).
  destruct (onopen_conn ws1 y) as (Hso & Hio & Hsso).
  assert (Hfields : connectionAttempts (onopen ws1 y) = 0 /\
                    reconnectDelay (onopen ws1 y) = 1000%Q /\
                    timers (onopen ws1 y) = delete (next_timer st) (timers st1) /\
                    effects (onopen ws1 y)
                    = effects st1 ++ fired EvConnect (DConnect (url st1)) st1).
  { unfold onopen, resolve. repeat case_match; done. }
  destruct Hfields as (Ha & Hd & Ht & He).
  split; [exact Hio |]. split; [by rewrite Hso |].
  split.
  { unfold state_of. rewrite Hsso. subst y. cbn.
    rewrite list_lookup_insert_eq by (by eapply lookup_lt_Some). done. }
  split; [exact Ha |]. split; [exact Hd |].
  split; [rewrite Ht; apply lookup_delete_eq |].
  split.
  { unfold scheduled_reconnections. rewrite Ht, reconnections_delete.
    fold (scheduled_reconnections st1). rewrite Hnone. apply delete_empty. }
  rewrite He, Hu. unfold fired. by rewrite Hev.
Qed.

Lemma reconnection_succeeds_witness :
  let rt := browser None in
  let st := ws_closed 0 1006%Z "" false (connected_service rt) in
  let st2 := ws_open (length (sockets st)) (reconnection_fires rt st) in
  isConnected st = false /\ isConnected st2 = true /\ connectionAttempts st2 = 0.
Proof.
  intros rt st st2.
  assert (H1 : scheduled 2 st).
  { split; [vm_compute; reflexivity |]. split; [vm_compute; reflexivity |].
    vm_compute. reflexivity. }
  assert (H2 : valid_url (url st) = true) by (vm_compute; reflexivity).
  assert (H3 : ctor_throws rt (url st) = None) by reflexivity.
  destruct (reconnection_succeeds rt 2 st H1 H2 H3) as (_ & Ha & _ & _ & Hb & _).
  split; [vm_compute; reflexivity |]. split; [exact Ha | exact Hb].
Defined.

(** * Event listeners *)


(** * [disconnect] twice in a row *)




